(** * VoteVault Chain: the mock ledger of [src/services/web3Service.ts]

    A shallow embedding of the class [MockBlockchain] and the properties of
    its election registry, voter ledger, voting engine and results
    aggregator.

    The methods that change or list the store wrap their body in
    [new Promise(... setTimeout(() => { body }, delay))]; the others
    ([disconnectWallet], [getCurrentAccount], [getIsAdmin]) run at once.
    JavaScript runs one callback at a time, so each body is one atomic step;
    a method is embedded as the function its body computes, from the store
    before it to the settled promise and the store after it.  What a body
    reads from the environment ([Date.now()], [Math.random()]) is an explicit
    argument, one argument per read.

    Numbers: [Date.now()], [startTime], [endTime], [voteCount] and
    [totalVotes] are JavaScript numbers holding integers and are embedded as
    [Z] (fractional or [NaN] time stamps and counters beyond 2^53 are outside
    the model).  A [Math.random()] draw is a double in [0, 1), embedded as a
    rational. *)

From Stdlib Require Import ZArith String DecimalString DecimalPos DecimalZ QArith Qround.
From stdpp Require Import gmap strings list sorting.

Local Open Scope Z_scope.

(** ** Data model (the exported interfaces) *)

Module Candidate.
Record t := mk {
  id : string;
  name : string;
  description : string;
  voteCount : Z;
  imageUrl : option string
}.
End Candidate.

Module Election.
Record t := mk {
  id : string;
  title : string;
  description : string;
  startTime : Z;
  endTime : Z;
  isActive : bool;
  candidates : list Candidate.t;
  totalVotes : Z;
  hasVoted : option bool
}.
End Election.

Module Vote.
Record t := mk {
  electionId : string;
  candidateId : string;
  voterAddress : string;
  timestamp : Z;
  txHash : string
}.
End Vote.

(** [Voter.hasVoted] is a plain object indexed by election id.  Only the
    value [true] is ever stored in it.  (The keys that a JavaScript object
    inherits from its prototype are not election ids: every id under which
    the class stores an election starts with [election-].) *)
Module Voter.
Record t := mk {
  address : string;
  isRegistered : bool;
  hasVoted : gmap string bool
}.
End Voter.

(** The argument of [createElection]:
    [Omit<Election, 'id' | 'candidates' | 'totalVotes' | 'isActive'>]. *)
Module ElectionInput.
Record t := mk {
  title : string;
  description : string;
  startTime : Z;
  endTime : Z;
  hasVoted : option bool
}.
End ElectionInput.

(** The argument of [addCandidate]: [Omit<Candidate, 'id' | 'voteCount'>]. *)
Module CandidateInput.
Record t := mk {
  name : string;
  description : string;
  imageUrl : option string
}.
End CandidateInput.

(** ** A JavaScript [Map] with string keys

    [Map] iterates in insertion order and [set] on a present key keeps the
    key's position; [elections] is listed through [values()], so its order
    is part of the model. *)
Module JsMap.
Section Ops.
Context {V : Type}.

Fixpoint get (k : string) (m : list (string * V)) : option V :=
  match m with
  | [] => None
  | (k', v) :: m' => if String.eqb k' k then Some v else get k m'
  end.

Fixpoint set (k : string) (v : V) (m : list (string * V)) : list (string * V) :=
  match m with
  | [] => [(k, v)]
  | (k', v') :: m' =>
      if String.eqb k' k then (k, v) :: m' else (k', v') :: set k v m'
  end.

Definition values (m : list (string * V)) : list V := map snd m.
End Ops.
End JsMap.

(** ** The store: the private fields of [MockBlockchain] *)

Record MockBlockchain := mkChain {
  elections : list (string * Election.t);
  votes : gmap string (list Vote.t);
  voters : gmap string Voter.t;
  currentAccount : option string;
  isAdmin : bool
}.

(** The messages of the [Error]s the promises are rejected with. *)
Inductive Error :=
| WalletNotConnected
| OnlyAdminCreate
| OnlyAdminAdd
| ElectionNotFound
| ElectionNotActive
| AlreadyVoted
| CandidateNotFound.

Definition message (e : Error) : string :=
  match e with
  | WalletNotConnected => "Wallet not connected"
  | OnlyAdminCreate => "Only admin can create elections"
  | OnlyAdminAdd => "Only admin can add candidates"
  | ElectionNotFound => "Election not found"
  | ElectionNotActive => "Election is not active"
  | AlreadyVoted => "You have already voted in this election"
  | CandidateNotFound => "Candidate not found"
  end.

(** A settled promise. *)
Inductive Promise (A : Type) :=
| Resolve (a : A)
| Reject (e : Error).
Arguments Resolve {A} a.
Arguments Reject {A} e.

(** ** Primitives of the language *)

(** [String(n)] for an integral number: its decimal digits. *)
Definition numberToString (n : Z) : string :=
  NilZero.string_of_int (Z.to_int n).

(** Truthiness of a [string | null]: [null] and the empty string are falsy. *)
Definition truthyAccount (a : option string) : option string :=
  match a with
  | Some s => if String.eqb s "" then None else Some s
  | None => None
  end.

(** [Array.prototype.find] with the predicate [c => c.id === candidateId]. *)
Fixpoint findCandidate (candidateId : string) (cs : list Candidate.t)
  : option Candidate.t :=
  match cs with
  | [] => None
  | c :: cs' =>
      if String.eqb (Candidate.id c) candidateId then Some c
      else findCandidate candidateId cs'
  end.

(** [candidate.voteCount++] on the object that [find] returned: the first
    element of the array with that id is updated in place. *)
Fixpoint incrementCandidate (candidateId : string) (cs : list Candidate.t)
  : list Candidate.t :=
  match cs with
  | [] => []
  | c :: cs' =>
      if String.eqb (Candidate.id c) candidateId
      then Candidate.mk (Candidate.id c) (Candidate.name c)
             (Candidate.description c) (Candidate.voteCount c + 1)
             (Candidate.imageUrl c) :: cs'
      else c :: incrementCandidate candidateId cs'
  end.

(** [Array.prototype.sort(compare)]: a stable sort (ECMAScript 2019); the
    element [a] is placed before [b] when [compare(a, b) <= 0] and [a] came
    first.  Insertion from the right realises exactly that order. *)
Section Sort.
Context {A : Type} (compare : A -> A -> Z).

Fixpoint insertSorted (a : A) (l : list A) : list A :=
  match l with
  | [] => [a]
  | b :: l' =>
      if compare a b <=? 0 then a :: b :: l' else b :: insertSorted a l'
  end.

Fixpoint sort (l : list A) : list A :=
  match l with
  | [] => []
  | a :: l' => insertSorted a (sort l')
  end.
End Sort.

(** ** The methods *)

(** [initializeSampleData], run by the constructor; it reads the clock once
    for [startTime] and once for [endTime]. *)
Definition sampleElection (now1 now2 : Z) : Election.t :=
  Election.mk "election-1" "2024 Student Council Elections"
    "Vote for your preferred student council president"
    (now1 - 3600000) (now2 + 86400000) true
    [ Candidate.mk "candidate-1" "Alice Johnson"
        "Experienced leader with vision for positive change" 0 None;
      Candidate.mk "candidate-2" "Bob Smith"
        "Fresh perspective and innovative ideas" 0 None;
      Candidate.mk "candidate-3" "Carol Davis"
        "Proven track record in student advocacy" 0 None ]
    0 None.

Definition initializeSampleData (now1 now2 : Z) : MockBlockchain :=
  let sample := sampleElection now1 now2 in
  mkChain (JsMap.set (Election.id sample) sample [])
          (<[Election.id sample := []]> ∅)
          ∅ None false.

(** [hasVoted(electionId, voterAddress)]:
    [voter?.hasVoted[electionId] || false]. *)
Definition hasVoted (electionId voterAddress : string) (s : MockBlockchain) : bool :=
  match voters s !! voterAddress with
  | Some voter => default false (Voter.hasVoted voter !! electionId)
  | None => false
  end.

(** [connectWallet]: [rndAddress] is [Math.random().toString(16).substr(2, 40)]
    and [rndAdmin] the second draw. *)
Definition connectWallet (rndAddress : string) (rndAdmin : Q) (s : MockBlockchain)
  : string * MockBlockchain :=
  let mockAddress := "0x" +:+ rndAddress in
  let voters' :=
    match voters s !! mockAddress with
    | Some _ => voters s
    | None => <[mockAddress := Voter.mk mockAddress true ∅]> (voters s)
    end in
  (mockAddress,
   mkChain (elections s) (votes s) voters' (Some mockAddress)
           (negb (Qle_bool rndAdmin (1 # 2)))).

Definition disconnectWallet (s : MockBlockchain) : MockBlockchain :=
  mkChain (elections s) (votes s) (voters s) None false.

Definition getCurrentAccount (s : MockBlockchain) : option string := currentAccount s.
Definition getIsAdmin (s : MockBlockchain) : bool := isAdmin s.

(** [createElection]: the clock is read for the id and then, left to right,
    in the two comparisons of [isActive] (the second only if the first
    holds). *)
Definition createElection (election : ElectionInput.t) (nowId nowLo nowHi : Z)
    (s : MockBlockchain) : Promise string * MockBlockchain :=
  if negb (isAdmin s) then (Reject OnlyAdminCreate, s)
  else
    let electionId := "election-" +:+ numberToString nowId in
    let newElection :=
      Election.mk electionId (ElectionInput.title election)
        (ElectionInput.description election)
        (ElectionInput.startTime election) (ElectionInput.endTime election)
        ((ElectionInput.startTime election <=? nowLo)
         && (nowHi <=? ElectionInput.endTime election))
        [] 0 (ElectionInput.hasVoted election) in
    (Resolve electionId,
     mkChain (JsMap.set electionId newElection (elections s))
             (<[electionId := []]> (votes s))
             (voters s) (currentAccount s) (isAdmin s)).

Definition addCandidate (electionId : string) (candidate : CandidateInput.t)
    (now : Z) (s : MockBlockchain) : Promise string * MockBlockchain :=
  if negb (isAdmin s) then (Reject OnlyAdminAdd, s)
  else
    match JsMap.get electionId (elections s) with
    | None => (Reject ElectionNotFound, s)
    | Some election =>
        let candidateId := "candidate-" +:+ numberToString now in
        let newCandidate :=
          Candidate.mk candidateId (CandidateInput.name candidate)
            (CandidateInput.description candidate) 0
            (CandidateInput.imageUrl candidate) in
        let election' :=
          Election.mk (Election.id election) (Election.title election)
            (Election.description election) (Election.startTime election)
            (Election.endTime election) (Election.isActive election)
            (Election.candidates election ++ [newCandidate])
            (Election.totalVotes election) (Election.hasVoted election) in
        (Resolve candidateId,
         mkChain (JsMap.set electionId election' (elections s))
                 (votes s) (voters s) (currentAccount s) (isAdmin s))
    end.

(** The copy [{...election, hasVoted: ...}] handed to the caller.  The copy
    shares its [candidates] array with the stored election; no method of the
    class writes through a copy, so the store is not affected. *)
Definition withHasVoted (s : MockBlockchain) (key : string) (election : Election.t)
  : Election.t :=
  Election.mk (Election.id election) (Election.title election)
    (Election.description election) (Election.startTime election)
    (Election.endTime election) (Election.isActive election)
    (Election.candidates election) (Election.totalVotes election)
    (Some match truthyAccount (currentAccount s) with
          | Some account => hasVoted key account s
          | None => false
          end).

Definition getAllElections (s : MockBlockchain) : list Election.t :=
  map (fun election => withHasVoted s (Election.id election) election)
      (JsMap.values (elections s)).

Definition getElection (electionId : string) (s : MockBlockchain)
  : option Election.t :=
  match JsMap.get electionId (elections s) with
  | Some election => Some (withHasVoted s electionId election)
  | None => None
  end.

(** [castVote]: [rndHash] is [Math.random().toString(16).substr(2, 64)] and
    [now] the clock read for the vote's time stamp. *)
Definition castVote (electionId candidateId : string) (rndHash : string) (now : Z)
    (s : MockBlockchain) : Promise string * MockBlockchain :=
  match truthyAccount (currentAccount s) with
  | None => (Reject WalletNotConnected, s)
  | Some account =>
      match JsMap.get electionId (elections s) with
      | None => (Reject ElectionNotFound, s)
      | Some election =>
          if negb (Election.isActive election) then (Reject ElectionNotActive, s)
          else if hasVoted electionId account s then (Reject AlreadyVoted, s)
          else
            match findCandidate candidateId (Election.candidates election) with
            | None => (Reject CandidateNotFound, s)
            | Some _ =>
                let txHash := "0x" +:+ rndHash in
                let vote := Vote.mk electionId candidateId account now txHash in
                let election' :=
                  Election.mk (Election.id election) (Election.title election)
                    (Election.description election) (Election.startTime election)
                    (Election.endTime election) (Election.isActive election)
                    (incrementCandidate candidateId (Election.candidates election))
                    (Election.totalVotes election + 1)
                    (Election.hasVoted election) in
                let electionVotes := default [] (votes s !! electionId) in
                let voters' :=
                  match voters s !! account with
                  | Some voter =>
                      <[account := Voter.mk (Voter.address voter)
                                     (Voter.isRegistered voter)
                                     (<[electionId := true]> (Voter.hasVoted voter))]>
                        (voters s)
                  | None => voters s
                  end in
                (Resolve txHash,
                 mkChain (JsMap.set electionId election' (elections s))
                         (<[electionId := electionVotes ++ [vote]]> (votes s))
                         voters' (currentAccount s) (isAdmin s))
            end
      end
  end.

(** [getElectionResults]: a sorted copy of the ballot; the comparison is
    [(a, b) => b.voteCount - a.voteCount]. *)
Definition byVoteCountDesc (a b : Candidate.t) : Z :=
  Candidate.voteCount b - Candidate.voteCount a.

Definition getElectionResults (electionId : string) (s : MockBlockchain)
  : Promise (list Candidate.t) :=
  match JsMap.get electionId (elections s) with
  | None => Reject ElectionNotFound
  | Some election => Resolve (sort byVoteCountDesc (Election.candidates election))
  end.

(** [getTransactionStatus]: [rnd] is the draw; an index outside the array
    reads [undefined] (it cannot happen for a draw in [0, 1)).  The product
    is taken exactly here and in double precision by the code, so for a draw
    whose double product rounds up to an integer the status read can differ;
    the store returned is the same either way. *)
Inductive TxStatus := pending | confirmed | failed.

Definition outcomes : list TxStatus :=
  [confirmed; confirmed; confirmed; pending; failed].

Definition getTransactionStatus (txHash : string) (rnd : Q) (s : MockBlockchain)
  : option TxStatus * MockBlockchain :=
  let i := Qfloor (rnd * inject_Z (Z.of_nat (length outcomes))) in
  ((if i <? 0 then None else outcomes !! Z.to_nat i), s).

(** ** Runs of the service

    A call of a method, with what its callback reads from the environment.
    ([getGasEstimate] reads a table of its own and no field of the store; it
    is left out.) *)
Inductive Call :=
| CallConnectWallet (rndAddress : string) (rndAdmin : Q)
| CallDisconnectWallet
| CallCreateElection (election : ElectionInput.t) (nowId nowLo nowHi : Z)
| CallAddCandidate (electionId : string) (candidate : CandidateInput.t) (now : Z)
| CallGetAllElections
| CallGetElection (electionId : string)
| CallCastVote (electionId candidateId : string) (rndHash : string) (now : Z)
| CallGetElectionResults (electionId : string)
| CallGetTransactionStatus (txHash : string) (rnd : Q)
| CallGetCurrentAccount
| CallGetIsAdmin.

(** The store after a call. *)
Definition step (c : Call) (s : MockBlockchain) : MockBlockchain :=
  match c with
  | CallConnectWallet rndAddress rndAdmin => snd (connectWallet rndAddress rndAdmin s)
  | CallDisconnectWallet => disconnectWallet s
  | CallCreateElection election nowId nowLo nowHi =>
      snd (createElection election nowId nowLo nowHi s)
  | CallAddCandidate electionId candidate now =>
      snd (addCandidate electionId candidate now s)
  | CallGetAllElections => s
  | CallGetElection _ => s
  | CallCastVote electionId candidateId rndHash now =>
      snd (castVote electionId candidateId rndHash now s)
  | CallGetElectionResults _ => s
  | CallGetTransactionStatus txHash rnd => snd (getTransactionStatus txHash rnd s)
  | CallGetCurrentAccount => s
  | CallGetIsAdmin => s
  end.

Definition run (cs : list Call) (s : MockBlockchain) : MockBlockchain :=
  fold_left (fun s c => step c s) cs s.

(** The stores the singleton [web3Service] can be in. *)
Inductive reachable : MockBlockchain -> Prop :=
| reachable_init now1 now2 : reachable (initializeSampleData now1 now2)
| reachable_step c s : reachable s -> reachable (step c s).

(** ** Specification vocabulary *)

(** The sum of [voteCount] over a ballot. *)
Definition sumVoteCounts (cs : list Candidate.t) : Z :=
  foldr (fun c acc => Candidate.voteCount c + acc) 0 cs.

Definition tallyConsistent (e : Election.t) : Prop :=
  Election.totalVotes e = sumVoteCounts (Election.candidates e).

Definition electionsConsistent (s : MockBlockchain) : Prop :=
  Forall (fun kv => tallyConsistent kv.2) (elections s).

(** The connected account, when there is one, has a voter record. *)
Definition accountRegistered (s : MockBlockchain) : Prop :=
  forall account, currentAccount s = Some account -> is_Some (voters s !! account).

(** Every vote logged under an election id carries that id and the flag of
    its voter for that id is set; no address occurs twice in one log. *)
Definition ledgerConsistent (s : MockBlockchain) : Prop :=
  forall key log, votes s !! key = Some log ->
    Forall (fun vote => Vote.electionId vote = key
                        /\ hasVoted key (Vote.voterAddress vote) s = true) log
    /\ NoDup (map Vote.voterAddress log).

(** A ballot in descending order of [voteCount]. *)
Definition descending (cs : list Candidate.t) : Prop :=
  StronglySorted (fun a b => Candidate.voteCount a >= Candidate.voteCount b) cs.

(** The candidates of a ballot holding exactly [n] votes, in ballot order. *)
Definition withVoteCount (n : Z) (cs : list Candidate.t) : list Candidate.t :=
  filter (fun c => Candidate.voteCount c = n) cs.





(** ** Example runs

    The service starts at clock reading [bootTime]; [adminStore] is the store
    after a wallet whose second draw made it admin has connected, and
    [votedStore] the store after that wallet has voted for the second
    sample candidate. *)
Definition bootTime : Z := 1700000000000.

Definition bootStore : MockBlockchain := initializeSampleData bootTime bootTime.

Definition adminStore : MockBlockchain :=
  step (CallConnectWallet "8f3a2c" (3 # 4)) bootStore.

Definition votedStore : MockBlockchain :=
  step (CallCastVote "election-1" "candidate-2" "5d07e1" (bootTime + 5000))
       adminStore.

(** The admin creates an election inside its window, adds a candidate and
    votes; a second [createElection] whose callback reads the same clock
    value then issues the same id for an election that starts an hour
    later. *)
Definition reissuedStore : MockBlockchain :=
  run [ CallCreateElection
          (ElectionInput.mk "Board" "Board election" bootTime
             (bootTime + 7200000) None)
          (bootTime + 60000) (bootTime + 60000) (bootTime + 60000);
        CallAddCandidate "election-1700000060000"
          (CandidateInput.mk "Dan" "First on the ballot" None) (bootTime + 60000);
        CallCastVote "election-1700000060000" "candidate-1700000060000" "a1"
          (bootTime + 60000);
        CallCreateElection
          (ElectionInput.mk "Board" "Board election, moved" (bootTime + 3600000)
             (bootTime + 7200000) None)
          (bootTime + 60000) (bootTime + 60000) (bootTime + 60000) ]
      adminStore.

(** ** Further vocabulary: registry, ledger and voter records *)

(** The votes counted for the id [cid] on a ballot (several candidates can
    carry one id) and the votes logged for it. *)
Definition votesFor (cid : string) (cs : list Candidate.t) : Z :=
  sumVoteCounts (filter (fun c => Candidate.id c = cid) cs).

Definition loggedFor (cid : string) (log : list Vote.t) : nat :=
  length (filter (fun vote => Vote.candidateId vote = cid) log).

(** The log of an election, [this.votes.get(key) || []]. *)
Definition logOf (key : string) (s : MockBlockchain) : list Vote.t :=
  default [] (votes s !! key).

(** Keys of the registry are unique, every election is stored under its own
    id, and the elections are exactly the keys that have a log. *)
Definition registryConsistent (s : MockBlockchain) : Prop :=
  NoDup (map fst (elections s))
  /\ (forall key election,
        JsMap.get key (elections s) = Some election -> Election.id election = key)
  /\ (forall key, is_Some (votes s !! key) <-> is_Some (JsMap.get key (elections s))).

(** Tallies and logs tell the same story, id by id and in total. *)
Definition countsConsistent (s : MockBlockchain) : Prop :=
  forall key election,
    JsMap.get key (elections s) = Some election ->
    (forall cid, votesFor cid (Election.candidates election)
                 = Z.of_nat (loggedFor cid (logOf key s)))
    /\ Forall (fun c => 0 <= Candidate.voteCount c) (Election.candidates election)
    /\ Election.totalVotes election = Z.of_nat (length (logOf key s)).

(** Voter records are stored under their own address, registered, and flag
    only elections of the registry; an account is connected under an address
    that starts with [0x]; admin rights need a connected account. *)
Definition votersConsistent (s : MockBlockchain) : Prop :=
  (forall address voter,
      voters s !! address = Some voter ->
      Voter.address voter = address
      /\ Voter.isRegistered voter = true
      /\ String.prefix "0x" address = true
      /\ forall key flag,
           Voter.hasVoted voter !! key = Some flag ->
           flag = true /\ is_Some (JsMap.get key (elections s)))
  /\ (forall account,
        currentAccount s = Some account -> String.prefix "0x" account = true)
  /\ (isAdmin s = true -> is_Some (currentAccount s)).

(** One candidate at two moments: the same entry, with no fewer votes. *)
Definition sameCandidate (c c' : Candidate.t) : Prop :=
  Candidate.id c' = Candidate.id c
  /\ Candidate.name c' = Candidate.name c
  /\ Candidate.description c' = Candidate.description c
  /\ Candidate.imageUrl c' = Candidate.imageUrl c
  /\ Candidate.voteCount c <= Candidate.voteCount c'.

(** One election at two moments: the same record, its ballot extended at
    the end only, with no fewer votes. *)
Definition electionGrows (e e' : Election.t) : Prop :=
  Election.id e' = Election.id e
  /\ Election.title e' = Election.title e
  /\ Election.description e' = Election.description e
  /\ Election.startTime e' = Election.startTime e
  /\ Election.endTime e' = Election.endTime e
  /\ Election.isActive e' = Election.isActive e
  /\ Election.totalVotes e <= Election.totalVotes e'
  /\ exists kept added,
       Election.candidates e' = kept ++ added
       /\ Forall2 sameCandidate (Election.candidates e) kept.

(** The call is a [createElection] that issues the id [key]. *)
Definition recreates (key : string) (c : Call) : Prop :=
  match c with
  | CallCreateElection _ nowId _ _ => "election-" +:+ numberToString nowId = key
  | _ => False
  end.

(** The call is a [connectWallet]. *)
Definition connects (c : Call) : Prop :=
  match c with
  | CallConnectWallet _ _ => True
  | _ => False
  end.

(** ** The panels that call the service

    The React components keep snapshots of what the service returned and
    compute from them what they show.  Their helper functions and the
    handlers of their buttons are embedded as functions of the snapshot, the
    clock and the store; component state that only drives the display
    (spinners, the selected tab) is left out. *)

(** A toast, [{ title, description, variant }]. *)
Record Toast := mkToast {
  toastTitle : string;
  toastDescription : string;
  toastVariant : option string
}.

Module VotingPanel.

(** [getTimeStatus] returns [{ status, text }]. *)
Record TimeStatus := mkTimeStatus {
  status : string;
  text : string
}.

Definition getTimeStatus (now : Z) (election : Election.t) : TimeStatus :=
  if now <? Election.startTime election then mkTimeStatus "upcoming" "Upcoming"
  else if Election.endTime election <? now then mkTimeStatus "ended" "Ended"
  else mkTimeStatus "active" "Active".

(** [formatTimeRemaining]: [now] is the clock read.  Past the first test
    [remaining] is a positive integer; for integers below 2^53 the floor of
    the floating-point quotient by 3600000, 60000 or 24 is the integer
    quotient, and [%] is the remainder. *)
Definition formatTimeRemaining (now endTime : Z) : string :=
  let remaining := endTime - now in
  if remaining <=? 0 then "Ended"
  else
    let hours := remaining / (1000 * 60 * 60) in
    let minutes := Z.rem remaining (1000 * 60 * 60) / (1000 * 60) in
    if 24 <? hours then
      let days := hours / 24 in
      numberToString days +:+ "d " +:+ numberToString (Z.rem hours 24)
        +:+ "h remaining"
    else
      numberToString hours +:+ "h " +:+ numberToString minutes +:+ "m remaining".

(** The condition under which the panel renders the "Cast Vote" button and
    lets a click select a candidate:
    [!selectedElection.hasVoted && getTimeStatus(selectedElection).status === 'active']. *)
Definition offersVote (now : Z) (selectedElection : Election.t) : bool :=
  negb (default false (Election.hasVoted selectedElection))
  && String.eqb (status (getTimeStatus now selectedElection)) "active".

(** Truthiness of [selectedCandidate: string | null]. *)
Definition truthyCandidate (selectedCandidate : option string) : option string :=
  match selectedCandidate with
  | Some c => if String.eqb c "" then None else Some c
  | None => None
  end.

(** The handler [castVote] of the button.  Without a selected election or
    candidate it returns at once; otherwise it calls the service with the id
    of the snapshot and reports: the value [setVotingStatus] is left at and
    the toast. *)
Definition castVote (selectedElection : option Election.t)
    (selectedCandidate : option string) (rndHash : string) (now : Z)
    (s : MockBlockchain) : option (string * Toast) * MockBlockchain :=
  match selectedElection, truthyCandidate selectedCandidate with
  | Some election, Some candidateId =>
      match castVote (Election.id election) candidateId rndHash now s with
      | (Resolve txHash, s') =>
          (Some ("confirmed",
                 mkToast "Vote Cast Successfully!"
                   ("Your vote has been recorded on the blockchain. TX: "
                    +:+ String.substring 0 10 txHash +:+ "...")
                   None),
           s')
      | (Reject error, s') =>
          (Some ("failed",
                 mkToast "Voting Failed"
                   (if String.eqb (message error) "" then "Failed to cast vote"
                    else message error)
                   (Some "destructive")),
           s')
      end
  | _, _ => (None, s)
  end.

End VotingPanel.

Module ResultsDashboard.

(** [getElectionStatus] returns [{ status, text, color }]. *)
Record ElectionStatus := mkElectionStatus {
  status : string;
  text : string;
  color : string
}.

Definition getElectionStatus (now : Z) (election : Election.t) : ElectionStatus :=
  if now <? Election.startTime election
  then mkElectionStatus "upcoming" "Upcoming" "secondary"
  else if Election.endTime election <? now
  then mkElectionStatus "ended" "Ended" "destructive"
  else mkElectionStatus "active" "Live Results" "default".

(** The election [loadElections] selects:
    [electionList.find(e => e.totalVotes > 0) || electionList[0]]. *)
Definition autoSelect (electionList : list Election.t) : option Election.t :=
  match List.find (fun e => 0 <? Election.totalVotes e) electionList with
  | Some e => Some e
  | None => head electionList
  end.

(** The trophy: [index === 0 && selectedElection.totalVotes > 0]. *)
Definition isWinner (index : nat) (selectedElection : Election.t) : bool :=
  Nat.eqb index 0 && (0 <? Election.totalVotes selectedElection).

End ResultsDashboard.

Module AdminPanel.

(** The form state [newElection] with its two date fields already read by
    [new Date(...).getTime()] (a date that does not parse is outside the
    model). *)
Record NewElection := mkNewElection {
  title : string;
  description : string;
  startTime : Z;
  endTime : Z
}.

(** The handler [createElection] of the form: the toast it shows and the
    store after.  The inverted range is turned down before the service is
    called. *)
Definition createElection (newElection : NewElection) (nowId nowLo nowHi : Z)
    (s : MockBlockchain) : Toast * MockBlockchain :=
  if endTime newElection <=? startTime newElection then
    (mkToast "Invalid Time Range" "End time must be after start time"
       (Some "destructive"),
     s)
  else
    match createElection
            (ElectionInput.mk (title newElection) (description newElection)
               (startTime newElection) (endTime newElection) None)
            nowId nowLo nowHi s with
    | (Resolve _, s') =>
        (mkToast "Election Created"
           (title newElection +:+ " has been created successfully") None,
         s')
    | (Reject error, s') =>
        (mkToast "Error"
           (if String.eqb (message error) "" then "Failed to create election"
            else message error)
           (Some "destructive"),
         s')
    end.

End AdminPanel.

(** Every key of the registry starts with [election-] and every candidate
    id on a ballot with [candidate-]. *)
Definition idsWellFormed (s : MockBlockchain) : Prop :=
  Forall (fun kv : string * Election.t =>
            String.prefix "election-" kv.1 = true
            /\ Forall (fun c => String.prefix "candidate-" (Candidate.id c) = true)
                      (Election.candidates kv.2))
         (elections s).

(** ** The contract [VotingSystem]

    The file also carries, as the text [VOTING_CONTRACT_SOLIDITY], the
    Solidity contract that the mock stands in for.  It is embedded here
    function by function.  A [uint256] and an [address] are numbers ([N];
    arguments are taken to be in range), [++] is checked as Solidity 0.8
    checks it, a [mapping] is a finite map read with the zero value as
    default, and a call either completes -- with its return value, the
    events it emitted and the storage after -- or is undone.  Gas and the
    memory limit are not modelled. *)
Module VotingSystem.

Definition MAX_UINT256 : N := 2 ^ 256 - 1.

Inductive Outcome (A : Type) :=
| Done (a : A)
| Revert (reason : string)
| Panic.
Arguments Done {A} a.
Arguments Revert {A} reason.
Arguments Panic {A}.

Definition bind {A B} (m : Outcome A) (k : A -> Outcome B) : Outcome B :=
  match m with
  | Done a => k a
  | Revert reason => Revert reason
  | Panic => Panic
  end.

Notation "'let*' x := m 'in' k" := (bind m (fun x => k))
  (at level 10, x name, m at level 200, k at level 200).

(** [require(cond, reason)]. *)
Definition require (cond : bool) (reason : string) : Outcome unit :=
  if cond then Done tt else Revert reason.

(** [x++] on a [uint256]: the new value, or a panic on overflow. *)
Definition increment (x : N) : Outcome N :=
  if (x =? MAX_UINT256)%N then Panic else Done (x + 1)%N.

Record Candidate := mkCandidate {
  c_id : N;
  c_name : string;
  c_description : string;
  c_voteCount : N;
  c_exists : bool
}.

Record Election := mkElection {
  e_id : N;
  e_title : string;
  e_description : string;
  e_startTime : N;
  e_endTime : N;
  e_isActive : bool;
  e_candidateCounter : N;
  e_totalVotes : N;
  e_candidates : gmap N Candidate;
  e_hasVoted : gmap N bool
}.

(** The state variables. *)
Record Storage := mkStorage {
  admin : N;
  electionCounter : N;
  elections : gmap N Election;
  registeredVoters : gmap N bool
}.

Inductive Event :=
| ElectionCreated (electionId : N) (title : string)
| CandidateAdded (electionId candidateId : N) (name : string)
| VoteCast (electionId candidateId : N) (voter : N)
| VoterRegistered (voter : N).

(** [msg.sender] and [block.timestamp]. *)
Record Context := mkContext {
  sender : N;
  timestamp : N
}.

(** Reading a mapping: a key never written reads as the zero value. *)
Definition zeroCandidate : Candidate := mkCandidate 0 "" "" 0 false.

Definition zeroElection : Election := mkElection 0 "" "" 0 0 false 0 0 ∅ ∅.

Definition electionAt (st : Storage) (electionId : N) : Election :=
  default zeroElection (elections st !! electionId).

Definition candidateAt (election : Election) (candidateId : N) : Candidate :=
  default zeroCandidate (e_candidates election !! candidateId).

Definition votedIn (election : Election) (voter : N) : bool :=
  default false (e_hasVoted election !! voter).

Definition isRegistered (st : Storage) (voter : N) : bool :=
  default false (registeredVoters st !! voter).

(** The modifiers. *)
Definition onlyAdmin (ctx : Context) (st : Storage) : Outcome unit :=
  require (sender ctx =? admin st)%N "Only admin can perform this action".

Definition onlyRegisteredVoter (ctx : Context) (st : Storage) : Outcome unit :=
  require (isRegistered st (sender ctx)) "Voter not registered".

Definition electionExists (st : Storage) (electionId : N) : Outcome unit :=
  require ((electionId <=? electionCounter st)%N && (0 <? electionId)%N)
    "Election does not exist".

Definition electionActive (ctx : Context) (st : Storage) (electionId : N)
  : Outcome unit :=
  let election := electionAt st electionId in
  require ((e_startTime election <=? timestamp ctx)%N
           && (timestamp ctx <=? e_endTime election)%N
           && e_isActive election)
    "Election is not active".

(** The constructor. *)
Definition constructor (ctx : Context) : Storage :=
  mkStorage (sender ctx) 0 ∅ ∅.

Definition registerVoter (ctx : Context) (st : Storage)
  : Outcome (unit * list Event * Storage) :=
  let* _ := require (negb (isRegistered st (sender ctx))) "Voter already registered" in
  Done (tt, [VoterRegistered (sender ctx)],
        mkStorage (admin st) (electionCounter st) (elections st)
          (<[sender ctx := true]> (registeredVoters st))).

(** [createElection] writes the fields of [elections[electionCounter]]; the
    two mappings of that slot are not written. *)
Definition createElection (title description : string) (startTime endTime : N)
    (ctx : Context) (st : Storage) : Outcome (N * list Event * Storage) :=
  let* _ := onlyAdmin ctx st in
  let* _ := require (startTime <? endTime)%N "Invalid time range" in
  let* _ := require (timestamp ctx <? endTime)%N "End time must be in future" in
  let* counter := increment (electionCounter st) in
  let slot := electionAt st counter in
  let newElection :=
    mkElection counter title description startTime endTime true 0 0
      (e_candidates slot) (e_hasVoted slot) in
  Done (counter, [ElectionCreated counter title],
        mkStorage (admin st) counter (<[counter := newElection]> (elections st))
          (registeredVoters st)).

Definition addCandidate (electionId : N) (name description : string)
    (ctx : Context) (st : Storage) : Outcome (N * list Event * Storage) :=
  let* _ := onlyAdmin ctx st in
  let* _ := electionExists st electionId in
  let election := electionAt st electionId in
  let* _ := require (timestamp ctx <? e_startTime election)%N
    "Cannot add candidates after election starts" in
  let* candidateId := increment (e_candidateCounter election) in
  let election' :=
    mkElection (e_id election) (e_title election) (e_description election)
      (e_startTime election) (e_endTime election) (e_isActive election)
      candidateId (e_totalVotes election)
      (<[candidateId := mkCandidate candidateId name description 0 true]>
         (e_candidates election))
      (e_hasVoted election) in
  Done (candidateId, [CandidateAdded electionId candidateId name],
        mkStorage (admin st) (electionCounter st)
          (<[electionId := election']> (elections st)) (registeredVoters st)).

Definition castVote (electionId candidateId : N) (ctx : Context) (st : Storage)
  : Outcome (unit * list Event * Storage) :=
  let* _ := onlyRegisteredVoter ctx st in
  let* _ := electionExists st electionId in
  let* _ := electionActive ctx st electionId in
  let election := electionAt st electionId in
  let* _ := require (negb (votedIn election (sender ctx))) "Voter has already voted" in
  let* _ := require ((candidateId <=? e_candidateCounter election)%N && (0 <? candidateId)%N)
    "Candidate does not exist" in
  let* _ := require (c_exists (candidateAt election candidateId)) "Candidate does not exist" in
  let candidate := candidateAt election candidateId in
  let* voteCount := increment (c_voteCount candidate) in
  let* totalVotes := increment (e_totalVotes election) in
  let election' :=
    mkElection (e_id election) (e_title election) (e_description election)
      (e_startTime election) (e_endTime election) (e_isActive election)
      (e_candidateCounter election) totalVotes
      (<[candidateId := mkCandidate (c_id candidate) (c_name candidate)
                          (c_description candidate) voteCount
                          (c_exists candidate)]>
         (e_candidates election))
      (<[sender ctx := true]> (e_hasVoted election)) in
  Done (tt, [VoteCast electionId candidateId (sender ctx)],
        mkStorage (admin st) (electionCounter st)
          (<[electionId := election']> (elections st)) (registeredVoters st)).

(** The candidate ids [1 .. count] that the loop of [getElectionResults]
    visits. *)
Definition candidateIds (count : N) : list N :=
  map N.of_nat (seq 1 (N.to_nat count)).

(** [getElectionResults]: four arrays of length [candidateCounter], entry
    [i - 1] filled from candidate [i] when it exists and left at the zero
    value otherwise.  The loop counter overflows after the last round when
    [candidateCounter] is the largest [uint256]. *)
Definition getElectionResults (electionId : N) (st : Storage)
  : Outcome (list N * list string * list string * list N) :=
  let* _ := electionExists st electionId in
  let election := electionAt st electionId in
  let candidateCount := e_candidateCounter election in
  let entry := fun i =>
    if c_exists (candidateAt election i) then candidateAt election i
    else zeroCandidate in
  if (candidateCount =? MAX_UINT256)%N then Panic
  else
    Done (map (fun i => c_id (entry i)) (candidateIds candidateCount),
          map (fun i => c_name (entry i)) (candidateIds candidateCount),
          map (fun i => c_description (entry i)) (candidateIds candidateCount),
          map (fun i => c_voteCount (entry i)) (candidateIds candidateCount)).

Definition hasVotedInElection (electionId voter : N) (st : Storage) : Outcome bool :=
  let* _ := electionExists st electionId in
  Done (votedIn (electionAt st electionId) voter).

Definition getElectionDetails (electionId : N) (st : Storage)
  : Outcome (N * string * string * N * N * bool * N) :=
  let* _ := electionExists st electionId in
  let election := electionAt st electionId in
  Done (e_id election, e_title election, e_description election,
        e_startTime election, e_endTime election, e_isActive election,
        e_totalVotes election).

Definition stopElection (electionId : N) (ctx : Context) (st : Storage)
  : Outcome (unit * list Event * Storage) :=
  let* _ := onlyAdmin ctx st in
  let* _ := electionExists st electionId in
  let election := electionAt st electionId in
  Done (tt, [],
        mkStorage (admin st) (electionCounter st)
          (<[electionId :=
               mkElection (e_id election) (e_title election)
                 (e_description election) (e_startTime election)
                 (e_endTime election) false (e_candidateCounter election)
                 (e_totalVotes election) (e_candidates election)
                 (e_hasVoted election)]> (elections st))
          (registeredVoters st)).

Definition getTotalElections (st : Storage) : N := electionCounter st.

(** A transaction, and the storage after it: a call that is undone leaves
    the storage as it was. *)
Inductive Tx :=
| TxRegisterVoter
| TxCreateElection (title description : string) (startTime endTime : N)
| TxAddCandidate (electionId : N) (name description : string)
| TxCastVote (electionId candidateId : N)
| TxStopElection (electionId : N).

Definition after {A} (o : Outcome (A * list Event * Storage)) (st : Storage)
  : Storage :=
  match o with
  | Done (_, _, st') => st'
  | _ => st
  end.

Definition exec (ctx : Context) (tx : Tx) (st : Storage) : Storage :=
  match tx with
  | TxRegisterVoter => after (registerVoter ctx st) st
  | TxCreateElection title description startTime endTime =>
      after (createElection title description startTime endTime ctx st) st
  | TxAddCandidate electionId name description =>
      after (addCandidate electionId name description ctx st) st
  | TxCastVote electionId candidateId =>
      after (castVote electionId candidateId ctx st) st
  | TxStopElection electionId => after (stopElection electionId ctx st) st
  end.

Definition execAll (txs : list (Context * Tx)) (st : Storage) : Storage :=
  fold_left (fun st ctx_tx => exec ctx_tx.1 ctx_tx.2 st) txs st.

(** The storages the deployed contract can be in. *)
Inductive reachable : Storage -> Prop :=
| reachable_deploy ctx : reachable (constructor ctx)
| reachable_exec ctx tx st : reachable st -> reachable (exec ctx tx st).

(** The sum of the tallies of the candidates [1 .. candidateCounter]. *)
Definition tallySum (election : Election) : N :=
  foldr N.add 0%N
    (map (fun i => c_voteCount (candidateAt election i))
         (candidateIds (e_candidateCounter election))).

(** An example: the account 7 deploys the contract at time 100, creates an
    election open from 200 to 300 and gives it two candidates; the account 9
    registers; in [votedStorage] it has voted for the second candidate. *)
Definition exampleStorage : Storage :=
  execAll [ (mkContext 7 100, TxCreateElection "Council" "Council vote" 200 300);
            (mkContext 7 150, TxAddCandidate 1 "Ann" "First");
            (mkContext 7 160, TxAddCandidate 1 "Ben" "Second");
            (mkContext 9 170, TxRegisterVoter) ]
          (constructor (mkContext 7 100)).

Definition votedStorage : Storage :=
  exec (mkContext 9 250) (TxCastVote 1 2) exampleStorage.

(** What holds of an election stored under the id [i]: it carries its id,
    its window is not inverted, its candidates are exactly those numbered
    [1 .. candidateCounter], each under its own id, the flags stored are all
    [true], and [totalVotes] is both the sum of the tallies and the number
    of flagged voters. *)
Definition wfElection (i : N) (e : Election) : Prop :=
  e_id e = i
  /\ (e_startTime e < e_endTime e)%N
  /\ (forall j c, e_candidates e !! j = Some c ->
        (1 <= j <= e_candidateCounter e)%N /\ c_id c = j /\ c_exists c = true)
  /\ (forall j, (1 <= j <= e_candidateCounter e)%N -> is_Some (e_candidates e !! j))
  /\ (forall a b, e_hasVoted e !! a = Some b -> b = true)
  /\ e_totalVotes e = tallySum e
  /\ e_totalVotes e = N.of_nat (size (e_hasVoted e)).

(** What holds of the storage: the elections are exactly those numbered
    [1 .. electionCounter], each well formed, and the registrations stored
    are all [true]. *)
Definition wfStorage (st : Storage) : Prop :=
  (forall i e, elections st !! i = Some e ->
      (1 <= i <= electionCounter st)%N /\ wfElection i e)
  /\ (forall i, (1 <= i <= electionCounter st)%N -> is_Some (elections st !! i))
  /\ (forall a b, registeredVoters st !! a = Some b -> b = true).

End VotingSystem.

(** ** Lemmas on the primitives *)

Module JsMapFacts.
Section Facts.
Context {V : Type}.
Implicit Types (m : list (string * V)) (k : string) (v : V).

Lemma get_set_eq k v m : JsMap.get k (JsMap.set k v m) = Some v.
Proof.
  induction m as [|[k' v'] m IH]; simpl.
  - by rewrite String.eqb_refl.
  - destruct (String.eqb k' k) eqn:E; simpl.
    + by rewrite String.eqb_refl.
    + by rewrite E.
Qed.

Lemma get_set_ne k k' v m :
  k ≠ k' -> JsMap.get k' (JsMap.set k v m) = JsMap.get k' m.
Proof.
  intros Hne. induction m as [|[k0 v0] m IH]; simpl.
  - by apply String.eqb_neq in Hne as ->.
  - destruct (String.eqb k0 k) eqn:E; simpl.
    + apply String.eqb_eq in E as ->.
      by apply String.eqb_neq in Hne as ->.
    + by rewrite IH.
Qed.

Lemma elem_of_set k v m x :
  x ∈ JsMap.set k v m -> x = (k, v) ∨ x ∈ m.
Proof.
  induction m as [|[k0 v0] m IH]; simpl.
  - intros ->%list_elem_of_singleton. by left.
  - destruct (String.eqb k0 k).
    + intros [->|H]%elem_of_cons; [by left | right; by right].
    + intros [->|H]%elem_of_cons; [right; by left |].
      destruct (IH H) as [->|?]; [by left | right; by right].
Qed.

Lemma get_elem_of k v m : JsMap.get k m = Some v -> (k, v) ∈ m.
Proof.
  induction m as [|[k0 v0] m IH]; simpl; [done |].
  destruct (String.eqb k0 k) eqn:E.
  - apply String.eqb_eq in E as ->. intros [= ->]. by left.
  - intros H. right. by apply IH.
Qed.

Lemma Forall_set (P : string * V -> Prop) k v m :
  Forall P m -> P (k, v) -> Forall P (JsMap.set k v m).
Proof.
  intros Hm Hkv. apply Forall_forall. intros x Hx.
  destruct (elem_of_set _ _ _ _ Hx) as [->|Hin]; [done |].
  by eapply Forall_forall in Hm.
Qed.
End Facts.
End JsMapFacts.

Lemma sumVoteCounts_app cs cs' :
  sumVoteCounts (cs ++ cs') = sumVoteCounts cs + sumVoteCounts cs'.
Proof.
  induction cs as [|c cs IH]; simpl; [done |].
  unfold sumVoteCounts in *. simpl. rewrite IH. lia.
Qed.

Lemma sumVoteCounts_increment cid cs c :
  findCandidate cid cs = Some c ->
  sumVoteCounts (incrementCandidate cid cs) = sumVoteCounts cs + 1.
Proof.
  induction cs as [|c0 cs IH]; simpl; [done |].
  destruct (String.eqb (Candidate.id c0) cid).
  - intros _. unfold sumVoteCounts. simpl. lia.
  - intros H. unfold sumVoteCounts in *. simpl. rewrite (IH H). lia.
Qed.

(** The two ways [castVote] can settle: rejected with the store untouched,
    or resolved after every check has passed. *)
Lemma castVote_cases electionId candidateId rndHash now s :
  (exists err, castVote electionId candidateId rndHash now s = (Reject err, s))
  \/ (exists account election c,
        truthyAccount (currentAccount s) = Some account
        /\ JsMap.get electionId (elections s) = Some election
        /\ Election.isActive election = true
        /\ hasVoted electionId account s = false
        /\ findCandidate candidateId (Election.candidates election) = Some c
        /\ castVote electionId candidateId rndHash now s =
           (Resolve ("0x" +:+ rndHash),
            mkChain
              (JsMap.set electionId
                 (Election.mk (Election.id election) (Election.title election)
                    (Election.description election) (Election.startTime election)
                    (Election.endTime election) (Election.isActive election)
                    (incrementCandidate candidateId (Election.candidates election))
                    (Election.totalVotes election + 1)
                    (Election.hasVoted election))
                 (elections s))
              (<[electionId :=
                   default [] (votes s !! electionId)
                   ++ [Vote.mk electionId candidateId account now
                         ("0x" +:+ rndHash)]]> (votes s))
              (match voters s !! account with
               | Some voter =>
                   <[account := Voter.mk (Voter.address voter)
                                  (Voter.isRegistered voter)
                                  (<[electionId := true]> (Voter.hasVoted voter))]>
                     (voters s)
               | None => voters s
               end)
              (currentAccount s) (isAdmin s))).
Proof.
  unfold castVote.
  destruct (truthyAccount (currentAccount s)) as [account|]; [|left; eauto].
  destruct (JsMap.get electionId (elections s)) as [election|]; [|left; eauto].
  destruct (Election.isActive election) eqn:Hact; simpl; [|left; eauto].
  destruct (hasVoted electionId account s) eqn:Hv; [left; eauto |].
  destruct (findCandidate candidateId (Election.candidates election)) as [c|] eqn:Hc;
    [|left; eauto].
  right. exists account, election, c. by rewrite Hact.
Qed.

Lemma step_electionsConsistent c s :
  electionsConsistent s -> electionsConsistent (step c s).
Proof.
  unfold electionsConsistent. intros Hs.
  destruct c as [a r| |e t1 t2 t3|eid cand t| |eid|eid cid h t|eid|tx r| |]; simpl; try done.
  - unfold createElection. destruct (isAdmin s); simpl; [|done].
    by apply JsMapFacts.Forall_set.
  - unfold addCandidate. destruct (isAdmin s); simpl; [|done].
    destruct (JsMap.get eid (elections s)) as [e|] eqn:He; simpl; [|done].
    apply JsMapFacts.Forall_set; [done |].
    apply JsMapFacts.get_elem_of in He.
    eapply Forall_forall in Hs; [|exact He].
    unfold tallyConsistent in *. simpl in *.
    rewrite sumVoteCounts_app, Hs. unfold sumVoteCounts. simpl. lia.
  - destruct (castVote_cases eid cid h t s) as [[err ->]|(a & e & c & _ & He & _ & _ & Hc & ->)];
      simpl; [done |].
    apply JsMapFacts.Forall_set; [done |].
    apply JsMapFacts.get_elem_of in He.
    eapply Forall_forall in Hs; [|exact He].
    unfold tallyConsistent in *. simpl in *.
    rewrite (sumVoteCounts_increment _ _ _ Hc), Hs. done.
Qed.

Lemma reachable_electionsConsistent s : reachable s -> electionsConsistent s.
Proof.
  induction 1 as [now1 now2|c s _ IH].
  - unfold electionsConsistent. simpl. by repeat constructor.
  - by apply step_electionsConsistent.
Qed.

(** ** The voter ledger *)

Lemma truthyAccount_Some a account :
  truthyAccount a = Some account -> a = Some account /\ account <> "".
Proof.
  destruct a as [s|]; simpl; [|done].
  destruct (String.eqb s "") eqn:E; [done |].
  intros [= ->]. split; [done |]. by apply String.eqb_neq.
Qed.

Lemma hasVoted_voters key address s s' :
  voters s = voters s' -> hasVoted key address s = hasVoted key address s'.
Proof. unfold hasVoted. by intros ->. Qed.

Lemma hasVoted_true key address s :
  hasVoted key address s = true <->
  exists voter, voters s !! address = Some voter
                /\ Voter.hasVoted voter !! key = Some true.
Proof.
  unfold hasVoted. split.
  - destruct (voters s !! address) as [voter|]; [|done].
    destruct (Voter.hasVoted voter !! key) as [[]|] eqn:E; simpl; [|done..].
    intros _. by exists voter.
  - intros (voter & -> & ->). done.
Qed.

Lemma connectWallet_hasVoted rndAddress rndAdmin key address s :
  hasVoted key address (snd (connectWallet rndAddress rndAdmin s))
  = hasVoted key address s.
Proof.
  unfold connectWallet, hasVoted. simpl.
  destruct (voters s !! ("0x" +:+ rndAddress)) as [v|] eqn:E; [done |].
  destruct (decide ("0x" +:+ rndAddress = address)) as [<-|Hne].
  - by rewrite lookup_insert_eq, E.
  - by rewrite lookup_insert_ne.
Qed.

(** What an accepted vote does to a flag: it sets the voter's own flag for
    the election and leaves every set flag set. *)
Lemma voted_hasVoted_mono (vs : gmap string Voter.t) account electionId key address :
  let vs' :=
    match vs !! account with
    | Some voter =>
        <[account := Voter.mk (Voter.address voter) (Voter.isRegistered voter)
                       (<[electionId := true]> (Voter.hasVoted voter))]> vs
    | None => vs
    end in
  forall s s', voters s = vs -> voters s' = vs' ->
    hasVoted key address s = true -> hasVoted key address s' = true.
Proof.
  intros vs' s s' Hs Hs'. unfold hasVoted. rewrite Hs, Hs'. unfold vs'.
  destruct (vs !! account) as [voter|] eqn:E; [|done].
  destruct (decide (account = address)) as [<-|Hne].
  - rewrite lookup_insert_eq, E. simpl.
    destruct (decide (electionId = key)) as [<-|Hk].
    + by rewrite lookup_insert_eq.
    + by rewrite lookup_insert_ne.
  - by rewrite lookup_insert_ne.
Qed.

Lemma voted_hasVoted_own (vs : gmap string Voter.t) account electionId :
  is_Some (vs !! account) ->
  forall s', voters s' =
    match vs !! account with
    | Some voter =>
        <[account := Voter.mk (Voter.address voter) (Voter.isRegistered voter)
                       (<[electionId := true]> (Voter.hasVoted voter))]> vs
    | None => vs
    end ->
    hasVoted electionId account s' = true.
Proof.
  intros [voter E] s' Hs'. unfold hasVoted. rewrite Hs', E.
  rewrite lookup_insert_eq. simpl. by rewrite lookup_insert_eq.
Qed.

Lemma step_accountRegistered c s :
  accountRegistered s -> accountRegistered (step c s).
Proof.
  unfold accountRegistered. intros Hs.
  destruct c as [a r| |e t1 t2 t3|eid cand t| |eid|eid cid h t|eid|tx r| |]; simpl; try done.
  - intros account [= <-].
    destruct (voters s !! ("0x" +:+ a)) as [v|] eqn:E.
    + by rewrite E.
    + rewrite lookup_insert_eq. by eexists.
  - unfold createElection. by destruct (isAdmin s).
  - unfold addCandidate. destruct (isAdmin s); simpl; [|done].
    by destruct (JsMap.get eid (elections s)).
  - destruct (castVote_cases eid cid h t s)
      as [[err ->]|(a & e & c & Ha & _ & _ & _ & _ & ->)]; simpl; [done |].
    intros account Hacc. specialize (Hs account Hacc).
    destruct (voters s !! a) as [voter|] eqn:E; [|done].
    destruct (decide (a = account)) as [<-|Hne].
    + rewrite lookup_insert_eq. by eexists.
    + by rewrite lookup_insert_ne.
Qed.

Lemma step_ledgerConsistent c s :
  accountRegistered s -> ledgerConsistent s -> ledgerConsistent (step c s).
Proof.
  unfold ledgerConsistent. intros Hreg Hs.
  destruct c as [a r| |e t1 t2 t3|eid cand t| |eid|eid cid h t|eid|tx r| |]; simpl; try done.
  - intros key log Hlog. destruct (Hs key log Hlog) as [Hall Hnd].
    split; [|done]. eapply Forall_impl; [exact Hall |].
    intros vote [? ?]. split; [done |].
    etrans; [exact (connectWallet_hasVoted a r key (Vote.voterAddress vote) s) | done].
  - unfold createElection. destruct (isAdmin s); simpl; [|done].
    intros key log. destruct (decide ("election-" +:+ numberToString t1 = key)) as [<-|Hne].
    + rewrite lookup_insert_eq. intros [= <-]. split; constructor.
    + rewrite lookup_insert_ne by done. apply Hs.
  - unfold addCandidate. destruct (isAdmin s); simpl; [|done].
    by destruct (JsMap.get eid (elections s)).
  - destruct (castVote_cases eid cid h t s)
      as [[err ->]|(a & e & c & Ha & _ & _ & Hv & _ & ->)]; simpl; [done |].
    apply truthyAccount_Some in Ha as [Ha _].
    set (s' := mkChain _ _ _ _ _).
    assert (Hmono : forall key address,
               hasVoted key address s = true -> hasVoted key address s' = true).
    { intros key address. by eapply voted_hasVoted_mono. }
    intros key log. destruct (decide (eid = key)) as [<-|Hne].
    + rewrite lookup_insert_eq. intros [= <-].
      assert (Hold : Forall (fun vote => Vote.electionId vote = eid
                       /\ hasVoted eid (Vote.voterAddress vote) s = true)
                       (default [] (votes s !! eid))
                     /\ NoDup (map Vote.voterAddress (default [] (votes s !! eid)))).
      { destruct (votes s !! eid) as [old|] eqn:E; simpl.
        - by apply Hs.
        - split; constructor. }
      destruct Hold as [Hall Hnd]. split.
      * apply Forall_app. split.
        -- eapply Forall_impl; [exact Hall |]. intros vote [? ?]. auto.
        -- constructor; [|constructor]. simpl. split; [done |].
           eapply voted_hasVoted_own; [by apply Hreg | done].
      * rewrite map_app. simpl. apply NoDup_app. split; [done |].
        split; [|apply NoDup_singleton].
        intros address Hin ->%list_elem_of_singleton.
        apply list_elem_of_fmap in Hin as (vote & Haddr & Hin).
        eapply Forall_forall in Hall; [|exact Hin].
        destruct Hall as [_ Hflag]. rewrite <- Haddr in Hflag. congruence.
    + rewrite lookup_insert_ne by done. intros Hlog.
      destruct (Hs key log Hlog) as [Hall Hnd]. split; [|done].
      eapply Forall_impl; [exact Hall |]. intros vote [? ?]. auto.
Qed.

Lemma reachable_ledger s :
  reachable s -> accountRegistered s /\ ledgerConsistent s.
Proof.
  induction 1 as [now1 now2|c s _ [IHreg IHled]].
  - split.
    + intros account. simpl. done.
    + intros key log. simpl.
      destruct (decide ("election-1" = key)) as [<-|Hne].
      * rewrite lookup_insert_eq. intros [= <-]. split; constructor.
      * rewrite lookup_insert_ne by done. by rewrite lookup_empty.
  - split; [by apply step_accountRegistered | by apply step_ledgerConsistent].
Qed.

(** ** The results aggregator: insertion sort by descending [voteCount] *)

Lemma insertSorted_perm {A} (compare : A -> A -> Z) a l :
  insertSorted compare a l ≡ₚ a :: l.
Proof.
  induction l as [|b l IH]; simpl; [done |].
  destruct (compare a b <=? 0); [done |].
  rewrite IH. apply Permutation_swap.
Qed.

Lemma sort_perm {A} (compare : A -> A -> Z) l : sort compare l ≡ₚ l.
Proof.
  induction l as [|a l IH]; simpl; [done |].
  by rewrite insertSorted_perm, IH.
Qed.

Lemma insertSorted_descending a l :
  descending l -> descending (insertSorted byVoteCountDesc a l).
Proof.
  unfold descending. induction 1 as [|b l Hl IH Hb]; simpl.
  - repeat constructor.
  - unfold byVoteCountDesc at 1.
    destruct (Z.leb_spec (Candidate.voteCount b - Candidate.voteCount a) 0) as [Hle|Hgt].
    + constructor; [by constructor |].
      constructor; [lia |].
      eapply Forall_impl; [exact Hb |]. simpl. intros c Hc. lia.
    + constructor; [done |].
      rewrite insertSorted_perm. constructor; [lia | done].
Qed.

Lemma sort_descending l : descending (sort byVoteCountDesc l).
Proof.
  induction l as [|a l IH]; simpl.
  - constructor.
  - by apply insertSorted_descending.
Qed.

Lemma insertSorted_withVoteCount n a l :
  withVoteCount n (insertSorted byVoteCountDesc a l) = withVoteCount n (a :: l).
Proof.
  unfold withVoteCount. induction l as [|b l IH]; simpl; [done |].
  unfold byVoteCountDesc at 1.
  destruct (Z.leb_spec (Candidate.voteCount b - Candidate.voteCount a) 0) as [Hle|Hgt];
    [done |].
  rewrite !filter_cons in *. rewrite IH.
  repeat case_decide; try done; lia.
Qed.

Lemma sort_withVoteCount n l :
  withVoteCount n (sort byVoteCountDesc l) = withVoteCount n l.
Proof.
  induction l as [|a l IH]; simpl; [done |].
  rewrite insertSorted_withVoteCount. unfold withVoteCount in *.
  by rewrite !filter_cons, IH.
Qed.

Lemma sort_descending_id l : descending l -> sort byVoteCountDesc l = l.
Proof.
  unfold descending. induction 1 as [|a l Hl IH Ha]; simpl; [done |].
  rewrite IH. destruct Ha as [|b l' Hab _]; simpl; [done |].
  unfold byVoteCountDesc.
  destruct (Z.leb_spec (Candidate.voteCount b - Candidate.voteCount a) 0); [done | lia].
Qed.

(** Two descending ballots with the same candidates in the same order at
    every tally are one and the same list. *)
Lemma descending_stable_unique r r' :
  descending r -> descending r' ->
  (forall n, withVoteCount n r = withVoteCount n r') -> r = r'.
Proof.
  unfold descending, withVoteCount. intros Hr. revert r'.
  induction Hr as [|a r Hr IH Ha]; intros r' Hr' Heq.
  - destruct r' as [|b r']; [done |].
    specialize (Heq (Candidate.voteCount b)).
    rewrite filter_cons in Heq. by case_decide.
  - destruct Hr' as [|b r' Hr' Hb].
    { specialize (Heq (Candidate.voteCount a)).
      rewrite filter_cons in Heq. by case_decide. }
    assert (a = b) as <-.
    { pose proof (Heq (Candidate.voteCount a)) as Ea.
      pose proof (Heq (Candidate.voteCount b)) as Eb.
      rewrite !filter_cons in Ea, Eb.
      destruct (decide (Candidate.voteCount b = Candidate.voteCount a)) as [E|Hne].
      - destruct (decide (Candidate.voteCount a = Candidate.voteCount a));
          [congruence | done].
      - exfalso.
        assert (a ∈ r') as Har'.
        { repeat case_decide; try done.
          assert (a ∈ filter (fun c => Candidate.voteCount c = Candidate.voteCount a) r')
            as Hin by (rewrite <- Ea; left).
          by apply list_elem_of_filter in Hin as [_ ?]. }
        assert (b ∈ r) as Hbr.
        { repeat case_decide; try done; try congruence.
          assert (b ∈ filter (fun c => Candidate.voteCount c = Candidate.voteCount b) r)
            as Hin by (rewrite Eb; left).
          by apply list_elem_of_filter in Hin as [_ ?]. }
        eapply Forall_forall in Ha; [|exact Hbr].
        eapply Forall_forall in Hb; [|exact Har'].
        simpl in *. lia. }
    f_equal. apply IH; [done |].
    intros n. specialize (Heq n). rewrite !filter_cons in Heq.
    case_decide; congruence.
Qed.

(** ** Identifiers *)






(** ** The voting engine *)

Lemma reachable_run cs s : reachable s -> reachable (run cs s).
Proof.
  revert s. induction cs as [|c cs IH]; intros s Hs; simpl; [done |].
  apply IH. by constructor.
Qed.

Lemma reachable_bootStore : reachable bootStore.
Proof. constructor. Defined.

Lemma reachable_adminStore : reachable adminStore.
Proof. constructor. apply reachable_bootStore. Defined.

Lemma reachable_votedStore : reachable votedStore.
Proof. constructor. apply reachable_adminStore. Defined.

Lemma castVote_Reject electionId candidateId rndHash now s err s' :
  castVote electionId candidateId rndHash now s = (Reject err, s') ->
  s' = s
  /\ (err = WalletNotConnected \/ err = ElectionNotFound \/ err = ElectionNotActive
      \/ err = AlreadyVoted \/ err = CandidateNotFound).
Proof.
  unfold castVote.
  destruct (truthyAccount (currentAccount s)) as [account|]; [|intros [= <- <-]; auto].
  destruct (JsMap.get electionId (elections s)) as [election|];
    [|intros [= <- <-]; auto].
  destruct (Election.isActive election); simpl; [|intros [= <- <-]; auto 6].
  destruct (hasVoted electionId account s); [intros [= <- <-]; auto 6 |].
  destruct (findCandidate candidateId (Election.candidates election));
    [done | intros [= <- <-]; auto 6].
Qed.

Lemma castVote_flag_set electionId candidateId rndHash now s account :
  truthyAccount (currentAccount s) = Some account ->
  hasVoted electionId account s = true ->
  (exists err,
      castVote electionId candidateId rndHash now s = (Reject err, s)
      /\ (err = ElectionNotFound \/ err = ElectionNotActive \/ err = AlreadyVoted))
  /\ (forall election,
        JsMap.get electionId (elections s) = Some election ->
        Election.isActive election = true ->
        castVote electionId candidateId rndHash now s = (Reject AlreadyVoted, s)).
Proof.
  intros Hacc Hflag. unfold castVote. rewrite Hacc.
  destruct (JsMap.get electionId (elections s)) as [election|].
  - destruct (Election.isActive election) eqn:Hact; simpl; rewrite ?Hflag.
    + split; [eexists; split; [reflexivity | auto] | done].
    + split; [eexists; split; [reflexivity | auto] |].
      intros ? [= <-]. congruence.
  - split; [eexists; split; [reflexivity | auto] | done].
Qed.

Lemma castVote_flag_set_first_failure electionId candidateId rndHash now s account :
  truthyAccount (currentAccount s) = Some account ->
  (JsMap.get electionId (elections s) = None ->
   castVote electionId candidateId rndHash now s = (Reject ElectionNotFound, s))
  /\ (forall election,
        JsMap.get electionId (elections s) = Some election ->
        Election.isActive election = false ->
        castVote electionId candidateId rndHash now s = (Reject ElectionNotActive, s)).
Proof.
  intros Hacc. unfold castVote. rewrite Hacc. split.
  - by intros ->.
  - intros election -> Hoff. by rewrite Hoff.
Qed.

Lemma castVote_twice electionId candidateId rndHash now s txHash s' :
  accountRegistered s ->
  castVote electionId candidateId rndHash now s = (Resolve txHash, s') ->
  forall candidateId' rndHash' now',
    castVote electionId candidateId' rndHash' now' s' = (Reject AlreadyVoted, s').
Proof.
  intros Hreg Hvote candidateId' rndHash' now'.
  destruct (castVote_cases electionId candidateId rndHash now s)
    as [[err E]|(a & e & c & Ha & He & Hact & Hv & Hc & E)]; [congruence |].
  rewrite E in Hvote. injection Hvote as _ <-.
  set (s' := mkChain _ _ _ _ _).
  assert (Hflag : hasVoted electionId a s' = true).
  { eapply voted_hasVoted_own; [|done].
    apply Hreg. by apply truthyAccount_Some in Ha as [? _]. }
  eapply (castVote_flag_set electionId candidateId' rndHash' now' s' a); [done..| |].
  - unfold s'. simpl. apply JsMapFacts.get_set_eq.
  - done.
Qed.

(** C1, as the claim states it, fails: a flag [hasVoted[electionId]] does
    not make the rejection "You have already voted in this election" in
    every state.  In [reissuedStore], which the service reaches, the
    connected account has voted in the election and the id has since been
    issued again for an election that is not active; the flag is still set,
    and the next vote of the account is rejected with "Election is not
    active", the check that comes first. *)
Lemma castVote_flagged_voter_told_not_active :
  reachable reissuedStore
  /\ truthyAccount (currentAccount reissuedStore) = Some "0x8f3a2c"
  /\ hasVoted "election-1700000060000" "0x8f3a2c" reissuedStore = true
  /\ castVote "election-1700000060000" "candidate-1700000060000" "b2"
       (bootTime + 90000) reissuedStore
     = (Reject ElectionNotActive, reissuedStore)
  /\ message ElectionNotActive <> message AlreadyVoted.
Proof.
  split; [apply reachable_run, reachable_adminStore |].
  split; [reflexivity |]. split; [vm_compute; reflexivity |].
  split; [vm_compute; reflexivity | discriminate].
Qed.

(** C1, amended.  A participant whose flag [hasVoted[electionId]] is set
    cannot vote in that election again: [castVote] by that account never
    resolves and leaves the store as it is.  The rejection is the first
    check that fails: "Election not found" when the id is unknown,
    "Election is not active" when the stored [isActive] flag is false, and
    "You have already voted in this election" when the election is found and
    flagged active; in particular, right after an accepted vote every
    further vote of the connected account in the same election is rejected
    with that message.  Every rejection of [castVote] -- wallet not
    connected, election not found, election not active, already voted,
    candidate not found -- leaves elections, vote logs and voter records
    untouched. *)
Theorem castVote_double_vote_rejected_failures_keep_store :
  (forall s account electionId candidateId rndHash now,
      truthyAccount (currentAccount s) = Some account ->
      hasVoted electionId account s = true ->
      (exists err,
          castVote electionId candidateId rndHash now s = (Reject err, s)
          /\ (err = ElectionNotFound \/ err = ElectionNotActive \/ err = AlreadyVoted))
      /\ (forall election,
            JsMap.get electionId (elections s) = Some election ->
            Election.isActive election = true ->
            castVote electionId candidateId rndHash now s = (Reject AlreadyVoted, s))
      /\ (forall election,
            JsMap.get electionId (elections s) = Some election ->
            Election.isActive election = false ->
            castVote electionId candidateId rndHash now s
            = (Reject ElectionNotActive, s))
      /\ (JsMap.get electionId (elections s) = None ->
          castVote electionId candidateId rndHash now s
          = (Reject ElectionNotFound, s)))
  /\ (forall s electionId candidateId rndHash now txHash s',
        reachable s ->
        castVote electionId candidateId rndHash now s = (Resolve txHash, s') ->
        forall candidateId' rndHash' now',
          castVote electionId candidateId' rndHash' now' s' = (Reject AlreadyVoted, s'))
  /\ (forall s electionId candidateId rndHash now err s',
        castVote electionId candidateId rndHash now s = (Reject err, s') ->
        (s' = s /\ elections s' = elections s /\ votes s' = votes s
         /\ voters s' = voters s)
        /\ (err = WalletNotConnected \/ err = ElectionNotFound
            \/ err = ElectionNotActive \/ err = AlreadyVoted
            \/ err = CandidateNotFound)).
Proof.
  split; [|split].
  - intros s account electionId candidateId rndHash now Hacc Hflag.
    destruct (castVote_flag_set electionId candidateId rndHash now s account
                Hacc Hflag) as [Herr Hvoted].
    destruct (castVote_flag_set_first_failure electionId candidateId rndHash now
                s account Hacc) as [Hnone Hoff].
    done.
  - intros s electionId candidateId rndHash now txHash s' Hs Hvote.
    eapply castVote_twice; [|exact Hvote]. by apply reachable_ledger.
  - intros s electionId candidateId rndHash now err s' H.
    apply castVote_Reject in H as [-> Herr]. done.
Qed.

Lemma castVote_double_vote_witness :
  (truthyAccount (currentAccount votedStore) = Some "0x8f3a2c"
   /\ hasVoted "election-1" "0x8f3a2c" votedStore = true
   /\ exists err,
        castVote "election-1" "candidate-3" "c4" (bootTime + 7000) votedStore
        = (Reject err, votedStore)
        /\ (err = ElectionNotFound \/ err = ElectionNotActive \/ err = AlreadyVoted))
  /\ castVote "election-1" "candidate-1" "77aa" (bootTime + 9000) votedStore
     = (Reject AlreadyVoted, votedStore).
Proof.
  destruct castVote_double_vote_rejected_failures_keep_store as (Hflag & Htwice & _).
  split.
  - assert (Hacc : truthyAccount (currentAccount votedStore) = Some "0x8f3a2c")
      by reflexivity.
    assert (Hvoted : hasVoted "election-1" "0x8f3a2c" votedStore = true)
      by (vm_compute; reflexivity).
    split; [exact Hacc |]. split; [exact Hvoted |].
    exact (proj1 (Hflag votedStore "0x8f3a2c" "election-1" "candidate-3" "c4"
                    (bootTime + 7000) Hacc Hvoted)).
  - eapply (Htwice adminStore "election-1" "candidate-2" "5d07e1" (bootTime + 5000)).
    + exact reachable_adminStore.
    + reflexivity.
Defined.

(** C2.  In every store the service can reach -- that is, after every
    [createElection], [addCandidate], [castVote], wallet call and read --
    each election's [totalVotes] is the sum of the [voteCount]s of its
    candidates, in the store and in the copies that [getAllElections] and
    [getElection] hand out. *)
Theorem totalVotes_equals_sum_of_voteCounts s :
  reachable s ->
  (forall c,
      Forall tallyConsistent (JsMap.values (elections (step c s)))
      /\ Forall tallyConsistent (getAllElections (step c s))
      /\ (forall electionId election,
            getElection electionId (step c s) = Some election ->
            tallyConsistent election))
  /\ Forall tallyConsistent (JsMap.values (elections s)).
Proof.
  intros Hs.
  assert (Hall : forall s0, reachable s0 ->
            Forall tallyConsistent (JsMap.values (elections s0))).
  { intros s0 H0%reachable_electionsConsistent.
    unfold JsMap.values. by apply Forall_fmap. }
  split; [|by apply Hall].
  intros c. assert (Hc : reachable (step c s)) by by constructor.
  split; [by apply Hall |]. split.
  - unfold getAllElections. apply Forall_fmap.
    eapply Forall_impl; [by apply Hall |]. done.
  - intros electionId election. unfold getElection.
    destruct (JsMap.get electionId (elections (step c s))) as [e|] eqn:He; [|done].
    intros [= <-]. apply JsMapFacts.get_elem_of in He.
    apply reachable_electionsConsistent in Hc.
    eapply Forall_forall in Hc; [|exact He]. done.
Qed.

Lemma totalVotes_equals_sum_witness :
  Forall tallyConsistent (JsMap.values (elections votedStore)).
Proof.
  apply (totalVotes_equals_sum_of_voteCounts votedStore reachable_votedStore).
Defined.

(** C3.  [castVote] does not look at the clock: it accepts a vote on the
    stored flag [isActive], which [createElection] computes once.  At the
    clock reading [bootTime + 2 * 86400000], a day after the [endTime] of the
    sample election, the vote of a connected wallet is accepted and counted;
    and an election created before its window opens rejects a vote cast
    inside the window. *)
Theorem castVote_accepts_vote_after_endTime :
  (exists election,
      JsMap.get "election-1" (elections adminStore) = Some election
      /\ Election.endTime election < bootTime + 2 * 86400000
      /\ fst (castVote "election-1" "candidate-1" "9f" (bootTime + 2 * 86400000)
                adminStore) = Resolve "0x9f"
      /\ getElectionResults "election-1"
           (snd (castVote "election-1" "candidate-1" "9f" (bootTime + 2 * 86400000)
                   adminStore))
         = Resolve
             [ Candidate.mk "candidate-1" "Alice Johnson"
                 "Experienced leader with vision for positive change" 1 None;
               Candidate.mk "candidate-2" "Bob Smith"
                 "Fresh perspective and innovative ideas" 0 None;
               Candidate.mk "candidate-3" "Carol Davis"
                 "Proven track record in student advocacy" 0 None ])
  /\ (let planned :=
        ElectionInput.mk "Board" "Board election" (bootTime + 3600000)
          (bootTime + 7200000) None in
      let s := run [ CallCreateElection planned (bootTime + 1000) (bootTime + 1000)
                       (bootTime + 1000);
                     CallAddCandidate "election-1700000001000"
                       (CandidateInput.mk "Dan" "Treasurer" None) (bootTime + 2000) ]
                   adminStore in
      ElectionInput.startTime planned <= bootTime + 5400000
                                      <= ElectionInput.endTime planned
      /\ fst (castVote "election-1700000001000" "candidate-1700000002000" "3b"
                (bootTime + 5400000) s) = Reject ElectionNotActive).
Proof.
  split.
  - eexists. split; [reflexivity |]. split; [reflexivity |].
    split; vm_compute; reflexivity.
  - split; [vm_compute; split; discriminate |]. vm_compute. reflexivity.
Qed.

(** ** The election registry *)

(** C4, as the claim states it, fails: an admin call with an empty title, an
    empty description, [startTime >= endTime] and an [endTime] already past
    resolves and stores the record. *)
Lemma createElection_accepts_invalid_input :
  let election :=
    ElectionInput.mk "" "" (bootTime + 7200000) (bootTime - 3600000) None in
  ElectionInput.startTime election >= ElectionInput.endTime election
  /\ ElectionInput.endTime election <= bootTime + 60000
  /\ fst (createElection election (bootTime + 60000) (bootTime + 60000)
            (bootTime + 60000) adminStore)
     = Resolve "election-1700000060000"
  /\ JsMap.get "election-1700000060000"
       (elections (snd (createElection election (bootTime + 60000)
                          (bootTime + 60000) (bootTime + 60000) adminStore)))
     = Some (Election.mk "election-1700000060000" "" "" (bootTime + 7200000)
               (bootTime - 3600000) false [] 0 None).
Proof.
  split; [vm_compute; discriminate |]. split; [vm_compute; discriminate |].
  split; vm_compute; reflexivity.
Qed.

(** C4, amended.  [createElection] validates nothing but the caller: for a
    caller that is not admin it rejects with "Only admin can create
    elections" and creates no record (the store is unchanged), and that is
    its only rejection; for an admin it resolves whatever the title, the
    description and the times are, and stores exactly one record, under the
    returned id, with an empty ballot and [totalVotes = 0]. *)
Theorem createElection_checks_only_admin election nowId nowLo nowHi s :
  (isAdmin s = false ->
   createElection election nowId nowLo nowHi s = (Reject OnlyAdminCreate, s))
  /\ (isAdmin s = true ->
      exists s',
        createElection election nowId nowLo nowHi s
        = (Resolve ("election-" +:+ numberToString nowId), s')
        /\ JsMap.get ("election-" +:+ numberToString nowId) (elections s')
           = Some (Election.mk ("election-" +:+ numberToString nowId)
                     (ElectionInput.title election)
                     (ElectionInput.description election)
                     (ElectionInput.startTime election)
                     (ElectionInput.endTime election)
                     ((ElectionInput.startTime election <=? nowLo)
                      && (nowHi <=? ElectionInput.endTime election))
                     [] 0 (ElectionInput.hasVoted election))
        /\ (forall key, key <> "election-" +:+ numberToString nowId ->
              JsMap.get key (elections s') = JsMap.get key (elections s))
        /\ voters s' = voters s)
  /\ (forall err s',
        createElection election nowId nowLo nowHi s = (Reject err, s') ->
        s' = s /\ err = OnlyAdminCreate /\ isAdmin s = false).
Proof.
  unfold createElection. destruct (isAdmin s); simpl.
  - split; [done |]. split; [|done]. intros _. eexists. split; [reflexivity |].
    simpl. split; [apply JsMapFacts.get_set_eq |]. split; [|done].
    intros key Hne. by apply JsMapFacts.get_set_ne.
  - split; [done |]. split; [done |]. by intros err s' [= <- <-].
Qed.

Lemma createElection_checks_only_admin_witness :
  exists s',
    createElection (ElectionInput.mk "" "" 20 10 None) 30 30 30 adminStore
    = (Resolve "election-30", s')
    /\ createElection (ElectionInput.mk "Board" "Board election" 10 20 None) 5 5 5
         bootStore
       = (Reject OnlyAdminCreate, bootStore).
Proof.
  destruct (createElection_checks_only_admin (ElectionInput.mk "" "" 20 10 None)
              30 30 30 adminStore) as (_ & Hadmin & _).
  destruct (Hadmin eq_refl) as (s' & Hs' & _).
  exists s'. split; [exact Hs' |].
  exact (proj1 (createElection_checks_only_admin
                  (ElectionInput.mk "Board" "Board election" 10 20 None) 5 5 5
                  bootStore) eq_refl).
Defined.

(** C5, as the claim states it, fails: the sample election started an hour
    before [bootTime]; an admin call of [addCandidate] a minute after
    [bootTime] resolves and appends the candidate. *)
Lemma addCandidate_accepts_after_startTime :
  exists election,
    JsMap.get "election-1" (elections adminStore) = Some election
    /\ bootTime + 60000 >= Election.startTime election
    /\ fst (addCandidate "election-1" (CandidateInput.mk "Dan Brown" "Late entry" None)
              (bootTime + 60000) adminStore)
       = Resolve "candidate-1700000060000"
    /\ getElectionResults "election-1"
         (snd (addCandidate "election-1"
                 (CandidateInput.mk "Dan Brown" "Late entry" None)
                 (bootTime + 60000) adminStore))
       = Resolve (Election.candidates election
                  ++ [Candidate.mk "candidate-1700000060000" "Dan Brown"
                        "Late entry" 0 None]).
Proof.
  eexists. split; [reflexivity |]. split; [vm_compute; discriminate |].
  split; vm_compute; reflexivity.
Qed.

(** C5, amended.  For every existing election, [addCandidate] invoked by an
    admin resolves at every clock reading, before the election's [startTime]
    as well as at or after it, and appends the candidate, with no votes, at
    the end of the ballot; the rest of the election and the other elections
    stay as they are. *)
Theorem addCandidate_appends_at_any_time s electionId election candidate now :
  isAdmin s = true ->
  JsMap.get electionId (elections s) = Some election ->
  exists s',
    addCandidate electionId candidate now s
    = (Resolve ("candidate-" +:+ numberToString now), s')
    /\ JsMap.get electionId (elections s')
       = Some (Election.mk (Election.id election) (Election.title election)
                 (Election.description election) (Election.startTime election)
                 (Election.endTime election) (Election.isActive election)
                 (Election.candidates election
                  ++ [Candidate.mk ("candidate-" +:+ numberToString now)
                        (CandidateInput.name candidate)
                        (CandidateInput.description candidate) 0
                        (CandidateInput.imageUrl candidate)])
                 (Election.totalVotes election) (Election.hasVoted election))
    /\ (forall key, key <> electionId ->
          JsMap.get key (elections s') = JsMap.get key (elections s))
    /\ votes s' = votes s /\ voters s' = voters s.
Proof.
  intros Hadmin Hget. unfold addCandidate. rewrite Hadmin, Hget. simpl.
  eexists. split; [reflexivity |]. simpl.
  split; [apply JsMapFacts.get_set_eq |]. split; [|done].
  intros key Hne. apply JsMapFacts.get_set_ne. congruence.
Qed.

Lemma addCandidate_appends_at_any_time_witness :
  exists s',
    addCandidate "election-1" (CandidateInput.mk "Dan Brown" "Late entry" None)
      (bootTime + 60000) adminStore
    = (Resolve "candidate-1700000060000", s').
Proof.
  destruct (addCandidate_appends_at_any_time adminStore "election-1"
              (sampleElection bootTime bootTime)
              (CandidateInput.mk "Dan Brown" "Late entry" None) (bootTime + 60000)
              eq_refl eq_refl) as (s' & Hs' & _).
  exists s'. exact Hs'.
Defined.

(** ** Results *)

(** C6.  For every existing election [getElectionResults] resolves with the
    candidates of the ballot (a permutation of it) in descending order of
    [voteCount], candidates with equal [voteCount] in their ballot order;
    these two properties leave one list only, so the result is determined;
    and a ballot whose candidates all have no votes is returned in its
    original order. *)
Theorem getElectionResults_descending_stable s electionId election :
  JsMap.get electionId (elections s) = Some election ->
  exists results,
    getElectionResults electionId s = Resolve results
    /\ results ≡ₚ Election.candidates election
    /\ descending results
    /\ (forall n, withVoteCount n results
                  = withVoteCount n (Election.candidates election))
    /\ (forall other,
          descending other ->
          (forall n, withVoteCount n other
                     = withVoteCount n (Election.candidates election)) ->
          other = results)
    /\ ((forall c, c ∈ Election.candidates election -> Candidate.voteCount c = 0) ->
        results = Election.candidates election).
Proof.
  intros Hget. unfold getElectionResults. rewrite Hget.
  eexists. split; [reflexivity |].
  split; [apply sort_perm |]. split; [apply sort_descending |].
  split; [intros n; apply sort_withVoteCount |]. split.
  - intros other Hdesc Hstable.
    apply descending_stable_unique; [done | apply sort_descending |].
    intros n. by rewrite Hstable, sort_withVoteCount.
  - intros Hzero. apply sort_descending_id. unfold descending.
    revert Hzero. generalize (Election.candidates election) as cs.
    induction cs as [|c cs IH]; intros Hzero; constructor.
    + apply IH. intros c' Hc'. apply Hzero. by right.
    + apply Forall_forall. intros c' Hc'.
      rewrite (Hzero c) by left. rewrite (Hzero c') by (by right). lia.
Qed.

Lemma getElectionResults_descending_stable_witness :
  exists results,
    getElectionResults "election-1" votedStore = Resolve results
    /\ Candidate.id <$> results = ["candidate-2"; "candidate-1"; "candidate-3"].
Proof.
  destruct (getElectionResults_descending_stable votedStore "election-1"
              (Election.mk "election-1" "2024 Student Council Elections"
                 "Vote for your preferred student council president"
                 (bootTime - 3600000) (bootTime + 86400000) true
                 [ Candidate.mk "candidate-1" "Alice Johnson"
                     "Experienced leader with vision for positive change" 0 None;
                   Candidate.mk "candidate-2" "Bob Smith"
                     "Fresh perspective and innovative ideas" 1 None;
                   Candidate.mk "candidate-3" "Carol Davis"
                     "Proven track record in student advocacy" 0 None ]
                 1 None) eq_refl) as (results & Hres & _).
  exists results. split; [exact Hres |].
  assert (Heq : Resolve results
                = getElectionResults "election-1" votedStore) by (by rewrite Hres).
  vm_compute in Heq. injection Heq as ->. reflexivity.
Defined.

(** ** Identifiers *)




(** ** The ledger of accepted votes *)

(** C8.  In every store the service can reach, the voter record of every
    logged vote exists and its flag for the vote's election is set; no
    address has two entries for one election; and the step that accepts a
    vote appends the entry and sets the flag of the connected account
    together. *)
Theorem accepted_votes_flagged_and_single s :
  reachable s ->
  (forall key log vote,
      votes s !! key = Some log -> vote ∈ log ->
      exists voter,
        voters s !! Vote.voterAddress vote = Some voter
        /\ Voter.hasVoted voter !! Vote.electionId vote = Some true)
  /\ (forall key key' log log' i j vote vote',
        votes s !! key = Some log -> votes s !! key' = Some log' ->
        log !! i = Some vote -> log' !! j = Some vote' ->
        Vote.voterAddress vote = Vote.voterAddress vote' ->
        Vote.electionId vote = Vote.electionId vote' ->
        key = key' /\ i = j)
  /\ (forall electionId candidateId rndHash now txHash s',
        castVote electionId candidateId rndHash now s = (Resolve txHash, s') ->
        exists account,
          currentAccount s = Some account
          /\ votes s' !! electionId
             = Some (default [] (votes s !! electionId)
                     ++ [Vote.mk electionId candidateId account now txHash])
          /\ hasVoted electionId account s = false
          /\ hasVoted electionId account s' = true).
Proof.
  intros Hs. destruct (reachable_ledger s Hs) as [Hreg Hled].
  split; [|split].
  - intros key log vote Hlog Hin. destruct (Hled key log Hlog) as [Hall _].
    eapply Forall_forall in Hall; [|exact Hin]. destruct Hall as [-> Hflag].
    by apply hasVoted_true.
  - intros key key' log log' i j vote vote' Hlog Hlog' Hi Hj Haddr Hid.
    destruct (Hled key log Hlog) as [Hall Hnd].
    destruct (Hled key' log' Hlog') as [Hall' _].
    assert (key = key') as <-.
    { eapply Forall_forall in Hall; [|by eapply list_elem_of_lookup_2].
      eapply Forall_forall in Hall'; [|by eapply list_elem_of_lookup_2].
      destruct Hall as [<- _], Hall' as [<- _]. done. }
    split; [done |]. assert (log' = log) as -> by congruence.
    eapply NoDup_lookup; [exact Hnd | |].
    + by rewrite list_lookup_fmap, Hi.
    + by rewrite list_lookup_fmap, Hj, Haddr.
  - intros electionId candidateId rndHash now txHash s' Hvote.
    destruct (castVote_cases electionId candidateId rndHash now s)
      as [[err E]|(a & e & c & Ha & He & Hact & Hv & Hc & E)]; [congruence |].
    rewrite E in Hvote. injection Hvote as <- <-.
    apply truthyAccount_Some in Ha as [Ha _].
    exists a. split; [done |]. simpl. split; [by rewrite lookup_insert_eq |].
    split; [done |]. eapply voted_hasVoted_own; [by apply Hreg | done].
Qed.

Lemma accepted_votes_flagged_and_single_witness :
  exists voter,
    voters votedStore !! "0x8f3a2c" = Some voter
    /\ Voter.hasVoted voter !! "election-1" = Some true.
Proof.
  destruct (accepted_votes_flagged_and_single votedStore reachable_votedStore)
    as (Hflag & _ & _).
  apply (Hflag "election-1"
           [Vote.mk "election-1" "candidate-2" "0x8f3a2c" (bootTime + 5000) "0x5d07e1"]
           (Vote.mk "election-1" "candidate-2" "0x8f3a2c" (bootTime + 5000) "0x5d07e1")).
  - vm_compute. reflexivity.
  - apply list_elem_of_singleton. reflexivity.
Defined.

(** ** Receipts *)

(** C9.  [getTransactionStatus] leaves the store as it is, whatever status
    it draws.  After an accepted vote a status [failed] (which the draw 4/5
    gives) takes nothing back: the election still counts the vote in
    [totalVotes] and in the candidate's [voteCount] and the entry is still
    the last one of the election's log. *)
Theorem getTransactionStatus_changes_nothing :
  (forall txHash rnd s,
      snd (getTransactionStatus txHash rnd s) = s)
  /\ (forall txHash s, fst (getTransactionStatus txHash (4 # 5) s) = Some failed)
  /\ (forall electionId candidateId rndHash now s txHash s' election rnd,
        JsMap.get electionId (elections s) = Some election ->
        castVote electionId candidateId rndHash now s = (Resolve txHash, s') ->
        fst (getTransactionStatus txHash rnd s') = Some failed ->
        let s'' := snd (getTransactionStatus txHash rnd s') in
        voters s'' = voters s'
        /\ (exists election' account,
               JsMap.get electionId (elections s'') = Some election'
               /\ Election.totalVotes election' = Election.totalVotes election + 1
               /\ Election.candidates election'
                  = incrementCandidate candidateId (Election.candidates election)
               /\ sumVoteCounts (Election.candidates election')
                  = sumVoteCounts (Election.candidates election) + 1
               /\ votes s'' !! electionId
                  = Some (default [] (votes s !! electionId)
                          ++ [Vote.mk electionId candidateId account now txHash]))).
Proof.
  split; [done |]. split; [done |].
  intros electionId candidateId rndHash now s txHash s' election rnd Hget Hvote _.
  simpl.
  destruct (castVote_cases electionId candidateId rndHash now s)
    as [[err E]|(a & e & c & Ha & He & Hact & Hv & Hc & E)]; [congruence |].
  rewrite E in Hvote. injection Hvote as <- <-.
  assert (e = election) as -> by congruence.
  split; [done |]. eexists _, a. simpl.
  split; [apply JsMapFacts.get_set_eq |]. simpl.
  split; [done |]. split; [done |].
  split; [by eapply sumVoteCounts_increment |].
  by rewrite lookup_insert_eq.
Qed.

Lemma getTransactionStatus_changes_nothing_witness :
  fst (getTransactionStatus "0x5d07e1" (4 # 5) votedStore) = Some failed
  /\ exists election' account,
       JsMap.get "election-1"
         (elections (snd (getTransactionStatus "0x5d07e1" (4 # 5) votedStore)))
       = Some election'
       /\ Election.totalVotes election' = 1
       /\ votes (snd (getTransactionStatus "0x5d07e1" (4 # 5) votedStore))
            !! "election-1"
          = Some [Vote.mk "election-1" "candidate-2" account (bootTime + 5000)
                    "0x5d07e1"].
Proof.
  destruct getTransactionStatus_changes_nothing as (_ & Hfailed & Hkeep).
  split; [apply Hfailed |].
  destruct (Hkeep "election-1" "candidate-2" "5d07e1" (bootTime + 5000) adminStore
              "0x5d07e1" votedStore (sampleElection bootTime bootTime) (4 # 5)
              eq_refl eq_refl (Hfailed _ _))
    as (_ & election' & account & Hget & Htotal & _ & _ & Hlog).
  exists election', account. split; [exact Hget |]. split; [exact Htotal |].
  exact Hlog.
Defined.

(** ** Wallet connection *)

(** C10.  When the address that [connectWallet] draws already has a voter
    record, connecting leaves the voter records -- that record and its whole
    [hasVoted] object included --, the elections and the vote logs as they
    are; [disconnectWallet] does not touch them either.  So after a
    disconnect and a reconnect with the same address every election the
    address has voted in still rejects its vote, with "You have already
    voted in this election" when the election is found and flagged active. *)
Theorem connectWallet_keeps_voting_history rndAddress rndAdmin s voter :
  voters s !! ("0x" +:+ rndAddress) = Some voter ->
  (let s' := snd (connectWallet rndAddress rndAdmin s) in
   fst (connectWallet rndAddress rndAdmin s) = "0x" +:+ rndAddress
   /\ voters s' = voters s
   /\ voters s' !! ("0x" +:+ rndAddress) = Some voter
   /\ elections s' = elections s /\ votes s' = votes s)
  /\ voters (disconnectWallet s) = voters s
  /\ (let s' := snd (connectWallet rndAddress rndAdmin (disconnectWallet s)) in
      voters s' = voters s
      /\ forall electionId,
           hasVoted electionId ("0x" +:+ rndAddress) s = true ->
           hasVoted electionId ("0x" +:+ rndAddress) s' = true
           /\ forall candidateId rndHash now,
                (exists err,
                    castVote electionId candidateId rndHash now s' = (Reject err, s')
                    /\ (err = ElectionNotFound \/ err = ElectionNotActive
                        \/ err = AlreadyVoted))
                /\ (forall election,
                      JsMap.get electionId (elections s) = Some election ->
                      Election.isActive election = true ->
                      castVote electionId candidateId rndHash now s'
                      = (Reject AlreadyVoted, s'))).
Proof.
  intros Hrec.
  assert (Hkeep : forall s0, voters s0 = voters s ->
            voters (snd (connectWallet rndAddress rndAdmin s0)) = voters s).
  { intros s0 E. unfold connectWallet. simpl. by rewrite E, Hrec. }
  split; [|split; [done |]].
  - simpl. split; [done |]. rewrite Hrec. done.
  - simpl. split; [by apply Hkeep |].
    intros electionId Hflag.
    set (s' := snd (connectWallet rndAddress rndAdmin (disconnectWallet s))).
    assert (Hflag' : hasVoted electionId ("0x" +:+ rndAddress) s' = true).
    { etrans; [|exact Hflag]. apply hasVoted_voters. by apply Hkeep. }
    split; [exact Hflag' |]. intros candidateId rndHash now.
    apply (castVote_flag_set electionId candidateId rndHash now s'
             ("0x" +:+ rndAddress)); [reflexivity | exact Hflag'].
Qed.

Lemma connectWallet_keeps_voting_history_witness :
  hasVoted "election-1" "0x8f3a2c"
    (snd (connectWallet "8f3a2c" (1 # 4) (disconnectWallet votedStore))) = true
  /\ castVote "election-1" "candidate-1" "a0"
       (bootTime + 90000)
       (snd (connectWallet "8f3a2c" (1 # 4) (disconnectWallet votedStore)))
     = (Reject AlreadyVoted,
        snd (connectWallet "8f3a2c" (1 # 4) (disconnectWallet votedStore))).
Proof.
  assert (Hrec : voters votedStore !! ("0x" +:+ "8f3a2c")
                 = Some (Voter.mk "0x8f3a2c" true (<["election-1" := true]> ∅)))
    by (vm_compute; reflexivity).
  assert (Hflag : hasVoted "election-1" ("0x" +:+ "8f3a2c") votedStore = true)
    by (vm_compute; reflexivity).
  destruct (connectWallet_keeps_voting_history "8f3a2c" (1 # 4) votedStore _ Hrec)
    as (_ & _ & _ & Hvoted).
  destruct (Hvoted "election-1" Hflag) as [Hflag' Hcast].
  split; [exact Hflag' |].
  destruct (Hcast "candidate-1" "a0" (bootTime + 90000)) as [_ Hactive].
  eapply Hactive; vm_compute; reflexivity.
Defined.

(** * Beyond the claims: the registry, the ledger and the panels *)

(** ** More on [Map] *)

Lemma JsMap_keys_set {V} (k : string) (v : V) (m : list (string * V)) :
  map fst (JsMap.set k v m)
  = match JsMap.get k m with
    | Some _ => map fst m
    | None => map fst m ++ [k]
    end.
Proof.
  induction m as [|[k' v'] m IH]; simpl; [done |].
  destruct (String.eqb k' k) eqn:E; simpl.
  - by apply String.eqb_eq in E as ->.
  - rewrite IH. by destruct (JsMap.get k m).
Qed.

Lemma JsMap_get_None {V} (k : string) (m : list (string * V)) :
  JsMap.get k m = None <-> k ∉ map fst m.
Proof.
  induction m as [|[k' v'] m IH]; simpl.
  - split; [intros _; apply not_elem_of_nil | done].
  - destruct (String.eqb k' k) eqn:E.
    + apply String.eqb_eq in E as ->. split; [done |].
      intros H. exfalso. apply H. left.
    + apply String.eqb_neq in E. rewrite IH. split.
      * intros H [->|?]%elem_of_cons; done.
      * intros H ?. apply H. by right.
Qed.

Lemma JsMap_get_is_Some {V} (k : string) (m : list (string * V)) :
  is_Some (JsMap.get k m) <-> k ∈ map fst m.
Proof.
  destruct (JsMap.get k m) as [v|] eqn:E.
  - split; [intros _ | by eexists].
    destruct (decide (k ∈ map fst m)) as [?|Hn]; [done |].
    apply JsMap_get_None in Hn. congruence.
  - split; [by intros [? ?] |]. intros Hin.
    apply JsMap_get_None in E. done.
Qed.

Lemma JsMap_elem_of_get {V} (k : string) (v : V) (m : list (string * V)) :
  NoDup (map fst m) -> (k, v) ∈ m -> JsMap.get k m = Some v.
Proof.
  induction m as [|[k' v'] m IH]; simpl.
  - by intros _ ?%elem_of_nil.
  - intros [Hk Hnd]%NoDup_cons [[= -> ->]|Hin]%elem_of_cons.
    + by rewrite String.eqb_refl.
    + destruct (String.eqb k' k) eqn:E; [|by apply IH].
      apply String.eqb_eq in E as ->. exfalso. apply Hk.
      apply list_elem_of_fmap. by exists (k, v).
Qed.

Lemma JsMap_set_NoDup {V} (k : string) (v : V) (m : list (string * V)) :
  NoDup (map fst m) -> NoDup (map fst (JsMap.set k v m)).
Proof.
  intros Hnd. rewrite JsMap_keys_set.
  destruct (JsMap.get k m) eqn:E; [done |].
  apply NoDup_app. split; [done |]. split; [|apply NoDup_singleton].
  intros k' Hin ->%list_elem_of_singleton. by apply JsMap_get_None in E.
Qed.

Lemma JsMap_get_set {V} (k k' : string) (v : V) (m : list (string * V)) :
  JsMap.get k' (JsMap.set k v m)
  = if decide (k = k') then Some v else JsMap.get k' m.
Proof.
  case_decide as E.
  - subst. apply JsMapFacts.get_set_eq.
  - by apply JsMapFacts.get_set_ne.
Qed.

Lemma JsMap_set_is_Some_mono {V} (k k' : string) (v : V) (m : list (string * V)) :
  is_Some (JsMap.get k' m) -> is_Some (JsMap.get k' (JsMap.set k v m)).
Proof. rewrite JsMap_get_set. case_decide; [by eexists | done]. Qed.

(** ** Case analyses of the two registry methods *)

Lemma createElection_cases election nowId nowLo nowHi s :
  (isAdmin s = false
   /\ createElection election nowId nowLo nowHi s = (Reject OnlyAdminCreate, s))
  \/ (isAdmin s = true
      /\ createElection election nowId nowLo nowHi s
         = (Resolve ("election-" +:+ numberToString nowId),
            mkChain
              (JsMap.set ("election-" +:+ numberToString nowId)
                 (Election.mk ("election-" +:+ numberToString nowId)
                    (ElectionInput.title election)
                    (ElectionInput.description election)
                    (ElectionInput.startTime election)
                    (ElectionInput.endTime election)
                    ((ElectionInput.startTime election <=? nowLo)
                     && (nowHi <=? ElectionInput.endTime election))
                    [] 0 (ElectionInput.hasVoted election))
                 (elections s))
              (<["election-" +:+ numberToString nowId := []]> (votes s))
              (voters s) (currentAccount s) (isAdmin s))).
Proof. unfold createElection. destruct (isAdmin s); simpl; auto. Qed.

Lemma addCandidate_cases electionId candidate now s :
  (exists err, addCandidate electionId candidate now s = (Reject err, s)
               /\ (err = OnlyAdminAdd \/ err = ElectionNotFound))
  \/ (exists election,
        isAdmin s = true
        /\ JsMap.get electionId (elections s) = Some election
        /\ addCandidate electionId candidate now s
           = (Resolve ("candidate-" +:+ numberToString now),
              mkChain
                (JsMap.set electionId
                   (Election.mk (Election.id election) (Election.title election)
                      (Election.description election) (Election.startTime election)
                      (Election.endTime election) (Election.isActive election)
                      (Election.candidates election
                       ++ [Candidate.mk ("candidate-" +:+ numberToString now)
                             (CandidateInput.name candidate)
                             (CandidateInput.description candidate) 0
                             (CandidateInput.imageUrl candidate)])
                      (Election.totalVotes election) (Election.hasVoted election))
                   (elections s))
                (votes s) (voters s) (currentAccount s) (isAdmin s))).
Proof.
  unfold addCandidate. destruct (isAdmin s); simpl; [|left; eauto].
  destruct (JsMap.get electionId (elections s)) as [election|]; [|left; eauto].
  right. by exists election.
Qed.

(** ** Tallies by candidate id *)

Lemma votesFor_app cid cs cs' :
  votesFor cid (cs ++ cs') = votesFor cid cs + votesFor cid cs'.
Proof. unfold votesFor. by rewrite filter_app, sumVoteCounts_app. Qed.

Lemma votesFor_increment cid cid' cs c :
  findCandidate cid cs = Some c ->
  votesFor cid' (incrementCandidate cid cs)
  = votesFor cid' cs + (if decide (cid = cid') then 1 else 0).
Proof.
  unfold votesFor. induction cs as [|c0 cs IH]; simpl; [done |].
  destruct (String.eqb (Candidate.id c0) cid) eqn:E.
  - apply String.eqb_eq in E. intros _. rewrite !filter_cons. simpl.
    rewrite E. repeat case_decide; try done; unfold sumVoteCounts; simpl; lia.
  - intros H. rewrite !filter_cons. specialize (IH H).
    repeat case_decide; try done; unfold sumVoteCounts in *; simpl; lia.
Qed.

Lemma loggedFor_snoc cid log vote :
  loggedFor cid (log ++ [vote])
  = (loggedFor cid log + (if decide (Vote.candidateId vote = cid) then 1 else 0))%nat.
Proof.
  unfold loggedFor. rewrite filter_app, length_app, filter_cons, filter_nil.
  by case_decide.
Qed.

Lemma incrementCandidate_nonneg cid cs :
  Forall (fun c => 0 <= Candidate.voteCount c) cs ->
  Forall (fun c => 0 <= Candidate.voteCount c) (incrementCandidate cid cs).
Proof.
  induction 1 as [|c cs Hc Hcs IH]; simpl; [constructor |].
  destruct (String.eqb (Candidate.id c) cid); constructor; simpl; auto; lia.
Qed.

Lemma votesFor_pos_find cid cs :
  Forall (fun c => 0 <= Candidate.voteCount c) cs ->
  0 < votesFor cid cs -> is_Some (findCandidate cid cs).
Proof.
  unfold votesFor. induction 1 as [|c cs Hc Hcs IH]; simpl.
  - unfold sumVoteCounts. simpl. lia.
  - rewrite filter_cons. destruct (String.eqb (Candidate.id c) cid) eqn:E.
    + by eexists.
    + apply String.eqb_neq in E. case_decide; [done | exact IH].
Qed.

(** ** The three invariants, step by step *)

Lemma step_registryConsistent c s :
  registryConsistent s -> registryConsistent (step c s).
Proof.
  intros (Hnd & Hid & Hdom).
  destruct c as [a r| |e t1 t2 t3|eid cand t| |eid|eid cid h t|eid|tx r| |];
    try done.
  - simpl. destruct (createElection_cases e t1 t2 t3 s) as [[_ ->]|[_ ->]];
      [done |]. split; [|split]; simpl.
    + by apply JsMap_set_NoDup.
    + intros key election. rewrite JsMap_get_set.
      case_decide; [by intros [= <-]; subst | apply Hid].
    + intros key. rewrite JsMap_get_set.
      destruct (decide ("election-" +:+ numberToString t1 = key)) as [<-|Hne].
      * rewrite lookup_insert_eq. split; by eexists.
      * rewrite lookup_insert_ne by done. apply Hdom.
  - simpl. destruct (addCandidate_cases eid cand t s)
      as [(err & -> & _)|(election & _ & He & ->)]; [done |].
    split; [|split]; simpl.
    + by apply JsMap_set_NoDup.
    + intros key election'. rewrite JsMap_get_set.
      case_decide; [|apply Hid]. intros [= <-]. subst. simpl. by apply Hid.
    + intros key. rewrite JsMap_get_set, Hdom. case_decide; [|done].
      subst. rewrite He. split; by eexists.
  - simpl. destruct (castVote_cases eid cid h t s)
      as [[err ->]|(a & election & c & _ & He & _ & _ & _ & ->)]; [done |].
    split; [|split]; simpl.
    + by apply JsMap_set_NoDup.
    + intros key election'. rewrite JsMap_get_set.
      case_decide; [|apply Hid]. intros [= <-]. subst. simpl. by apply Hid.
    + intros key. rewrite JsMap_get_set.
      destruct (decide (eid = key)) as [<-|Hne].
      * rewrite lookup_insert_eq. split; by eexists.
      * rewrite lookup_insert_ne by done. apply Hdom.
Qed.

Lemma step_countsConsistent c s :
  countsConsistent s -> countsConsistent (step c s).
Proof.
  unfold countsConsistent, logOf. intros Hs.
  destruct c as [a r| |e t1 t2 t3|eid cand t| |eid|eid cid h t|eid|tx r| |];
    try done.
  - simpl. destruct (createElection_cases e t1 t2 t3 s) as [[_ ->]|[_ ->]];
      [done |]. simpl. intros key election. rewrite JsMap_get_set.
    destruct (decide ("election-" +:+ numberToString t1 = key)) as [<-|Hne].
    + intros [= <-]. rewrite lookup_insert_eq. simpl. by repeat split.
    + rewrite lookup_insert_ne by done. apply Hs.
  - simpl. destruct (addCandidate_cases eid cand t s)
      as [(err & -> & _)|(election & _ & He & ->)]; [done |].
    simpl. intros key election'. rewrite JsMap_get_set.
    destruct (decide (eid = key)) as [<-|Hne]; [|apply Hs].
    intros [= <-]. simpl. destruct (Hs eid election He) as (Hcid & Hpos & Htot).
    split; [|split; [|done]].
    + intros cid. rewrite votesFor_app, Hcid. unfold votesFor.
      rewrite filter_cons, filter_nil. simpl.
      case_decide; unfold sumVoteCounts; simpl; lia.
    + apply Forall_app. split; [done |]. by repeat constructor.
  - simpl. destruct (castVote_cases eid cid h t s)
      as [[err ->]|(a & election & c & _ & He & _ & _ & Hc & ->)]; [done |].
    simpl. intros key election'. rewrite JsMap_get_set.
    destruct (decide (eid = key)) as [<-|Hne].
    + intros [= <-]. rewrite lookup_insert_eq. simpl.
      destruct (Hs eid election He) as (Hcid & Hpos & Htot).
      split; [|split].
      * intros cid'. rewrite (votesFor_increment _ _ _ _ Hc), Hcid, loggedFor_snoc.
        simpl. repeat case_decide; try done; lia.
      * by apply incrementCandidate_nonneg.
      * rewrite length_app, Htot. simpl. lia.
    + rewrite lookup_insert_ne by done. apply Hs.
Qed.

Lemma prefix_0x a : String.prefix "0x" ("0x" +:+ a) = true.
Proof. simpl. by destruct a. Qed.

Lemma step_votersConsistent c s :
  votersConsistent s -> votersConsistent (step c s).
Proof.
  intros (Hrec & Hacc & Hadm).
  destruct c as [a r| |e t1 t2 t3|eid cand t| |eid|eid cid h t|eid|tx r| |];
    try done.
  - split; [|split]; simpl.
    + intros address voter.
      destruct (voters s !! ("0x" +:+ a)) as [v|] eqn:E; [apply Hrec |].
      destruct (decide ("0x" +:+ a = address)) as [<-|Hne].
      * rewrite lookup_insert_eq. intros [= <-]. simpl.
        split; [done |]. split; [done |]. split; [apply prefix_0x |].
        intros key flag Hk. by rewrite lookup_empty in Hk.
      * rewrite lookup_insert_ne by done. apply Hrec.
    + intros account [= <-]. apply prefix_0x.
    + by eexists.
  - simpl. destruct (createElection_cases e t1 t2 t3 s) as [[_ ->]|[_ ->]];
      [done |]. split; [|split]; simpl; [|done..].
    intros address voter Hv. destruct (Hrec address voter Hv) as (? & ? & ? & Hflags).
    repeat split; try done; destruct (Hflags key flag) as [? ?]; try done.
    by apply JsMap_set_is_Some_mono.
  - simpl. destruct (addCandidate_cases eid cand t s)
      as [(err & -> & _)|(election & _ & He & ->)]; [done |].
    split; [|split]; simpl; [|done..].
    intros address voter Hv. destruct (Hrec address voter Hv) as (? & ? & ? & Hflags).
    repeat split; try done; destruct (Hflags key flag) as [? ?]; try done.
    by apply JsMap_set_is_Some_mono.
  - simpl. destruct (castVote_cases eid cid h t s)
      as [[err ->]|(a & election & c & _ & He & _ & _ & _ & ->)]; [done |].
    split; [|split]; simpl; [|done..].
    intros address voter.
    destruct (voters s !! a) as [v0|] eqn:E.
    + destruct (decide (a = address)) as [<-|Hne].
      * rewrite lookup_insert_eq. intros [= <-]. simpl.
        destruct (Hrec a v0 E) as (? & ? & ? & Hflags).
        repeat split; try done.
        -- destruct (decide (eid = key)) as [<-|Hk].
           ++ rewrite lookup_insert_eq in *. congruence.
           ++ rewrite lookup_insert_ne in * by done. by destruct (Hflags key flag).
        -- destruct (decide (eid = key)) as [<-|Hk].
           ++ rewrite JsMapFacts.get_set_eq. by eexists.
           ++ rewrite lookup_insert_ne in * by done.
              apply JsMap_set_is_Some_mono. by destruct (Hflags key flag).
      * rewrite lookup_insert_ne by done. intros Hv.
        destruct (Hrec address voter Hv) as (? & ? & ? & Hflags).
        repeat split; try done; destruct (Hflags key flag) as [? ?]; try done.
        by apply JsMap_set_is_Some_mono.
    + intros Hv. destruct (Hrec address voter Hv) as (? & ? & ? & Hflags).
      repeat split; try done; destruct (Hflags key flag) as [? ?]; try done.
      by apply JsMap_set_is_Some_mono.
Qed.

Lemma init_elections now1 now2 :
  elections (initializeSampleData now1 now2)
  = JsMap.set "election-1" (sampleElection now1 now2) [].
Proof. reflexivity. Qed.

Lemma init_votes now1 now2 :
  votes (initializeSampleData now1 now2) = <["election-1" := []]> ∅.
Proof. reflexivity. Qed.

Lemma reachable_consistent s :
  reachable s -> registryConsistent s /\ countsConsistent s /\ votersConsistent s.
Proof.
  induction 1 as [now1 now2|c s _ (IH1 & IH2 & IH3)].
  - split; [|split].
    + split; [|split].
      * apply NoDup_singleton.
      * intros key election. rewrite init_elections, JsMap_get_set.
        case_decide; [|done]. by intros [= <-].
      * intros key. rewrite init_elections, init_votes, JsMap_get_set.
        destruct (decide ("election-1" = key)) as [<-|Hne].
        -- rewrite lookup_insert_eq. split; by eexists.
        -- rewrite lookup_insert_ne, lookup_empty by done.
           split; by intros [? ?].
    + intros key election. unfold logOf.
      rewrite init_elections, init_votes, JsMap_get_set.
      case_decide as E; [|done]. subst key. intros [= <-].
      rewrite lookup_insert_eq. split; [|split; [|done]].
      * intros cid. unfold votesFor. cbn [sampleElection Election.candidates].
        rewrite !filter_cons, filter_nil.
        repeat case_decide; done.
      * repeat constructor; simpl; lia.
    + split; [|split]; done.
  - split; [|split].
    + by apply step_registryConsistent.
    + by apply step_countsConsistent.
    + by apply step_votersConsistent.
Qed.

(** ** What the listing shows *)

Lemma withHasVoted_id s key election :
  Election.id (withHasVoted s key election) = Election.id election.
Proof. reflexivity. Qed.

Lemma registry_elem_of_get s key election :
  registryConsistent s ->
  (key, election) ∈ elections s ->
  JsMap.get key (elections s) = Some election /\ Election.id election = key.
Proof.
  intros (Hnd & Hid & _) Hin.
  assert (Hget : JsMap.get key (elections s) = Some election)
    by by apply JsMap_elem_of_get.
  split; [done |]. by apply Hid.
Qed.

(** X1.  In every reachable store [getAllElections] lists no id twice,
    [getElection] returns exactly the listed election of that id (it is
    listed if and only if [getElection] on its id returns it), and an id is
    known to [getElection] if and only if it has a vote log. *)
Theorem getAllElections_lists_each_election_once s :
  reachable s ->
  NoDup (Election.id <$> getAllElections s)
  /\ (forall election,
        election ∈ getAllElections s
        <-> getElection (Election.id election) s = Some election)
  /\ (forall key election,
        getElection key s = Some election -> Election.id election = key)
  /\ (forall key, is_Some (getElection key s) <-> is_Some (votes s !! key)).
Proof.
  intros Hs. destruct (reachable_consistent s Hs) as (Hreg & _ & _).
  pose proof Hreg as (Hnd & Hid & Hdom).
  assert (Hids : Election.id <$> getAllElections s = fst <$> elections s).
  { unfold getAllElections, JsMap.values.
    change (Election.id <$> ((fun election : Election.t =>
                                withHasVoted s (Election.id election) election)
                             <$> (snd <$> elections s)) = fst <$> elections s).
    rewrite <- !list_fmap_compose. apply list_fmap_ext. intros i [key election] Hi.
    simpl. apply list_elem_of_lookup_2 in Hi.
    by destruct (registry_elem_of_get s key election Hreg Hi). }
  split; [by rewrite Hids |]. split; [|split].
  - intros election. unfold getAllElections, JsMap.values, getElection. split.
    + intros (e0 & -> & Hin)%list_elem_of_fmap.
      apply list_elem_of_fmap in Hin as ([key e1] & -> & Hin). simpl.
      destruct (registry_elem_of_get s key e1 Hreg Hin) as [Hget <-].
      by rewrite Hget.
    + destruct (JsMap.get (Election.id election) (elections s)) as [e0|] eqn:Hget;
        [|done].
      intros [= <-]. simpl. rewrite <- (Hid _ _ Hget) at 1.
      apply list_elem_of_fmap. exists e0. split; [done |].
      apply list_elem_of_fmap. exists (Election.id election, e0).
      split; [done |]. by apply JsMapFacts.get_elem_of.
  - intros key election. unfold getElection.
    destruct (JsMap.get key (elections s)) as [e0|] eqn:Hget; [|done].
    intros [= <-]. simpl. by apply Hid.
  - intros key. rewrite Hdom. unfold getElection.
    destruct (JsMap.get key (elections s)); split; intros [? ?]; by eexists.
Qed.

Lemma getAllElections_lists_each_election_once_witness :
  NoDup (Election.id <$> getAllElections votedStore).
Proof.
  apply (getAllElections_lists_each_election_once votedStore reachable_votedStore).
Defined.

(** ** Tallies against the log *)

Lemma logOf_ledger s key :
  ledgerConsistent s ->
  Forall (fun vote => Vote.electionId vote = key
                      /\ hasVoted key (Vote.voterAddress vote) s = true)
         (logOf key s)
  /\ NoDup (map Vote.voterAddress (logOf key s)).
Proof.
  intros Hled. unfold logOf. destruct (votes s !! key) as [log|] eqn:E; simpl.
  - by apply Hled.
  - split; constructor.
Qed.

Lemma votesFor_cons cid c cs :
  votesFor cid (c :: cs)
  = (if decide (Candidate.id c = cid) then Candidate.voteCount c else 0)
    + votesFor cid cs.
Proof.
  unfold votesFor. rewrite filter_cons.
  case_decide; unfold sumVoteCounts; simpl; lia.
Qed.

Lemma votesFor_absent cid cs : cid ∉ Candidate.id <$> cs -> votesFor cid cs = 0.
Proof.
  induction cs as [|c cs IH]; [done |].
  rewrite fmap_cons, votesFor_cons. intros Hn.
  apply not_elem_of_cons in Hn as [Hne Hn]. rewrite (IH Hn).
  case_decide; [congruence | done].
Qed.

Lemma votesFor_unique c cs :
  NoDup (Candidate.id <$> cs) -> c ∈ cs ->
  votesFor (Candidate.id c) cs = Candidate.voteCount c.
Proof.
  induction cs as [|c0 cs IH]; [by intros _ ?%elem_of_nil |].
  rewrite fmap_cons, votesFor_cons. intros [Hc0 Hnd]%NoDup_cons Hin.
  apply elem_of_cons in Hin as [->|Hin].
  - rewrite (votesFor_absent _ _ Hc0). case_decide; [lia | done].
  - rewrite (IH Hnd Hin). case_decide as E; [|lia].
    exfalso. apply Hc0. rewrite E. by apply list_elem_of_fmap_2.
Qed.

Lemma loggedFor_pos cid log vote :
  vote ∈ log -> Vote.candidateId vote = cid -> (0 < loggedFor cid log)%nat.
Proof.
  intros Hin Hcid. unfold loggedFor.
  assert (Hf : vote ∈ filter (fun v => Vote.candidateId v = cid) log)
    by by apply list_elem_of_filter.
  destruct (filter _ log); [by apply elem_of_nil in Hf | simpl; lia].
Qed.

(** X2.  In every reachable store an election's [totalVotes] is the number
    of entries of its vote log, and every entry of that log carries the
    election's id. *)
Theorem totalVotes_counts_log_entries s key election :
  reachable s ->
  JsMap.get key (elections s) = Some election ->
  Election.totalVotes election = Z.of_nat (length (logOf key s))
  /\ Forall (fun vote => Vote.electionId vote = key) (logOf key s).
Proof.
  intros Hs Hget. destruct (reachable_consistent s Hs) as (_ & Hcnt & _).
  destruct (Hcnt key election Hget) as (_ & _ & Htot). split; [done |].
  destruct (logOf_ledger s key (proj2 (reachable_ledger s Hs))) as [Hall _].
  eapply Forall_impl; [exact Hall |]. by intros vote [? _].
Qed.

Lemma totalVotes_counts_log_entries_witness :
  Election.totalVotes
    (Election.mk "election-1" "2024 Student Council Elections"
       "Vote for your preferred student council president"
       (bootTime - 3600000) (bootTime + 86400000) true
       [ Candidate.mk "candidate-1" "Alice Johnson"
           "Experienced leader with vision for positive change" 0 None;
         Candidate.mk "candidate-2" "Bob Smith"
           "Fresh perspective and innovative ideas" 1 None;
         Candidate.mk "candidate-3" "Carol Davis"
           "Proven track record in student advocacy" 0 None ]
       1 None)
  = Z.of_nat (length (logOf "election-1" votedStore)).
Proof.
  apply (totalVotes_counts_log_entries votedStore "election-1" _
           reachable_votedStore eq_refl).
Defined.

(** X3.  In every reachable store the votes counted for a candidate id on a
    ballot are the votes logged for that id; no tally is negative; on a
    ballot without repeated ids each candidate's [voteCount] is the number
    of log entries that name it; and every log entry names a candidate of
    the ballot. *)
Theorem voteCount_counts_logged_votes s key election :
  reachable s ->
  JsMap.get key (elections s) = Some election ->
  (forall cid,
      votesFor cid (Election.candidates election)
      = Z.of_nat (loggedFor cid (logOf key s)))
  /\ Forall (fun c => 0 <= Candidate.voteCount c) (Election.candidates election)
  /\ (NoDup (Candidate.id <$> Election.candidates election) ->
      forall c, c ∈ Election.candidates election ->
        Candidate.voteCount c = Z.of_nat (loggedFor (Candidate.id c) (logOf key s)))
  /\ (forall vote, vote ∈ logOf key s ->
        is_Some (findCandidate (Vote.candidateId vote)
                   (Election.candidates election))).
Proof.
  intros Hs Hget. destruct (reachable_consistent s Hs) as (_ & Hcnt & _).
  destruct (Hcnt key election Hget) as (Hcid & Hpos & _).
  split; [done |]. split; [done |]. split.
  - intros Hnd c Hc. by rewrite <- Hcid, votesFor_unique.
  - intros vote Hin. apply votesFor_pos_find; [done |]. rewrite Hcid.
    pose proof (loggedFor_pos _ _ _ Hin eq_refl). lia.
Qed.

Lemma voteCount_counts_logged_votes_witness :
  votesFor "candidate-2"
    [ Candidate.mk "candidate-1" "Alice Johnson"
        "Experienced leader with vision for positive change" 0 None;
      Candidate.mk "candidate-2" "Bob Smith"
        "Fresh perspective and innovative ideas" 1 None;
      Candidate.mk "candidate-3" "Carol Davis"
        "Proven track record in student advocacy" 0 None ]
  = Z.of_nat (loggedFor "candidate-2" (logOf "election-1" votedStore)).
Proof.
  exact (proj1 (voteCount_counts_logged_votes votedStore "election-1"
                  (Election.mk "election-1" "2024 Student Council Elections"
                     "Vote for your preferred student council president"
                     (bootTime - 3600000) (bootTime + 86400000) true _ 1 None)
                  reachable_votedStore eq_refl) "candidate-2").
Defined.

(** ** What a vote changes, and what nothing changes *)

Lemma incrementCandidate_first cid cs c :
  findCandidate cid cs = Some c ->
  exists i,
    cs !! i = Some c
    /\ Candidate.id c = cid
    /\ (forall j c', (j < i)%nat -> cs !! j = Some c' -> Candidate.id c' <> cid)
    /\ incrementCandidate cid cs
       = <[i := Candidate.mk (Candidate.id c) (Candidate.name c)
                 (Candidate.description c) (Candidate.voteCount c + 1)
                 (Candidate.imageUrl c)]> cs.
Proof.
  induction cs as [|c0 cs IH]; simpl; [done |].
  destruct (String.eqb (Candidate.id c0) cid) eqn:E.
  - intros [= <-]. exists 0%nat. apply String.eqb_eq in E.
    split; [done |]. split; [done |]. split; [|done]. intros j c' Hj. lia.
  - intros H. destruct (IH H) as (i & Hi & Hid & Hfirst & Hinc).
    exists (S i). split; [done |]. split; [done |]. split.
    + intros [|j] c' Hj; simpl.
      * intros [= <-]. by apply String.eqb_neq.
      * apply Hfirst. lia.
    + simpl. by rewrite Hinc.
Qed.

(** X4.  An accepted vote changes exactly one tally: in the election voted
    in, the first candidate of the ballot with the chosen id gets one vote
    more and [totalVotes] one more; the other candidates, the order of the
    ballot, the other elections, the other logs and the order of the
    registry stay as they are, and the receipt is [0x] followed by the
    draw. *)
Theorem castVote_changes_one_tally electionId candidateId rndHash now s txHash s' :
  castVote electionId candidateId rndHash now s = (Resolve txHash, s') ->
  txHash = "0x" +:+ rndHash
  /\ (exists election i c,
         JsMap.get electionId (elections s) = Some election
         /\ Election.candidates election !! i = Some c
         /\ Candidate.id c = candidateId
         /\ (forall j c', (j < i)%nat ->
               Election.candidates election !! j = Some c' ->
               Candidate.id c' <> candidateId)
         /\ JsMap.get electionId (elections s')
            = Some (Election.mk (Election.id election) (Election.title election)
                      (Election.description election)
                      (Election.startTime election) (Election.endTime election)
                      (Election.isActive election)
                      (<[i := Candidate.mk (Candidate.id c) (Candidate.name c)
                                (Candidate.description c)
                                (Candidate.voteCount c + 1)
                                (Candidate.imageUrl c)]>
                         (Election.candidates election))
                      (Election.totalVotes election + 1)
                      (Election.hasVoted election)))
  /\ (forall key, key <> electionId ->
        JsMap.get key (elections s') = JsMap.get key (elections s)
        /\ votes s' !! key = votes s !! key)
  /\ map fst (elections s') = map fst (elections s).
Proof.
  intros Hvote.
  destruct (castVote_cases electionId candidateId rndHash now s)
    as [[err E]|(a & e & c & Ha & He & Hact & Hv & Hc & E)]; [congruence |].
  rewrite E in Hvote. injection Hvote as <- <-. split; [done |].
  destruct (incrementCandidate_first _ _ _ Hc) as (i & Hi & Hid & Hfirst & Hinc).
  split; [|split].
  - exists e, i, c. repeat (split; [done |]). simpl.
    by rewrite JsMapFacts.get_set_eq, Hinc.
  - intros key Hne. simpl. split.
    + by apply JsMapFacts.get_set_ne.
    + by rewrite lookup_insert_ne.
  - simpl. by rewrite JsMap_keys_set, He.
Qed.

Lemma castVote_changes_one_tally_witness :
  exists election i c,
    JsMap.get "election-1" (elections adminStore) = Some election
    /\ Election.candidates election !! i = Some c
    /\ Candidate.id c = "candidate-2".
Proof.
  destruct (castVote_changes_one_tally "election-1" "candidate-2" "5d07e1"
              (bootTime + 5000) adminStore "0x5d07e1" votedStore eq_refl)
    as (_ & (election & i & c & Hget & Hi & Hid & _) & _).
  by exists election, i, c.
Defined.

Lemma sameCandidate_refl c : sameCandidate c c.
Proof. unfold sameCandidate. repeat split; lia. Qed.

Lemma sameCandidate_trans c1 c2 c3 :
  sameCandidate c1 c2 -> sameCandidate c2 c3 -> sameCandidate c1 c3.
Proof.
  unfold sameCandidate. intros (? & ? & ? & ? & ?) (? & ? & ? & ? & ?).
  repeat split; try congruence; lia.
Qed.

Lemma electionGrows_refl e : electionGrows e e.
Proof.
  unfold electionGrows. repeat (split; [done || lia |]).
  exists (Election.candidates e), []. split; [by rewrite app_nil_r |].
  apply Forall2_same_length_lookup_2; [done |].
  intros i c c' Hc Hc'. assert (c = c') as <- by congruence.
  apply sameCandidate_refl.
Qed.

Lemma electionGrows_trans e1 e2 e3 :
  electionGrows e1 e2 -> electionGrows e2 e3 -> electionGrows e1 e3.
Proof.
  intros (? & ? & ? & ? & ? & ? & ? & kept & added & Hc2 & Hk)
         (? & ? & ? & ? & ? & ? & ? & kept' & added' & Hc3 & Hk').
  unfold electionGrows. repeat (split; [congruence || lia |]).
  rewrite Hc2 in Hk'. apply Forall2_app_inv_l in Hk' as (k1 & k2 & Hk1 & Hk2 & ->).
  exists k1, (k2 ++ added'). split; [by rewrite Hc3, <- app_assoc |].
  clear - Hk Hk1. revert k1 Hk1.
  induction Hk as [|c c' cs cs' Hc Hcs IH]; intros k1 Hk1.
  - by inv Hk1.
  - inv Hk1. constructor; [by eapply sameCandidate_trans | by apply IH].
Qed.

Lemma incrementCandidate_same cid cs :
  Forall2 sameCandidate cs (incrementCandidate cid cs).
Proof.
  induction cs as [|c cs IH]; simpl; [constructor |].
  destruct (String.eqb (Candidate.id c) cid).
  - constructor.
    + unfold sameCandidate. simpl. repeat split; lia.
    + apply Forall2_same_length_lookup_2; [done |].
      intros i x y Hx Hy. assert (x = y) as <- by congruence.
      apply sameCandidate_refl.
  - constructor; [apply sameCandidate_refl | done].
Qed.

Lemma step_electionGrows c s key election :
  ~ recreates key c ->
  JsMap.get key (elections s) = Some election ->
  exists election',
    JsMap.get key (elections (step c s)) = Some election'
    /\ electionGrows election election'.
Proof.
  intros Hnot Hget.
  destruct c as [a r| |e t1 t2 t3|eid cand t| |eid|eid cid h t|eid|tx r| |];
    try (exists election; split; [done | apply electionGrows_refl]).
  - simpl in *. destruct (createElection_cases e t1 t2 t3 s) as [[_ ->]|[_ ->]];
      simpl.
    + exists election. split; [done | apply electionGrows_refl].
    + exists election. rewrite JsMapFacts.get_set_ne by done.
      split; [done | apply electionGrows_refl].
  - simpl. destruct (addCandidate_cases eid cand t s)
      as [(err & -> & _)|(e0 & _ & He & ->)]; simpl.
    + exists election. split; [done | apply electionGrows_refl].
    + rewrite JsMap_get_set. case_decide as E.
      * subst eid. assert (e0 = election) as -> by congruence.
        eexists. split; [done |]. unfold electionGrows. simpl.
        repeat (split; [done || lia |]).
        eexists _, _. split; [done |].
        apply Forall2_same_length_lookup_2; [done |].
        intros i x y Hx Hy. assert (x = y) as <- by congruence.
        apply sameCandidate_refl.
      * exists election. split; [done | apply electionGrows_refl].
  - simpl. destruct (castVote_cases eid cid h t s)
      as [[err ->]|(a & e0 & c & _ & He & _ & _ & _ & ->)]; simpl.
    + exists election. split; [done | apply electionGrows_refl].
    + rewrite JsMap_get_set. case_decide as E.
      * subst eid. assert (e0 = election) as -> by congruence.
        eexists. split; [done |]. unfold electionGrows. simpl.
        repeat (split; [done || lia |]).
        exists (incrementCandidate cid (Election.candidates election)), [].
        split; [by rewrite app_nil_r | apply incrementCandidate_same].
      * exists election. split; [done | apply electionGrows_refl].
Qed.

(** X5.  Along every run in which no [createElection] issues the id of an
    election again, that election stays in the registry with the same id,
    title, description, window and [isActive] flag; its ballot is extended
    at the end only -- no candidate is removed, moved or renamed --, no
    [voteCount] decreases and [totalVotes] does not decrease. *)
Theorem elections_only_grow cs s key election :
  Forall (fun c => ~ recreates key c) cs ->
  JsMap.get key (elections s) = Some election ->
  exists election',
    JsMap.get key (elections (run cs s)) = Some election'
    /\ electionGrows election election'.
Proof.
  revert s election. induction cs as [|c cs IH]; intros s election Hcs Hget; simpl.
  - exists election. split; [done | apply electionGrows_refl].
  - apply Forall_cons in Hcs as [Hc Hcs].
    destruct (step_electionGrows c s key election Hc Hget) as (e1 & Hget1 & Hg1).
    destruct (IH (step c s) e1 Hcs Hget1) as (e2 & Hget2 & Hg2).
    exists e2. split; [done |]. by eapply electionGrows_trans.
Qed.

Lemma elections_only_grow_witness :
  exists election',
    JsMap.get "election-1"
      (elections (run [ CallCastVote "election-1" "candidate-2" "5d07e1"
                          (bootTime + 5000);
                        CallAddCandidate "election-1"
                          (CandidateInput.mk "Dan Brown" "Late entry" None)
                          (bootTime + 60000) ] adminStore))
    = Some election'
    /\ electionGrows (sampleElection bootTime bootTime) election'.
Proof.
  apply elections_only_grow; [|reflexivity].
  repeat constructor; simpl; tauto.
Defined.

(** ** Wallets and rights *)

Lemma prefix_0x_nonempty a : String.prefix "0x" a = true -> a <> "".
Proof. by intros H ->. Qed.

(** X6.  In a reachable store without a connected wallet nothing but
    [connectWallet] changes anything: there is no admin right left, so every
    [createElection] and [addCandidate] is rejected, every [castVote] is
    rejected with "Wallet not connected", and every other call leaves the
    store as it is. *)
Theorem without_wallet_nothing_changes s c :
  reachable s ->
  currentAccount s = None ->
  ~ connects c ->
  step c s = s
  /\ isAdmin s = false
  /\ (forall election nowId nowLo nowHi,
        fst (createElection election nowId nowLo nowHi s) = Reject OnlyAdminCreate)
  /\ (forall electionId candidate now,
        fst (addCandidate electionId candidate now s) = Reject OnlyAdminAdd)
  /\ (forall electionId candidateId rndHash now,
        fst (castVote electionId candidateId rndHash now s)
        = Reject WalletNotConnected).
Proof.
  intros Hs Hacc Hc. destruct (reachable_consistent s Hs) as (_ & _ & _ & _ & Hadm).
  assert (Hna : isAdmin s = false).
  { destruct (isAdmin s); [|done]. destruct (Hadm eq_refl) as [a Ha]. congruence. }
  assert (Hcreate : forall election nowId nowLo nowHi,
             createElection election nowId nowLo nowHi s = (Reject OnlyAdminCreate, s)).
  { intros. unfold createElection. by rewrite Hna. }
  assert (Hadd : forall electionId candidate now,
             addCandidate electionId candidate now s = (Reject OnlyAdminAdd, s)).
  { intros. unfold addCandidate. by rewrite Hna. }
  assert (Hvote : forall electionId candidateId rndHash now,
             castVote electionId candidateId rndHash now s
             = (Reject WalletNotConnected, s)).
  { intros. unfold castVote. by rewrite Hacc. }
  split; [|split; [done |]; split; [|split]].
  - destruct c as [a r| |e t1 t2 t3|eid cand t| |eid|eid cid h t|eid|tx r| |];
      simpl; try done.
    + unfold disconnectWallet. destruct s; simpl in *. by subst.
    + by rewrite Hcreate.
    + by rewrite Hadd.
    + by rewrite Hvote.
  - intros. by rewrite Hcreate.
  - intros. by rewrite Hadd.
  - intros. by rewrite Hvote.
Qed.

Lemma without_wallet_nothing_changes_witness :
  step (CallCastVote "election-1" "candidate-1" "9f" (bootTime + 1000)) bootStore
  = bootStore.
Proof.
  apply (without_wallet_nothing_changes bootStore
           (CallCastVote "election-1" "candidate-1" "9f" (bootTime + 1000))
           reachable_bootStore eq_refl).
  simpl. tauto.
Defined.

(** X7.  In every reachable store a voter record sits under its own address,
    which starts with [0x], is registered, and flags only elections that
    [getElection] knows; and a connected account is a non-empty address
    with a voter record. *)
Theorem voter_records_wellformed s :
  reachable s ->
  (forall address voter,
      voters s !! address = Some voter ->
      Voter.address voter = address
      /\ Voter.isRegistered voter = true
      /\ String.prefix "0x" address = true
      /\ forall key, hasVoted key address s = true -> is_Some (getElection key s))
  /\ (forall account,
        currentAccount s = Some account ->
        truthyAccount (currentAccount s) = Some account
        /\ is_Some (voters s !! account)).
Proof.
  intros Hs. destruct (reachable_consistent s Hs) as (_ & _ & Hrec & Hacc & _).
  destruct (reachable_ledger s Hs) as [Hreg _]. split.
  - intros address voter Hv. destruct (Hrec address voter Hv) as (? & ? & ? & Hflags).
    repeat (split; [done |]). intros key Hflag.
    apply hasVoted_true in Hflag as (voter' & Hv' & Hk).
    assert (voter' = voter) as -> by congruence.
    destruct (Hflags key true Hk) as [_ [e He]].
    unfold getElection. rewrite He. by eexists.
  - intros account Ha. split; [|by apply Hreg].
    rewrite Ha. simpl. pose proof (prefix_0x_nonempty _ (Hacc account Ha)) as Hne.
    apply String.eqb_neq in Hne. by rewrite Hne.
Qed.

Lemma voter_records_wellformed_witness :
  truthyAccount (currentAccount votedStore) = Some "0x8f3a2c"
  /\ is_Some (voters votedStore !! "0x8f3a2c").
Proof.
  apply (voter_records_wellformed votedStore reachable_votedStore). reflexivity.
Defined.

(** ** Creating elections *)

Lemma JsMap_set_fresh {V} (k : string) (v : V) (m : list (string * V)) :
  JsMap.get k m = None -> JsMap.set k v m = m ++ [(k, v)].
Proof.
  induction m as [|[k' v'] m IH]; simpl; [done |].
  destruct (String.eqb k' k); [done |]. intros H. by rewrite IH.
Qed.

Lemma JsMap_set_length {V} (k : string) (v : V) (m : list (string * V)) :
  is_Some (JsMap.get k m) -> length (JsMap.set k v m) = length m.
Proof.
  induction m as [|[k' v'] m IH]; simpl; [by intros [? ?] |].
  destruct (String.eqb k' k); [done |]. intros H. simpl. by rewrite IH.
Qed.

(** X8.  An admin [createElection] either appends or replaces.  When no
    election has the id yet, the new election goes to the end of the
    registry, and in a reachable store [getAllElections] afterwards is the
    old listing followed by the new election, shown as not voted in.  When
    the id is taken, the election under it is replaced in place: the
    registry keeps its length and order, the new record has no candidates
    and no votes and the log of the id is emptied, while the voter records
    -- flags for that id included -- stay. *)
Theorem createElection_appends_or_replaces election nowId nowLo nowHi s :
  isAdmin s = true ->
  let electionId := "election-" +:+ numberToString nowId in
  let s' := snd (createElection election nowId nowLo nowHi s) in
  let created :=
    Election.mk electionId (ElectionInput.title election)
      (ElectionInput.description election) (ElectionInput.startTime election)
      (ElectionInput.endTime election)
      ((ElectionInput.startTime election <=? nowLo)
       && (nowHi <=? ElectionInput.endTime election))
      [] 0 (ElectionInput.hasVoted election) in
  JsMap.get electionId (elections s') = Some created
  /\ logOf electionId s' = []
  /\ voters s' = voters s
  /\ (JsMap.get electionId (elections s) = None ->
      elections s' = elections s ++ [(electionId, created)]
      /\ (reachable s ->
          getAllElections s'
          = getAllElections s
            ++ [Election.mk electionId (ElectionInput.title election)
                  (ElectionInput.description election)
                  (ElectionInput.startTime election)
                  (ElectionInput.endTime election)
                  ((ElectionInput.startTime election <=? nowLo)
                   && (nowHi <=? ElectionInput.endTime election))
                  [] 0 (Some false)]))
  /\ (is_Some (JsMap.get electionId (elections s)) ->
      map fst (elections s') = map fst (elections s)
      /\ length (elections s') = length (elections s)).
Proof.
  intros Hadmin electionId s' created.
  destruct (createElection_cases election nowId nowLo nowHi s) as [[E _]|[_ E]];
    [congruence |].
  subst s'. rewrite E. simpl. fold electionId. fold created.
  split; [apply JsMapFacts.get_set_eq |].
  split; [unfold logOf; simpl; by rewrite lookup_insert_eq |].
  split; [done |]. split.
  - intros Hfresh. rewrite (JsMap_set_fresh _ _ _ Hfresh). split; [done |].
    intros Hs. unfold getAllElections, JsMap.values. simpl.
    rewrite !map_app. simpl. f_equal.
    unfold withHasVoted. simpl. do 2 f_equal.
    destruct (truthyAccount (currentAccount s)) as [account|]; [|done].
    f_equal. change (hasVoted electionId account s = false).
    destruct (hasVoted electionId account s) eqn:Hflag; [|done].
    apply hasVoted_true in Hflag as (voter & Hv & Hk).
    destruct (reachable_consistent s Hs) as (_ & _ & Hrec & _).
    destruct (Hrec account voter Hv) as (_ & _ & _ & Hflags).
    destruct (Hflags electionId true Hk) as [_ [e He]]. congruence.
  - intros Htaken. split.
    + rewrite JsMap_keys_set. by destruct Htaken as [e ->].
    + by apply JsMap_set_length.
Qed.

Lemma createElection_appends_or_replaces_witness :
  JsMap.get "election-1700000060000"
    (elections (snd (createElection
                       (ElectionInput.mk "Board" "Board election" bootTime
                          (bootTime + 7200000) None)
                       (bootTime + 60000) (bootTime + 60000) (bootTime + 60000)
                       adminStore)))
  = Some (Election.mk "election-1700000060000" "Board" "Board election" bootTime
            (bootTime + 7200000) true [] 0 None).
Proof.
  apply (createElection_appends_or_replaces
           (ElectionInput.mk "Board" "Board election" bootTime
              (bootTime + 7200000) None)
           (bootTime + 60000) (bootTime + 60000) (bootTime + 60000) adminStore
           eq_refl).
Defined.

(** ** From an empty election to the first vote *)

(** X9.  An election that an admin creates inside its window can be voted
    in as soon as it has a candidate, and not before.  For a connected,
    registered account that has no flag for the new id: [createElection]
    resolves; a vote right after it is rejected with "Candidate not found",
    whatever the candidate id; [addCandidate] resolves; the vote for the
    returned candidate id resolves; the results then show that candidate
    with one vote; and a further vote of the account is rejected with "You
    have already voted in this election". *)
Theorem create_add_vote_round election candidate nowId nowLo nowHi nowAdd
    rndHash nowVote s account :
  isAdmin s = true ->
  truthyAccount (currentAccount s) = Some account ->
  is_Some (voters s !! account) ->
  hasVoted ("election-" +:+ numberToString nowId) account s = false ->
  ElectionInput.startTime election <= nowLo ->
  nowHi <= ElectionInput.endTime election ->
  let electionId := "election-" +:+ numberToString nowId in
  let candidateId := "candidate-" +:+ numberToString nowAdd in
  let s1 := snd (createElection election nowId nowLo nowHi s) in
  let s2 := snd (addCandidate electionId candidate nowAdd s1) in
  let s3 := snd (castVote electionId candidateId rndHash nowVote s2) in
  fst (createElection election nowId nowLo nowHi s) = Resolve electionId
  /\ (forall candidateId' rndHash' now',
        castVote electionId candidateId' rndHash' now' s1
        = (Reject CandidateNotFound, s1))
  /\ fst (addCandidate electionId candidate nowAdd s1) = Resolve candidateId
  /\ fst (castVote electionId candidateId rndHash nowVote s2)
     = Resolve ("0x" +:+ rndHash)
  /\ getElectionResults electionId s3
     = Resolve [Candidate.mk candidateId (CandidateInput.name candidate)
                  (CandidateInput.description candidate) 1
                  (CandidateInput.imageUrl candidate)]
  /\ (forall candidateId' rndHash' now',
        castVote electionId candidateId' rndHash' now' s3
        = (Reject AlreadyVoted, s3)).
Proof.
  intros Hadmin Hacc Hrec Hflag Hlo Hhi electionId candidateId s1 s2 s3.
  assert (Hwin : (ElectionInput.startTime election <=? nowLo)
                 && (nowHi <=? ElectionInput.endTime election) = true).
  { apply andb_true_intro. split; by apply Z.leb_le. }
  destruct (createElection_cases election nowId nowLo nowHi s) as [[E _]|[_ E1]];
    [congruence |].
  fold electionId in E1.
  assert (Hs1 : s1 = snd (createElection election nowId nowLo nowHi s)) by done.
  rewrite E1 in Hs1. simpl in Hs1. rewrite E1. split; [done |].
  assert (Hget1 : JsMap.get electionId (elections s1)
                  = Some (Election.mk electionId (ElectionInput.title election)
                            (ElectionInput.description election)
                            (ElectionInput.startTime election)
                            (ElectionInput.endTime election) true [] 0
                            (ElectionInput.hasVoted election))).
  { rewrite Hs1. simpl. by rewrite JsMapFacts.get_set_eq, Hwin. }
  assert (Hacc1 : truthyAccount (currentAccount s1) = Some account)
    by by rewrite Hs1.
  assert (Hflag1 : hasVoted electionId account s1 = false).
  { rewrite <- Hflag. apply hasVoted_voters. by rewrite Hs1. }
  split.
  { intros candidateId' rndHash' now'. unfold castVote.
    by rewrite Hacc1, Hget1, Hflag1. }
  destruct (addCandidate_cases electionId candidate nowAdd s1)
    as [(err & E & _)|(e1 & _ & He1 & E2)].
  { exfalso. unfold addCandidate in E. rewrite Hget1 in E.
    replace (isAdmin s1) with true in E by by rewrite Hs1. done. }
  assert (Hs2 : s2 = snd (addCandidate electionId candidate nowAdd s1)) by done.
  rewrite Hget1 in He1. injection He1 as <-.
  rewrite E2 in Hs2. simpl in Hs2. fold candidateId in Hs2, E2.
  rewrite E2. split; [done |].
  destruct (castVote_cases electionId candidateId rndHash nowVote s2)
    as [[err E]|(a & e2 & c & Ha & He2 & Hact & Hv & Hc & E3)].
  { exfalso. unfold castVote in E. rewrite Hs2 in E. simpl in E.
    rewrite Hacc1, JsMapFacts.get_set_eq in E. simpl in E.
    replace (hasVoted electionId account _) with false in E
      by (rewrite <- Hflag1; by apply hasVoted_voters).
    by rewrite String.eqb_refl in E. }
  assert (Hs3 : s3 = snd (castVote electionId candidateId rndHash nowVote s2))
    by done.
  rewrite E3 in Hs3. simpl in Hs3. rewrite E3. split; [done |].
  assert (He2' : e2 = Election.mk electionId (ElectionInput.title election)
                        (ElectionInput.description election)
                        (ElectionInput.startTime election)
                        (ElectionInput.endTime election) true
                        [Candidate.mk candidateId (CandidateInput.name candidate)
                           (CandidateInput.description candidate) 0
                           (CandidateInput.imageUrl candidate)]
                        0 (ElectionInput.hasVoted election)).
  { rewrite Hs2 in He2. simpl in He2. rewrite JsMapFacts.get_set_eq in He2.
    by injection He2 as <-. }
  split.
  - unfold getElectionResults. rewrite Hs3. simpl.
    rewrite JsMapFacts.get_set_eq, He2'. simpl. by rewrite String.eqb_refl.
  - assert (Ha' : account = a).
    { rewrite Hs2 in Ha. simpl in Ha. congruence. }
    subst a. intros candidateId' rndHash' now'.
    apply (castVote_twice electionId candidateId rndHash nowVote s2
             ("0x" +:+ rndHash) s3).
    + intros account' Hacc'. rewrite Hs2. simpl. rewrite Hs1. simpl.
      apply truthyAccount_Some in Hacc as [Hacc _].
      rewrite Hs2, Hs1 in Hacc'. simpl in Hacc'. congruence.
    + by rewrite E3, Hs3.
Qed.

Lemma create_add_vote_round_witness :
  getElectionResults "election-1700000060000"
    (run [ CallCreateElection
             (ElectionInput.mk "Board" "Board election" bootTime
                (bootTime + 7200000) None)
             (bootTime + 60000) (bootTime + 60000) (bootTime + 60000);
           CallAddCandidate "election-1700000060000"
             (CandidateInput.mk "Dan Brown" "Treasurer" None) (bootTime + 61000);
           CallCastVote "election-1700000060000" "candidate-1700000061000" "c4"
             (bootTime + 65000) ] adminStore)
  = Resolve [Candidate.mk "candidate-1700000061000" "Dan Brown" "Treasurer" 1 None].
Proof.
  refine (proj1 (proj2 (proj2 (proj2 (proj2
            (create_add_vote_round
               (ElectionInput.mk "Board" "Board election" bootTime
                  (bootTime + 7200000) None)
               (CandidateInput.mk "Dan Brown" "Treasurer" None)
               (bootTime + 60000) (bootTime + 60000) (bootTime + 60000)
               (bootTime + 61000) "c4" (bootTime + 65000) adminStore "0x8f3a2c"
               eq_refl eq_refl _ _ _ _)))))).
  - vm_compute. by eexists.
  - vm_compute. reflexivity.
  - vm_compute. discriminate.
  - vm_compute. discriminate.
Defined.

(** ** The shape of the ids *)

Lemma prefix_election n : String.prefix "election-" ("election-" +:+ n) = true.
Proof. simpl. by destruct n. Qed.

Lemma prefix_candidate n : String.prefix "candidate-" ("candidate-" +:+ n) = true.
Proof. simpl. by destruct n. Qed.

Lemma incrementCandidate_ids (P : string -> Prop) cid cs :
  Forall (fun c => P (Candidate.id c)) cs ->
  Forall (fun c => P (Candidate.id c)) (incrementCandidate cid cs).
Proof.
  induction 1 as [|c cs Hc Hcs IH]; simpl; [constructor |].
  destruct (String.eqb (Candidate.id c) cid); by constructor.
Qed.

Lemma step_idsWellFormed c s : idsWellFormed s -> idsWellFormed (step c s).
Proof.
  unfold idsWellFormed. intros Hs.
  destruct c as [a r| |e t1 t2 t3|eid cand t| |eid|eid cid h t|eid|tx r| |];
    try done.
  - simpl. destruct (createElection_cases e t1 t2 t3 s) as [[_ ->]|[_ ->]];
      [done |]. simpl. apply JsMapFacts.Forall_set; [done |]. simpl.
    split; [apply prefix_election | constructor].
  - simpl. destruct (addCandidate_cases eid cand t s)
      as [(err & -> & _)|(election & _ & He & ->)]; [done |].
    simpl. apply JsMapFacts.Forall_set; [done |].
    apply JsMapFacts.get_elem_of in He.
    eapply Forall_forall in Hs; [|exact He]. destruct Hs as [Hk Hc]. simpl in *.
    split; [done |]. apply Forall_app. split; [done |].
    constructor; [apply prefix_candidate | constructor].
  - simpl. destruct (castVote_cases eid cid h t s)
      as [[err ->]|(a & election & c & _ & He & _ & _ & _ & ->)]; [done |].
    simpl. apply JsMapFacts.Forall_set; [done |].
    apply JsMapFacts.get_elem_of in He.
    eapply Forall_forall in Hs; [|exact He]. destruct Hs as [Hk Hc]. simpl in *.
    split; [done |].
    by apply (incrementCandidate_ids (fun i => String.prefix "candidate-" i = true)).
Qed.

Lemma findCandidate_elem_of (cs : list Candidate.t) c :
  c ∈ cs -> is_Some (findCandidate (Candidate.id c) cs).
Proof.
  induction cs as [|c0 cs IH]; [by intros ?%elem_of_nil |].
  simpl. destruct (String.eqb (Candidate.id c0) (Candidate.id c)) eqn:E;
    [by eexists |].
  intros [->|Hin]%elem_of_cons; [|by apply IH].
  by rewrite String.eqb_refl in E.
Qed.

Lemma reachable_idsWellFormed s : reachable s -> idsWellFormed s.
Proof.
  induction 1 as [now1 now2|c s _ IH]; [|by apply step_idsWellFormed].
  unfold idsWellFormed. rewrite init_elections. simpl.
  repeat constructor.
Qed.

(** X10.  In every reachable store every election id starts with
    [election-] and every candidate id on a ballot with [candidate-]; in
    particular no id is empty.  The lookup by the id of a candidate of the
    ballot, as [castVote] does it, returns the first candidate of the ballot
    that carries that id: a candidate with the same id and none with that id
    before it.  It is the candidate itself when no id is repeated on the
    ballot. *)
Theorem ids_carry_their_prefix s key election :
  reachable s ->
  JsMap.get key (elections s) = Some election ->
  String.prefix "election-" key = true
  /\ key <> ""
  /\ forall c, c ∈ Election.candidates election ->
       String.prefix "candidate-" (Candidate.id c) = true
       /\ Candidate.id c <> ""
       /\ exists i first,
            findCandidate (Candidate.id c) (Election.candidates election)
            = Some first
            /\ Election.candidates election !! i = Some first
            /\ Candidate.id first = Candidate.id c
            /\ (forall j c', (j < i)%nat ->
                  Election.candidates election !! j = Some c' ->
                  Candidate.id c' <> Candidate.id c)
            /\ (NoDup (Candidate.id <$> Election.candidates election) ->
                first = c).
Proof.
  intros Hs Hget. apply JsMapFacts.get_elem_of in Hget.
  pose proof (reachable_idsWellFormed s Hs) as Hids.
  eapply Forall_forall in Hids; [|exact Hget]. destruct Hids as [Hk Hc].
  simpl in *. split; [done |]. split; [by intros -> |].
  intros c Hin. eapply Forall_forall in Hc as Hp; [|exact Hin].
  split; [done |]. split; [by intros E; rewrite E in Hp |].
  destruct (findCandidate_elem_of _ _ Hin) as [first Hfind].
  destruct (incrementCandidate_first _ _ _ Hfind) as (i & Hi & Hid & Hbefore & _).
  exists i, first. repeat (split; [done |]).
  intros Hnd. apply list_elem_of_lookup in Hin as [k Hk'].
  assert (Hik : i = k).
  { eapply NoDup_lookup; [exact Hnd | |];
      rewrite list_lookup_fmap; [rewrite Hi | rewrite Hk']; simpl; by f_equal. }
  subst k. congruence.
Qed.

Lemma ids_carry_their_prefix_witness :
  String.prefix "election-" "election-1" = true
  /\ "election-1" <> ""
  /\ String.prefix "candidate-" "candidate-2" = true
  /\ exists i first,
       findCandidate "candidate-2"
         [ Candidate.mk "candidate-1" "Alice Johnson"
             "Experienced leader with vision for positive change" 0 None;
           Candidate.mk "candidate-2" "Bob Smith"
             "Fresh perspective and innovative ideas" 1 None;
           Candidate.mk "candidate-3" "Carol Davis"
             "Proven track record in student advocacy" 0 None ]
       = Some first
       /\ i = 1%nat
       /\ Candidate.name first = "Bob Smith".
Proof.
  destruct (ids_carry_their_prefix votedStore "election-1"
              (Election.mk "election-1" "2024 Student Council Elections"
                 "Vote for your preferred student council president"
                 (bootTime - 3600000) (bootTime + 86400000) true
                 [ Candidate.mk "candidate-1" "Alice Johnson"
                     "Experienced leader with vision for positive change" 0 None;
                   Candidate.mk "candidate-2" "Bob Smith"
                     "Fresh perspective and innovative ideas" 1 None;
                   Candidate.mk "candidate-3" "Carol Davis"
                     "Proven track record in student advocacy" 0 None ]
                 1 None)
              reachable_votedStore eq_refl) as (H1 & H2 & Hc).
  destruct (Hc (Candidate.mk "candidate-2" "Bob Smith"
                  "Fresh perspective and innovative ideas" 1 None))
    as (Hp & _ & i & first & Hfind & Hi & _ & _ & Hsame).
  { simpl. apply elem_of_cons. right. apply elem_of_cons. by left. }
  split; [exact H1 |]. split; [exact H2 |]. split; [exact Hp |].
  exists i, first. split; [exact Hfind |].
  assert (Hfirst : first = Candidate.mk "candidate-2" "Bob Smith"
                             "Fresh perspective and innovative ideas" 1 None).
  { apply Hsame. apply (bool_decide_unpack _). vm_compute. reflexivity. }
  subst first. split; [|reflexivity].
  destruct i as [|[|[|i]]]; simpl in Hi; [discriminate | reflexivity | discriminate..].
Defined.

(** ** The voting panel and the results dashboard *)

Lemma string_length_app a b :
  String.length (a +:+ b) = (String.length a + String.length b)%nat.
Proof. induction a as [|x a IH]; simpl; [done | by rewrite IH]. Qed.

Lemma formatTimeRemaining_running now endTime :
  now < endTime ->
  (11 <= String.length (VotingPanel.formatTimeRemaining now endTime))%nat.
Proof.
  intros Hlt. unfold VotingPanel.formatTimeRemaining.
  destruct (Z.leb_spec (endTime - now) 0); [lia |].
  destruct (24 <? (endTime - now) / (1000 * 60 * 60));
    rewrite !string_length_app; simpl; lia.
Qed.

(** X11.  The two panels give an election the same status at every clock
    reading: "upcoming" before [startTime], "active" from [startTime] to
    [endTime] inclusive (when the window is not inverted), "ended" after.
    The countdown of the voting panel reads "Ended" exactly when
    [endTime <= now]; so at the instant [now = endTime] an election is
    shown as active and its countdown as ended. *)
Theorem panels_agree_on_status now election :
  VotingPanel.status (VotingPanel.getTimeStatus now election)
  = ResultsDashboard.status (ResultsDashboard.getElectionStatus now election)
  /\ (VotingPanel.status (VotingPanel.getTimeStatus now election) = "upcoming"
      <-> now < Election.startTime election)
  /\ (VotingPanel.status (VotingPanel.getTimeStatus now election) = "active"
      <-> Election.startTime election <= now <= Election.endTime election)
  /\ (VotingPanel.status (VotingPanel.getTimeStatus now election) = "ended"
      <-> Election.startTime election <= now /\ Election.endTime election < now)
  /\ (VotingPanel.formatTimeRemaining now (Election.endTime election) = "Ended"
      <-> Election.endTime election <= now)
  /\ (Election.startTime election <= now -> now = Election.endTime election ->
      VotingPanel.getTimeStatus now election
      = VotingPanel.mkTimeStatus "active" "Active"
      /\ VotingPanel.formatTimeRemaining now (Election.endTime election) = "Ended").
Proof.
  assert (Hlabel : VotingPanel.formatTimeRemaining now (Election.endTime election)
                   = "Ended" <-> Election.endTime election <= now).
  { split.
    - intros E. destruct (Z.le_gt_cases (Election.endTime election) now) as [|Hgt];
        [done |].
      pose proof (formatTimeRemaining_running now _ Hgt) as Hlen.
      rewrite E in Hlen. simpl in Hlen. lia.
    - intros Hle. unfold VotingPanel.formatTimeRemaining.
      destruct (Z.leb_spec (Election.endTime election - now) 0); [done | lia]. }
  unfold VotingPanel.getTimeStatus, ResultsDashboard.getElectionStatus.
  destruct (Z.ltb_spec now (Election.startTime election));
    destruct (Z.ltb_spec (Election.endTime election) now); simpl;
    (split; [done |]);
    (split; [split; [done || discriminate | done || lia] |]);
    (split; [split; [done || discriminate | done || lia] |]);
    (split; [split; [done || discriminate | done || lia] |]);
    (split; [exact Hlabel |]);
    intros ? ?; (split; [done || lia | apply Hlabel; lia]).
Qed.

(** X12.  While time is left the countdown never overstates it.  Below 25
    hours it reads [H]h [M]m with [M < 60] and understates by less than a
    minute -- a remaining time of exactly 24 hours reads 24h 0m, not 1d 0h;
    from 25 hours on it reads [D]d [H]h with [D >= 1], [H < 24] and
    understates by less than an hour. *)
Theorem formatTimeRemaining_understates now endTime :
  now < endTime ->
  let remaining := endTime - now in
  (remaining < 25 * 3600000 ->
   exists h m,
     VotingPanel.formatTimeRemaining now endTime
     = numberToString h +:+ "h " +:+ numberToString m +:+ "m remaining"
     /\ 0 <= h <= 24 /\ 0 <= m < 60
     /\ h * 3600000 + m * 60000 <= remaining < h * 3600000 + (m + 1) * 60000)
  /\ (25 * 3600000 <= remaining ->
      exists d h,
        VotingPanel.formatTimeRemaining now endTime
        = numberToString d +:+ "d " +:+ numberToString h +:+ "h remaining"
        /\ 1 <= d /\ 0 <= h < 24
        /\ (d * 24 + h) * 3600000 <= remaining < (d * 24 + h + 1) * 3600000).
Proof.
  intros Hlt remaining. unfold VotingPanel.formatTimeRemaining. fold remaining.
  assert (Hpos : 0 < remaining) by (unfold remaining; lia).
  destruct (Z.leb_spec remaining 0); [lia |].
  change (1000 * 60 * 60) with 3600000. change (1000 * 60) with 60000.
  rewrite (Z.rem_mod_nonneg remaining 3600000) by lia.
  split.
  - intros Hsmall.
    destruct (Z.ltb_spec 24 (remaining / 3600000)) as [Hbig|_].
    { exfalso. pose proof (Z.mul_div_le remaining 3600000). lia. }
    exists (remaining / 3600000), (remaining mod 3600000 / 60000).
    split; [done |].
    pose proof (Z.div_mod remaining 3600000).
    pose proof (Z.mod_pos_bound remaining 3600000).
    pose proof (Z.div_mod (remaining mod 3600000) 60000).
    pose proof (Z.mod_pos_bound (remaining mod 3600000) 60000).
    pose proof (Z.div_pos remaining 3600000).
    pose proof (Z.div_pos (remaining mod 3600000) 60000).
    assert (remaining / 3600000 <= 24).
    { apply Z.lt_succ_r. apply Z.div_lt_upper_bound; lia. }
    assert (remaining mod 3600000 / 60000 < 60).
    { apply Z.div_lt_upper_bound; lia. }
    lia.
  - intros Hlarge.
    destruct (Z.ltb_spec 24 (remaining / 3600000)) as [_|Hsmall].
    2: { exfalso. assert (25 <= remaining / 3600000); [|lia].
         apply Z.div_le_lower_bound; lia. }
    assert (Hh : 0 <= remaining / 3600000) by (apply Z.div_pos; lia).
    rewrite (Z.rem_mod_nonneg (remaining / 3600000) 24) by lia.
    exists (remaining / 3600000 / 24), ((remaining / 3600000) mod 24).
    split; [done |].
    pose proof (Z.div_mod remaining 3600000).
    pose proof (Z.mod_pos_bound remaining 3600000).
    pose proof (Z.div_mod (remaining / 3600000) 24).
    pose proof (Z.mod_pos_bound (remaining / 3600000) 24).
    assert (25 <= remaining / 3600000) by (apply Z.div_le_lower_bound; lia).
    assert (1 <= remaining / 3600000 / 24) by (apply Z.div_le_lower_bound; lia).
    lia.
Qed.

Lemma formatTimeRemaining_understates_witness :
  exists h m,
    VotingPanel.formatTimeRemaining bootTime (bootTime + 86400000)
    = numberToString h +:+ "h " +:+ numberToString m +:+ "m remaining"
    /\ 0 <= h <= 24 /\ 0 <= m < 60.
Proof.
  assert (Hlt : bootTime < bootTime + 86400000) by (vm_compute; reflexivity).
  destruct (proj1 (formatTimeRemaining_understates bootTime (bootTime + 86400000) Hlt))
    as (h & m & Hlabel & Hh & Hm & _); [vm_compute; reflexivity |].
  by exists h, m.
Defined.

Lemma panels_agree_on_status_witness :
  VotingPanel.getTimeStatus (bootTime + 86400000) (sampleElection bootTime bootTime)
  = VotingPanel.mkTimeStatus "active" "Active"
  /\ VotingPanel.formatTimeRemaining (bootTime + 86400000)
       (Election.endTime (sampleElection bootTime bootTime)) = "Ended".
Proof.
  apply (panels_agree_on_status (bootTime + 86400000)
           (sampleElection bootTime bootTime)).
  - vm_compute. discriminate.
  - reflexivity.
Defined.

(** ** The vote button against the service *)

Lemma getAllElections_elem_of s election :
  registryConsistent s ->
  election ∈ getAllElections s ->
  exists stored,
    JsMap.get (Election.id election) (elections s) = Some stored
    /\ election = withHasVoted s (Election.id election) stored.
Proof.
  intros Hreg. unfold getAllElections, JsMap.values.
  intros (e0 & -> & Hin)%list_elem_of_fmap.
  apply list_elem_of_fmap in Hin as ([key e1] & -> & Hin). simpl.
  destruct (registry_elem_of_get s key e1 Hreg Hin) as [Hget <-].
  by exists e1.
Qed.

Lemma voter_invariants_of_reachable s :
  reachable s ->
  forall account,
    currentAccount s = Some account ->
    truthyAccount (currentAccount s) = Some account
    /\ is_Some (voters s !! account).
Proof.
  intros Hs account Ha.
  destruct (reachable_consistent s Hs) as (_ & _ & _ & Hacc & _).
  destruct (reachable_ledger s Hs) as [Hreg _]. split; [|by apply Hreg].
  rewrite Ha. simpl. pose proof (prefix_0x_nonempty _ (Hacc account Ha)) as Hne.
  apply String.eqb_neq in Hne. by rewrite Hne.
Qed.

Lemma ballot_ids_of_reachable s key election :
  reachable s ->
  JsMap.get key (elections s) = Some election ->
  forall c, c ∈ Election.candidates election -> Candidate.id c <> "".
Proof.
  intros Hs Hget c Hin. apply JsMapFacts.get_elem_of in Hget.
  pose proof (reachable_idsWellFormed s Hs) as Hids.
  eapply Forall_forall in Hids; [|exact Hget]. destruct Hids as [_ Hc].
  eapply Forall_forall in Hc; [|exact Hin]. simpl in Hc.
  intros E. by rewrite E in Hc.
Qed.

(** X13.  Take a reachable store with a connected account, an election as
    [getAllElections] lists it, and a clock reading at which the voting
    panel offers the vote button for it.  Then a click on "Cast Vote" with
    any candidate of the listed ballot selected can fail in one way only:
    when the stored [isActive] flag is false the service rejects and the
    panel reports "Election is not active", although its own status of the
    election is "active"; when the flag is true the vote is accepted, the
    panel reports "confirmed", and on the reloaded listing the button is
    gone for that election at every clock reading. *)
Theorem offered_vote_fails_only_on_inactive_flag s account now election c
    rndHash nowVote :
  reachable s ->
  currentAccount s = Some account ->
  election ∈ getAllElections s ->
  VotingPanel.offersVote now election = true ->
  c ∈ Election.candidates election ->
  VotingPanel.status (VotingPanel.getTimeStatus now election) = "active"
  /\ (Election.isActive election = false ->
      VotingPanel.castVote (Some election) (Some (Candidate.id c)) rndHash nowVote s
      = (Some ("failed",
               mkToast "Voting Failed" "Election is not active"
                 (Some "destructive")),
         s))
  /\ (Election.isActive election = true ->
      exists s',
        castVote (Election.id election) (Candidate.id c) rndHash nowVote s
        = (Resolve ("0x" +:+ rndHash), s')
        /\ VotingPanel.castVote (Some election) (Some (Candidate.id c)) rndHash
             nowVote s
           = (Some ("confirmed",
                    mkToast "Vote Cast Successfully!"
                      ("Your vote has been recorded on the blockchain. TX: "
                       +:+ String.substring 0 10 ("0x" +:+ rndHash) +:+ "...")
                      None),
              s')
        /\ forall now' election',
             election' ∈ getAllElections s' ->
             Election.id election' = Election.id election ->
             VotingPanel.offersVote now' election' = false).
Proof.
  intros Hs Hacc Hin Hoffer Hc.
  destruct (reachable_consistent s Hs) as (Hreg & _ & _).
  destruct (voter_invariants_of_reachable s Hs account Hacc) as [Htruthy Hrec].
  destruct (getAllElections_elem_of s election Hreg Hin) as (stored & Hget & Hsnap).
  unfold VotingPanel.offersVote in Hoffer.
  apply andb_prop in Hoffer as [Hnot Hactive].
  apply String.eqb_eq in Hactive. split; [done |].
  assert (Hflag : hasVoted (Election.id election) account s = false).
  { rewrite Hsnap in Hnot. simpl in Hnot. rewrite Htruthy in Hnot.
    by destruct (hasVoted (Election.id election) account s). }
  assert (Hcands : Election.candidates stored = Election.candidates election)
    by by rewrite Hsnap.
  assert (Hflagact : Election.isActive stored = Election.isActive election)
    by by rewrite Hsnap.
  assert (Hidne : Candidate.id c <> "").
  { apply (ballot_ids_of_reachable s _ stored Hs Hget c). by rewrite Hcands. }
  assert (Htc : VotingPanel.truthyCandidate (Some (Candidate.id c))
                = Some (Candidate.id c)).
  { simpl. apply String.eqb_neq in Hidne. by rewrite Hidne. }
  destruct (findCandidate_elem_of _ c Hc) as [c0 Hfind].
  split.
  - intros Hoff. unfold VotingPanel.castVote. rewrite Htc.
    unfold castVote. by rewrite Htruthy, Hget, Hflagact, Hoff.
  - intros Hon.
    destruct (castVote_cases (Election.id election) (Candidate.id c) rndHash
                nowVote s) as [[err E]|(a & e & c1 & Ha & He & _ & _ & _ & E)].
    { exfalso. unfold castVote in E.
      rewrite Htruthy, Hget, Hflagact, Hon, Hflag, Hcands, Hfind in E. done. }
    eexists. split; [exact E |]. split.
    + unfold VotingPanel.castVote. by rewrite Htc, E.
    + intros now' election' Hin' Hid'.
      assert (Hs' : reachable (step (CallCastVote (Election.id election)
                                       (Candidate.id c) rndHash nowVote) s))
        by by constructor.
      simpl in Hs'. rewrite E in Hs'. simpl in Hs'.
      destruct (reachable_consistent _ Hs') as (Hreg' & _ & _).
      destruct (getAllElections_elem_of _ election' Hreg' Hin')
        as (stored' & _ & Hsnap').
      unfold VotingPanel.offersVote. rewrite Hsnap'. simpl.
      rewrite Htruthy in Ha. injection Ha as <-. rewrite Htruthy.
      rewrite Hid'. rewrite Hsnap' in Hid'. simpl in Hid'.
      replace (hasVoted (Election.id election) account _) with true; [done |].
      symmetry. eapply voted_hasVoted_own; [exact Hrec | done].
Qed.

Lemma offered_vote_fails_only_on_inactive_flag_witness :
  exists s',
    castVote "election-1" "candidate-2" "5d07e1" (bootTime + 5000) adminStore
    = (Resolve "0x5d07e1", s').
Proof.
  assert (Hlist : getAllElections adminStore
                  = [withHasVoted adminStore "election-1"
                       (sampleElection bootTime bootTime)])
    by (vm_compute; reflexivity).
  destruct (offered_vote_fails_only_on_inactive_flag adminStore "0x8f3a2c"
              (bootTime + 1000)
              (withHasVoted adminStore "election-1" (sampleElection bootTime bootTime))
              (Candidate.mk "candidate-2" "Bob Smith"
                 "Fresh perspective and innovative ideas" 0 None)
              "5d07e1" (bootTime + 5000) reachable_adminStore eq_refl)
    as (_ & _ & Hon).
  - rewrite Hlist. left.
  - vm_compute. reflexivity.
  - right. left.
  - destruct (Hon eq_refl) as (s' & Hs' & _). by exists s'.
Defined.

(** ** The trophy of the results dashboard *)

Lemma sumVoteCounts_pos cs :
  0 < sumVoteCounts cs -> exists c, c ∈ cs /\ 0 < Candidate.voteCount c.
Proof.
  induction cs as [|c cs IH]; unfold sumVoteCounts in *; simpl; [lia |].
  intros Hpos. destruct (Z.lt_ge_cases 0 (Candidate.voteCount c)).
  - exists c. split; [left | done].
  - destruct IH as (c' & Hin & Hc'); [lia |]. exists c'. split; [by right | done].
Qed.

Lemma filter_head_first {A} (P : A -> Prop) `{forall x, Decision (P x)}
    (l : list A) x r :
  filter P l = x :: r ->
  exists j, l !! j = Some x
            /\ forall j' y, (j' < j)%nat -> l !! j' = Some y -> ~ P y.
Proof.
  induction l as [|a l IH]; [done |].
  rewrite filter_cons. case_decide as Ha.
  - intros [= -> <-]. exists 0%nat. split; [done |]. intros j' y Hj. lia.
  - intros Hf. destruct (IH Hf) as (j & Hj & Hfirst). exists (S j).
    split; [done |]. intros [|j'] y Hlt; simpl.
    + by intros [= <-].
    + apply Hfirst. lia.
Qed.

(** X14.  The trophy of the results dashboard goes to a leader.  For an
    election as listed from a reachable store and the results read from the
    same store: when the election has votes the results are not empty; and
    the candidate that gets the trophy (first row, [totalVotes > 0]) has at
    least one vote, no candidate of the ballot has more, and every candidate
    that stands before it on the ballot has fewer. *)
Theorem trophy_goes_to_first_leader s election results :
  reachable s ->
  election ∈ getAllElections s ->
  getElectionResults (Election.id election) s = Resolve results ->
  (0 < Election.totalVotes election -> exists top rest, results = top :: rest)
  /\ forall i c,
       results !! i = Some c ->
       ResultsDashboard.isWinner i election = true ->
       1 <= Candidate.voteCount c
       /\ (forall c', c' ∈ Election.candidates election ->
             Candidate.voteCount c' <= Candidate.voteCount c)
       /\ exists j,
            Election.candidates election !! j = Some c
            /\ forall j' c', (j' < j)%nat ->
                 Election.candidates election !! j' = Some c' ->
                 Candidate.voteCount c' < Candidate.voteCount c.
Proof.
  intros Hs Hin Hres.
  destruct (reachable_consistent s Hs) as (Hreg & _ & _).
  destruct (getAllElections_elem_of s election Hreg Hin) as (stored & Hget & Hsnap).
  assert (Hcands : Election.candidates stored = Election.candidates election)
    by by rewrite Hsnap.
  assert (Htot : Election.totalVotes stored = Election.totalVotes election)
    by by rewrite Hsnap.
  unfold getElectionResults in Hres. rewrite Hget, Hcands in Hres.
  injection Hres as <-.
  pose proof (reachable_electionsConsistent s Hs) as Hsum.
  eapply Forall_forall in Hsum; [|by apply JsMapFacts.get_elem_of].
  unfold tallyConsistent in Hsum. simpl in Hsum. rewrite Htot, Hcands in Hsum.
  set (cs := Election.candidates election) in *.
  pose proof (sort_perm byVoteCountDesc cs) as Hperm.
  pose proof (sort_descending cs) as Hdesc.
  assert (Hlead : forall top rest,
             sort byVoteCountDesc cs = top :: rest ->
             forall c', c' ∈ cs -> Candidate.voteCount c' <= Candidate.voteCount top).
  { intros top rest E c' Hc'. rewrite <- Hperm, E in Hc'.
    rewrite E in Hdesc. apply StronglySorted_inv in Hdesc as [_ Hall].
    apply elem_of_cons in Hc' as [->|Hc']; [lia |].
    eapply Forall_forall in Hall; [|exact Hc']. simpl in Hall. lia. }
  split.
  - intros Hpos. rewrite Hsum in Hpos.
    destruct (sumVoteCounts_pos _ Hpos) as (c & Hc & _).
    destruct (sort byVoteCountDesc cs) as [|top rest] eqn:E.
    + rewrite <- Hperm in Hc. by apply elem_of_nil in Hc.
    + by exists top, rest.
  - intros i c Hi Hwin. unfold ResultsDashboard.isWinner in Hwin.
    apply andb_prop in Hwin as [Hi0 Hpos]. apply Nat.eqb_eq in Hi0 as ->.
    apply Z.ltb_lt in Hpos.
    destruct (sort byVoteCountDesc cs) as [|top rest] eqn:E; [done |].
    injection Hi as ->. split; [|split].
    + rewrite Hsum in Hpos. destruct (sumVoteCounts_pos _ Hpos) as (c' & Hc' & Hv).
      pose proof (Hlead c rest eq_refl c' Hc'). lia.
    + by apply (Hlead c rest).
    + pose proof (sort_withVoteCount (Candidate.voteCount c) cs) as Hst.
      rewrite E in Hst. unfold withVoteCount in Hst. rewrite filter_cons in Hst.
      case_decide; [|done]. symmetry in Hst.
      destruct (filter_head_first _ _ _ _ Hst) as (j & Hj & Hfirst).
      exists j. split; [done |]. intros j' c' Hlt Hj'.
      pose proof (Hfirst j' c' Hlt Hj') as Hne. simpl in Hne.
      pose proof (Hlead c rest eq_refl c' (list_elem_of_lookup_2 _ _ _ Hj')). lia.
Qed.

Lemma trophy_goes_to_first_leader_witness :
  exists top rest,
    sort byVoteCountDesc
      (Election.candidates
         (withHasVoted votedStore "election-1"
            (Election.mk "election-1" "2024 Student Council Elections"
               "Vote for your preferred student council president"
               (bootTime - 3600000) (bootTime + 86400000) true
               [ Candidate.mk "candidate-1" "Alice Johnson"
                   "Experienced leader with vision for positive change" 0 None;
                 Candidate.mk "candidate-2" "Bob Smith"
                   "Fresh perspective and innovative ideas" 1 None;
                 Candidate.mk "candidate-3" "Carol Davis"
                   "Proven track record in student advocacy" 0 None ]
               1 None)))
    = top :: rest.
Proof.
  set (election := withHasVoted votedStore "election-1" _).
  assert (Hlist : getAllElections votedStore = [election])
    by (vm_compute; reflexivity).
  destruct (trophy_goes_to_first_leader votedStore election
              (sort byVoteCountDesc (Election.candidates election))
              reachable_votedStore) as [Hne _].
  - rewrite Hlist. left.
  - vm_compute. reflexivity.
  - apply Hne. vm_compute. reflexivity.
Defined.

(** ** The admin panel *)

(** X15.  The form of the admin panel turns an inverted or empty range down
    itself: with [startTime >= endTime] it shows "Invalid Time Range" and
    the store stays as it is.  Otherwise the outcome is the service's: for a
    caller without admin right the toast carries "Only admin can create
    elections" and nothing is stored; for an admin the election is stored
    with the title, description and range of the form.  So every election
    found in the registry after the handler was there before or has
    [startTime < endTime]. *)
Theorem adminPanel_createElection_guards_range newElection nowId nowLo nowHi s :
  let toast := fst (AdminPanel.createElection newElection nowId nowLo nowHi s) in
  let s' := snd (AdminPanel.createElection newElection nowId nowLo nowHi s) in
  (AdminPanel.startTime newElection >= AdminPanel.endTime newElection ->
   toast = mkToast "Invalid Time Range" "End time must be after start time"
             (Some "destructive")
   /\ s' = s)
  /\ (AdminPanel.startTime newElection < AdminPanel.endTime newElection ->
      isAdmin s = false ->
      toast = mkToast "Error" "Only admin can create elections" (Some "destructive")
      /\ s' = s)
  /\ (AdminPanel.startTime newElection < AdminPanel.endTime newElection ->
      isAdmin s = true ->
      toast = mkToast "Election Created"
                (AdminPanel.title newElection +:+ " has been created successfully")
                None
      /\ JsMap.get ("election-" +:+ numberToString nowId) (elections s')
         = Some (Election.mk ("election-" +:+ numberToString nowId)
                   (AdminPanel.title newElection)
                   (AdminPanel.description newElection)
                   (AdminPanel.startTime newElection)
                   (AdminPanel.endTime newElection)
                   ((AdminPanel.startTime newElection <=? nowLo)
                    && (nowHi <=? AdminPanel.endTime newElection))
                   [] 0 None))
  /\ (forall key election,
        JsMap.get key (elections s') = Some election ->
        JsMap.get key (elections s) = Some election
        \/ Election.startTime election < Election.endTime election).
Proof.
  intros toast s'. unfold toast, s', AdminPanel.createElection.
  destruct (Z.leb_spec (AdminPanel.endTime newElection)
              (AdminPanel.startTime newElection)) as [Hinv|Hok].
  - simpl. split; [done |]. split; [lia |]. split; [lia |]. auto.
  - split; [lia |].
    destruct (createElection_cases
                (ElectionInput.mk (AdminPanel.title newElection)
                   (AdminPanel.description newElection)
                   (AdminPanel.startTime newElection)
                   (AdminPanel.endTime newElection) None)
                nowId nowLo nowHi s) as [[Hadm ->]|[Hadm ->]]; simpl.
    + split; [done |]. split; [congruence |]. auto.
    + split; [congruence |]. split.
      * intros _ _. split; [done |]. apply JsMapFacts.get_set_eq.
      * intros key election. rewrite JsMap_get_set. case_decide; [|auto].
        intros [= <-]. right. simpl. done.
Qed.

Lemma adminPanel_createElection_guards_range_witness :
  fst (AdminPanel.createElection
         (AdminPanel.mkNewElection "Board" "Board election" (bootTime + 7200000)
            bootTime)
         (bootTime + 60000) (bootTime + 60000) (bootTime + 60000) adminStore)
  = mkToast "Invalid Time Range" "End time must be after start time"
      (Some "destructive")
  /\ snd (AdminPanel.createElection
            (AdminPanel.mkNewElection "Board" "Board election" (bootTime + 7200000)
               bootTime)
            (bootTime + 60000) (bootTime + 60000) (bootTime + 60000) adminStore)
     = adminStore.
Proof.
  apply (adminPanel_createElection_guards_range
           (AdminPanel.mkNewElection "Board" "Board election" (bootTime + 7200000)
              bootTime)
           (bootTime + 60000) (bootTime + 60000) (bootTime + 60000) adminStore).
  vm_compute. discriminate.
Defined.

(** * The contract [VotingSystem] *)

Module VotingSystemProofs.
Import VotingSystem.
Local Open Scope N_scope.

(** ** What a completed call has checked *)

Lemma require_Done cond reason : require cond reason = Done tt <-> cond = true.
Proof. unfold require. destruct cond; split; done. Qed.

Lemma increment_Done x y :
  increment x = Done y <-> x <> MAX_UINT256 /\ y = x + 1.
Proof.
  unfold increment. destruct (N.eqb_spec x MAX_UINT256) as [->|Hne].
  - split; [done |]. by intros [? _].
  - split; [by intros [= <-] | by intros [_ ->]].
Qed.

Lemma bind_Done {A B} (m : Outcome A) (k : A -> Outcome B) b :
  bind m k = Done b <-> exists a, m = Done a /\ k a = Done b.
Proof.
  destruct m as [a| |]; simpl.
  - split; [intros H; by exists a | by intros (a' & [= <-] & H)].
  - split; [done | by intros (a' & ? & _)].
  - split; [done | by intros (a' & ? & _)].
Qed.

Lemma electionExists_Done st electionId :
  electionExists st electionId = Done tt <-> 1 <= electionId <= electionCounter st.
Proof.
  unfold electionExists. rewrite require_Done, andb_true_iff, N.leb_le, N.ltb_lt.
  lia.
Qed.

Lemma onlyAdmin_Done ctx st : onlyAdmin ctx st = Done tt <-> sender ctx = admin st.
Proof. unfold onlyAdmin. by rewrite require_Done, N.eqb_eq. Qed.

Lemma electionActive_Done ctx st electionId :
  electionActive ctx st electionId = Done tt
  <-> e_startTime (electionAt st electionId) <= timestamp ctx
                                             <= e_endTime (electionAt st electionId)
      /\ e_isActive (electionAt st electionId) = true.
Proof.
  unfold electionActive.
  rewrite require_Done, !andb_true_iff, !N.leb_le. tauto.
Qed.

Ltac done_steps H :=
  repeat match type of H with
         | _ => progress cbv zeta in H
         | bind _ _ = Done _ =>
             let a := fresh "u" in
             let H1 := fresh "Hreq" in
             apply bind_Done in H as (a & H1 & H);
             match type of a with
             | unit => destruct a
             | _ => idtac
             end
         end.

Lemma registerVoter_Done ctx st r :
  registerVoter ctx st = Done r <->
  isRegistered st (sender ctx) = false
  /\ r = (tt, [VoterRegistered (sender ctx)],
          mkStorage (admin st) (electionCounter st) (elections st)
            (<[sender ctx := true]> (registeredVoters st))).
Proof.
  unfold registerVoter. rewrite bind_Done. split.
  - intros ([] & Hreq & [= <-]). apply require_Done in Hreq.
    by apply negb_true_iff in Hreq.
  - intros [Hreg ->]. exists tt. split; [|done].
    apply require_Done. by rewrite Hreg.
Qed.

Lemma createElection_Done title description startTime endTime ctx st r :
  createElection title description startTime endTime ctx st = Done r <->
  sender ctx = admin st
  /\ startTime < endTime
  /\ timestamp ctx < endTime
  /\ electionCounter st <> MAX_UINT256
  /\ r = (electionCounter st + 1,
          [ElectionCreated (electionCounter st + 1) title],
          mkStorage (admin st) (electionCounter st + 1)
            (<[electionCounter st + 1 :=
                 mkElection (electionCounter st + 1) title description startTime
                   endTime true 0 0
                   (e_candidates (electionAt st (electionCounter st + 1)))
                   (e_hasVoted (electionAt st (electionCounter st + 1)))]>
               (elections st))
            (registeredVoters st)).
Proof.
  unfold createElection. split.
  - intros H. done_steps H.
    apply onlyAdmin_Done in Hreq. apply require_Done, N.ltb_lt in Hreq0.
    apply require_Done, N.ltb_lt in Hreq1.
    apply increment_Done in Hreq2 as [? ->]. injection H as <-; repeat split; (done || lia).
  - intros (Ha & Hr & Ht & Hc & ->).
    apply onlyAdmin_Done in Ha. apply N.ltb_lt in Hr, Ht.
    rewrite Ha. simpl. unfold require. rewrite Hr, Ht. simpl.
    unfold increment. apply N.eqb_neq in Hc. by rewrite Hc.
Qed.

Lemma addCandidate_Done electionId name description ctx st r :
  addCandidate electionId name description ctx st = Done r <->
  sender ctx = admin st
  /\ 1 <= electionId <= electionCounter st
  /\ timestamp ctx < e_startTime (electionAt st electionId)
  /\ e_candidateCounter (electionAt st electionId) <> MAX_UINT256
  /\ r = (e_candidateCounter (electionAt st electionId) + 1,
          [CandidateAdded electionId
             (e_candidateCounter (electionAt st electionId) + 1) name],
          mkStorage (admin st) (electionCounter st)
            (<[electionId :=
                 mkElection (e_id (electionAt st electionId))
                   (e_title (electionAt st electionId))
                   (e_description (electionAt st electionId))
                   (e_startTime (electionAt st electionId))
                   (e_endTime (electionAt st electionId))
                   (e_isActive (electionAt st electionId))
                   (e_candidateCounter (electionAt st electionId) + 1)
                   (e_totalVotes (electionAt st electionId))
                   (<[e_candidateCounter (electionAt st electionId) + 1 :=
                        mkCandidate
                          (e_candidateCounter (electionAt st electionId) + 1)
                          name description 0 true]>
                      (e_candidates (electionAt st electionId)))
                   (e_hasVoted (electionAt st electionId))]>
               (elections st))
            (registeredVoters st)).
Proof.
  unfold addCandidate. split.
  - intros H. done_steps H.
    apply onlyAdmin_Done in Hreq. apply electionExists_Done in Hreq0.
    apply require_Done, N.ltb_lt in Hreq1.
    apply increment_Done in Hreq2 as [? ->]. injection H as <-; repeat split; (done || lia).
  - intros (Ha & He & Ht & Hc & ->).
    apply onlyAdmin_Done in Ha. apply electionExists_Done in He.
    apply N.ltb_lt in Ht. rewrite Ha, He. simpl. unfold require. rewrite Ht. simpl.
    unfold increment. apply N.eqb_neq in Hc. by rewrite Hc.
Qed.

Lemma castVote_Done electionId candidateId ctx st r :
  castVote electionId candidateId ctx st = Done r <->
  isRegistered st (sender ctx) = true
  /\ 1 <= electionId <= electionCounter st
  /\ e_startTime (electionAt st electionId) <= timestamp ctx
                                            <= e_endTime (electionAt st electionId)
  /\ e_isActive (electionAt st electionId) = true
  /\ votedIn (electionAt st electionId) (sender ctx) = false
  /\ 1 <= candidateId <= e_candidateCounter (electionAt st electionId)
  /\ c_exists (candidateAt (electionAt st electionId) candidateId) = true
  /\ c_voteCount (candidateAt (electionAt st electionId) candidateId)
     <> MAX_UINT256
  /\ e_totalVotes (electionAt st electionId) <> MAX_UINT256
  /\ r = (tt, [VoteCast electionId candidateId (sender ctx)],
          mkStorage (admin st) (electionCounter st)
            (<[electionId :=
                 mkElection (e_id (electionAt st electionId))
                   (e_title (electionAt st electionId))
                   (e_description (electionAt st electionId))
                   (e_startTime (electionAt st electionId))
                   (e_endTime (electionAt st electionId))
                   (e_isActive (electionAt st electionId))
                   (e_candidateCounter (electionAt st electionId))
                   (e_totalVotes (electionAt st electionId) + 1)
                   (<[candidateId :=
                        mkCandidate
                          (c_id (candidateAt (electionAt st electionId) candidateId))
                          (c_name (candidateAt (electionAt st electionId) candidateId))
                          (c_description
                             (candidateAt (electionAt st electionId) candidateId))
                          (c_voteCount
                             (candidateAt (electionAt st electionId) candidateId)
                           + 1)
                          (c_exists
                             (candidateAt (electionAt st electionId) candidateId))]>
                      (e_candidates (electionAt st electionId)))
                   (<[sender ctx := true]>
                      (e_hasVoted (electionAt st electionId)))]>
               (elections st))
            (registeredVoters st)).
Proof.
  unfold castVote. split.
  - intros H. done_steps H.
    apply require_Done in Hreq. apply electionExists_Done in Hreq0.
    apply electionActive_Done in Hreq1 as [? ?].
    apply require_Done, negb_true_iff in Hreq2.
    apply require_Done, andb_true_iff in Hreq3 as [?%N.leb_le ?%N.ltb_lt].
    apply require_Done in Hreq4.
    apply increment_Done in Hreq5 as [? ->].
    apply increment_Done in Hreq6 as [? ->].
    injection H as <-. repeat (split; [done || lia |]). done.
  - intros (Hr & He & Hw & Hact & Hv & Hc & Hex & Hvc & Htv & ->).
    apply electionExists_Done in He.
    assert (Ha : electionActive ctx st electionId = Done tt)
      by by apply electionActive_Done.
    unfold onlyRegisteredVoter, require at 1. rewrite Hr. simpl.
    rewrite He, Ha. simpl. unfold require. rewrite Hv, Hex. simpl.
    replace ((candidateId <=? e_candidateCounter (electionAt st electionId))
             && (0 <? candidateId)) with true.
    2: { symmetry. apply andb_true_iff. rewrite N.leb_le, N.ltb_lt. lia. }
    simpl. unfold increment. apply N.eqb_neq in Hvc, Htv. by rewrite Hvc, Htv.
Qed.

Lemma stopElection_Done electionId ctx st r :
  stopElection electionId ctx st = Done r <->
  sender ctx = admin st
  /\ 1 <= electionId <= electionCounter st
  /\ r = (tt, [],
          mkStorage (admin st) (electionCounter st)
            (<[electionId :=
                 mkElection (e_id (electionAt st electionId))
                   (e_title (electionAt st electionId))
                   (e_description (electionAt st electionId))
                   (e_startTime (electionAt st electionId))
                   (e_endTime (electionAt st electionId)) false
                   (e_candidateCounter (electionAt st electionId))
                   (e_totalVotes (electionAt st electionId))
                   (e_candidates (electionAt st electionId))
                   (e_hasVoted (electionAt st electionId))]>
               (elections st))
            (registeredVoters st)).
Proof.
  unfold stopElection. split.
  - intros H. done_steps H.
    apply onlyAdmin_Done in Hreq. apply electionExists_Done in Hreq0.
    injection H as <-; repeat split; (done || lia).
  - intros (Ha & He & ->).
    apply onlyAdmin_Done in Ha. apply electionExists_Done in He.
    by rewrite Ha, He.
Qed.

(** ** Reading the mappings after a write *)

Lemma electionAt_insert st st' i e j :
  elections st' = <[i := e]> (elections st) ->
  electionAt st' j = if decide (i = j) then e else electionAt st j.
Proof.
  intros E. unfold electionAt. rewrite E.
  case_decide as Hij.
  - subst. by rewrite lookup_insert_eq.
  - by rewrite lookup_insert_ne.
Qed.

Lemma electionAt_write st a c r i e j :
  electionAt (mkStorage a c (<[i := e]> (elections st)) r) j
  = if decide (i = j) then e else electionAt st j.
Proof. by apply electionAt_insert. Qed.

Lemma electionAt_Some st i e : elections st !! i = Some e -> electionAt st i = e.
Proof. unfold electionAt. by intros ->. Qed.

Lemma candidateAt_Some e j c : e_candidates e !! j = Some c -> candidateAt e j = c.
Proof. unfold candidateAt. by intros ->. Qed.

(** ** The range [1 .. n] *)

Lemma candidateIds_elem_of n i : i ∈ candidateIds n <-> 1 <= i <= n.
Proof.
  unfold candidateIds. rewrite list_elem_of_fmap. split.
  - intros (k & -> & Hk). apply elem_of_seq in Hk. lia.
  - intros Hi. exists (N.to_nat i). split; [lia |]. apply elem_of_seq. lia.
Qed.

Lemma candidateIds_NoDup n : NoDup (candidateIds n).
Proof.
  assert (Hinj : Inj (=) (=) N.of_nat) by (intros a b; lia).
  unfold candidateIds. apply (NoDup_fmap_2 N.of_nat), NoDup_seq.
Qed.

Lemma candidateIds_succ n : candidateIds (n + 1) = candidateIds n ++ [n + 1].
Proof.
  unfold candidateIds. replace (N.to_nat (n + 1)) with (S (N.to_nat n)) by lia.
  rewrite seq_S, map_app. simpl. do 2 f_equal. lia.
Qed.

Lemma candidateIds_length n : length (candidateIds n) = N.to_nat n.
Proof. unfold candidateIds. by rewrite length_map, length_seq. Qed.

Lemma sum_map_ext (f g : N -> N) l :
  (forall i, i ∈ l -> f i = g i) ->
  foldr N.add 0 (map f l) = foldr N.add 0 (map g l).
Proof.
  induction l as [|x l IH]; simpl; [done |]. intros H.
  rewrite (H x) by left. rewrite IH; [done |]. intros i Hi. apply H. by right.
Qed.

Lemma sum_map_bump (f g : N -> N) l x :
  NoDup l -> x ∈ l ->
  (forall i, i ∈ l -> i <> x -> g i = f i) ->
  g x = f x + 1 ->
  foldr N.add 0 (map g l) = foldr N.add 0 (map f l) + 1.
Proof.
  induction l as [|y l IH]; [by intros _ ?%elem_of_nil |].
  intros [Hy Hnd]%NoDup_cons Hx Hsame Hbump. simpl.
  apply elem_of_cons in Hx as [->|Hx].
  - rewrite Hbump. assert (foldr N.add 0 (map g l) = foldr N.add 0 (map f l)) as ->;
      [|lia].
    apply sum_map_ext. intros i Hi. apply Hsame; [by right |]. by intros ->.
  - assert (g y = f y) as -> by (apply Hsame; [left | by intros ->]).
    assert (foldr N.add 0 (map g l) = foldr N.add 0 (map f l) + 1) as ->; [|lia].
    apply IH; try done. intros i Hi. apply Hsame. by right.
Qed.

Lemma foldr_add_app l1 l2 :
  foldr N.add 0 (l1 ++ l2) = foldr N.add 0 l1 + foldr N.add 0 l2.
Proof. induction l1 as [|x l1 IH]; simpl; [done |]. rewrite IH. lia. Qed.

Lemma sum_candidates_insert_new (m : gmap N Candidate) n c :
  foldr N.add 0
    (map (fun i => c_voteCount (default zeroCandidate (<[n + 1 := c]> m !! i)))
         (candidateIds (n + 1)))
  = foldr N.add 0
      (map (fun i => c_voteCount (default zeroCandidate (m !! i))) (candidateIds n))
    + c_voteCount c.
Proof.
  rewrite candidateIds_succ, map_app, foldr_add_app. simpl.
  rewrite lookup_insert_eq. simpl.
  rewrite (sum_map_ext
             (fun i => c_voteCount (default zeroCandidate (<[n + 1 := c]> m !! i)))
             (fun i => c_voteCount (default zeroCandidate (m !! i)))); [lia |].
  intros i Hi%candidateIds_elem_of. rewrite lookup_insert_ne by lia. done.
Qed.

Lemma sum_candidates_bump (m : gmap N Candidate) n cid c :
  1 <= cid <= n ->
  c_voteCount c = c_voteCount (default zeroCandidate (m !! cid)) + 1 ->
  foldr N.add 0
    (map (fun i => c_voteCount (default zeroCandidate (<[cid := c]> m !! i)))
         (candidateIds n))
  = foldr N.add 0
      (map (fun i => c_voteCount (default zeroCandidate (m !! i))) (candidateIds n))
    + 1.
Proof.
  intros Hcid Hc. apply (sum_map_bump _ _ _ cid).
  - apply candidateIds_NoDup.
  - by apply candidateIds_elem_of.
  - intros i _ Hne. by rewrite lookup_insert_ne.
  - by rewrite lookup_insert_eq.
Qed.

(** ** The storage stays well formed *)

Lemma wfStorage_replace st st' electionId election' :
  wfStorage st ->
  1 <= electionId <= electionCounter st ->
  electionCounter st' = electionCounter st ->
  elections st' = <[electionId := election']> (elections st) ->
  registeredVoters st' = registeredVoters st ->
  wfElection electionId election' ->
  wfStorage st'.
Proof.
  intros (Hel & Hrange & Hreg) Hid Hcnt Hels Hregs Hwf.
  split; [|split].
  - intros i e. rewrite Hels, Hcnt.
    destruct (decide (electionId = i)) as [<-|Hne].
    + rewrite lookup_insert_eq. by intros [= <-].
    + rewrite lookup_insert_ne by done. apply Hel.
  - intros i Hi. rewrite Hels. rewrite Hcnt in Hi.
    destruct (decide (electionId = i)) as [<-|Hne].
    + rewrite lookup_insert_eq. by eexists.
    + rewrite lookup_insert_ne by done. by apply Hrange.
  - rewrite Hregs. apply Hreg.
Qed.

Lemma wfStorage_electionAt st electionId :
  wfStorage st ->
  1 <= electionId <= electionCounter st ->
  elections st !! electionId = Some (electionAt st electionId)
  /\ wfElection electionId (electionAt st electionId).
Proof.
  intros (Hel & Hrange & _) Hid. destruct (Hrange electionId Hid) as [e He].
  rewrite (electionAt_Some _ _ _ He). split; [done |]. by apply Hel.
Qed.

Lemma wfStorage_beyond st electionId :
  wfStorage st -> electionCounter st < electionId ->
  electionAt st electionId = zeroElection.
Proof.
  intros (Hel & _ & _) Hlt. unfold electionAt.
  destruct (elections st !! electionId) as [e|] eqn:E; [|done].
  destruct (Hel _ _ E) as [? _]. lia.
Qed.

Lemma wfElection_candidateAt i e j :
  wfElection i e -> 1 <= j <= e_candidateCounter e ->
  e_candidates e !! j = Some (candidateAt e j)
  /\ c_id (candidateAt e j) = j /\ c_exists (candidateAt e j) = true.
Proof.
  intros (_ & _ & Hc & Hr & _) Hj. destruct (Hr j Hj) as [c Hcj].
  rewrite (candidateAt_Some _ _ _ Hcj). split; [done |].
  by destruct (Hc _ _ Hcj) as (_ & ? & ?).
Qed.

Lemma exec_wfStorage ctx tx st : wfStorage st -> wfStorage (exec ctx tx st).
Proof.
  intros Hwf. destruct tx as [|title description startTime endTime
                               |electionId name description
                               |electionId candidateId|electionId]; simpl.
  - destruct (registerVoter ctx st) as [[[u ev] st']| |] eqn:E; [|done..].
    apply registerVoter_Done in E as [_ [= _ _ ->]]. simpl.
    destruct Hwf as (Hel & Hrange & Hreg). split; [done |]. split; [done |].
    simpl. intros a b. destruct (decide (sender ctx = a)) as [<-|Hne].
    + rewrite lookup_insert_eq. by intros [= <-].
    + rewrite lookup_insert_ne by done. apply Hreg.
  - destruct (createElection title description startTime endTime ctx st)
      as [[[u ev] st']| |] eqn:E; [|done..].
    apply createElection_Done in E as (_ & Hr & _ & Hc & [= _ _ ->]). simpl.
    rewrite (wfStorage_beyond st (electionCounter st + 1) Hwf) by lia. simpl.
    destruct Hwf as (Hel & Hrange & Hreg). split; [|split]; simpl; [| |done].
    + intros i e. destruct (decide (electionCounter st + 1 = i)) as [<-|Hne].
      * rewrite lookup_insert_eq. intros [= <-]. split; [lia |].
        unfold wfElection. simpl. split; [done |]. split; [done |].
        split; [intros j c; by rewrite lookup_empty |].
        split; [intros j Hj; lia |].
        split; [intros a b; by rewrite lookup_empty |]. done.
      * rewrite lookup_insert_ne by done. intros He.
        destruct (Hel i e He) as [? ?]. split; [lia | done].
    + intros i Hi. destruct (decide (electionCounter st + 1 = i)) as [<-|Hne].
      * rewrite lookup_insert_eq. by eexists.
      * rewrite lookup_insert_ne by done. apply Hrange. lia.
  - destruct (addCandidate electionId name description ctx st)
      as [[[u ev] st']| |] eqn:E; [|done..].
    apply addCandidate_Done in E as (_ & Hid & _ & Hc & [= _ _ ->]). simpl.
    destruct (wfStorage_electionAt st electionId Hwf Hid) as [He Hwfe].
    set (e0 := electionAt st electionId) in *.
    eapply wfStorage_replace; [done | done | done | done | done |].
    destruct Hwfe as (Hi & Hw & Hcs & Hcr & Hv & Hsum & Hsize).
    unfold wfElection. simpl. split; [done |]. split; [done |].
    split; [|split; [|split; [done |]; split; [|done]]].
    + intros j c. destruct (decide (e_candidateCounter e0 + 1 = j)) as [<-|Hne].
      * rewrite lookup_insert_eq. intros [= <-]. simpl. split; [lia | done].
      * rewrite lookup_insert_ne by done. intros Hj.
        destruct (Hcs j c Hj) as (? & ? & ?). split; [lia | done].
    + intros j Hj. destruct (decide (e_candidateCounter e0 + 1 = j)) as [<-|Hne].
      * rewrite lookup_insert_eq. by eexists.
      * rewrite lookup_insert_ne by done. apply Hcr. lia.
    + unfold tallySum, candidateAt. simpl.
      rewrite sum_candidates_insert_new. simpl.
      rewrite Hsum. unfold tallySum, candidateAt. lia.
  - destruct (castVote electionId candidateId ctx st)
      as [[[u ev] st']| |] eqn:E; [|done..].
    apply castVote_Done in E
      as (_ & Hid & _ & _ & Hnv & Hcid & _ & _ & _ & [= _ _ ->]). simpl.
    destruct (wfStorage_electionAt st electionId Hwf Hid) as [He Hwfe].
    set (e0 := electionAt st electionId) in *.
    eapply wfStorage_replace; [done | done | done | done | done |].
    destruct (wfElection_candidateAt _ _ _ Hwfe Hcid) as (Hcat & Hcidid & Hcex).
    destruct Hwfe as (Hi & Hw & Hcs & Hcr & Hv & Hsum & Hsize).
    unfold wfElection. simpl. split; [done |]. split; [done |].
    split; [|split; [|split; [|split]]].
    + intros j c. destruct (decide (candidateId = j)) as [<-|Hne].
      * rewrite lookup_insert_eq. intros [= <-]. simpl. done.
      * rewrite lookup_insert_ne by done. apply Hcs.
    + intros j Hj. destruct (decide (candidateId = j)) as [<-|Hne].
      * rewrite lookup_insert_eq. by eexists.
      * rewrite lookup_insert_ne by done. by apply Hcr.
    + intros a b. destruct (decide (sender ctx = a)) as [<-|Hne].
      * rewrite lookup_insert_eq. by intros [= <-].
      * rewrite lookup_insert_ne by done. apply Hv.
    + unfold tallySum, candidateAt. simpl.
      rewrite sum_candidates_bump; [|done |simpl; unfold candidateAt; lia].
      rewrite Hsum. unfold tallySum, candidateAt. lia.
    + rewrite Hsize. rewrite map_size_insert_None; [lia |].
      unfold votedIn in Hnv. destruct (e_hasVoted e0 !! sender ctx) as [b|] eqn:Eb;
        [|done].
      simpl in Hnv. subst b. by apply Hv in Eb.
  - destruct (stopElection electionId ctx st) as [[[u ev] st']| |] eqn:E; [|done..].
    apply stopElection_Done in E as (_ & Hid & [= _ _ ->]). simpl.
    destruct (wfStorage_electionAt st electionId Hwf Hid) as [He Hwfe].
    eapply wfStorage_replace; [done | done | done | done | done |].
    destruct Hwfe as (Hi & Hw & Hcs & Hcr & Hv & Hsum & Hsize).
    unfold wfElection. simpl. repeat (split; [done |]). done.
Qed.

Lemma reachable_wfStorage st : reachable st -> wfStorage st.
Proof.
  induction 1 as [ctx|ctx tx st _ IH]; [|by apply exec_wfStorage].
  split; [|split]; simpl.
  - intros i e. by rewrite lookup_empty.
  - intros i Hi. lia.
  - intros a b. by rewrite lookup_empty.
Qed.

(** ** What no transaction changes *)

Lemma exec_admin ctx tx st : admin (exec ctx tx st) = admin st.
Proof.
  destruct tx; simpl.
  - destruct (registerVoter ctx st) as [[[u ev] st']| |] eqn:E; [|done..].
    by apply registerVoter_Done in E as [_ [= _ _ ->]].
  - destruct (createElection _ _ _ _ ctx st) as [[[u ev] st']| |] eqn:E; [|done..].
    by apply createElection_Done in E as (_ & _ & _ & _ & [= _ _ ->]).
  - destruct (addCandidate _ _ _ ctx st) as [[[u ev] st']| |] eqn:E; [|done..].
    by apply addCandidate_Done in E as (_ & _ & _ & _ & [= _ _ ->]).
  - destruct (castVote _ _ ctx st) as [[[u ev] st']| |] eqn:E; [|done..].
    by apply castVote_Done in E
      as (_ & _ & _ & _ & _ & _ & _ & _ & _ & [= _ _ ->]).
  - destruct (stopElection _ ctx st) as [[[u ev] st']| |] eqn:E; [|done..].
    by apply stopElection_Done in E as (_ & _ & [= _ _ ->]).
Qed.

Lemma exec_counter ctx tx st : electionCounter st <= electionCounter (exec ctx tx st).
Proof.
  destruct tx; simpl.
  - destruct (registerVoter ctx st) as [[[u ev] st']| |] eqn:E; [|done..].
    by apply registerVoter_Done in E as [_ [= _ _ ->]].
  - destruct (createElection _ _ _ _ ctx st) as [[[u ev] st']| |] eqn:E; [|done..].
    apply createElection_Done in E as (_ & _ & _ & _ & [= _ _ ->]). simpl. lia.
  - destruct (addCandidate _ _ _ ctx st) as [[[u ev] st']| |] eqn:E; [|done..].
    by apply addCandidate_Done in E as (_ & _ & _ & _ & [= _ _ ->]).
  - destruct (castVote _ _ ctx st) as [[[u ev] st']| |] eqn:E; [|done..].
    by apply castVote_Done in E
      as (_ & _ & _ & _ & _ & _ & _ & _ & _ & [= _ _ ->]).
  - destruct (stopElection _ ctx st) as [[[u ev] st']| |] eqn:E; [|done..].
    by apply stopElection_Done in E as (_ & _ & [= _ _ ->]).
Qed.

Lemma exec_registered ctx tx st a :
  isRegistered st a = true -> isRegistered (exec ctx tx st) a = true.
Proof.
  intros Ha. destruct tx; simpl.
  - destruct (registerVoter ctx st) as [[[u ev] st']| |] eqn:E; [|done..].
    apply registerVoter_Done in E as [_ [= _ _ ->]].
    unfold isRegistered in *. simpl.
    destruct (decide (sender ctx = a)) as [<-|Hne].
    + by rewrite lookup_insert_eq.
    + by rewrite lookup_insert_ne.
  - destruct (createElection _ _ _ _ ctx st) as [[[u ev] st']| |] eqn:E; [|done..].
    by apply createElection_Done in E as (_ & _ & _ & _ & [= _ _ ->]).
  - destruct (addCandidate _ _ _ ctx st) as [[[u ev] st']| |] eqn:E; [|done..].
    by apply addCandidate_Done in E as (_ & _ & _ & _ & [= _ _ ->]).
  - destruct (castVote _ _ ctx st) as [[[u ev] st']| |] eqn:E; [|done..].
    by apply castVote_Done in E
      as (_ & _ & _ & _ & _ & _ & _ & _ & _ & [= _ _ ->]).
  - destruct (stopElection _ ctx st) as [[[u ev] st']| |] eqn:E; [|done..].
    by apply stopElection_Done in E as (_ & _ & [= _ _ ->]).
Qed.

(** An existing election across a transaction: its id, title, description
    and window stay, a cleared [isActive] stays cleared, the candidate
    counter and the tally do not decrease, and a set flag stays set. *)
Lemma exec_election ctx tx st electionId :
  1 <= electionId <= electionCounter st ->
  let e := electionAt st electionId in
  let e' := electionAt (exec ctx tx st) electionId in
  e_id e' = e_id e
  /\ e_title e' = e_title e
  /\ e_description e' = e_description e
  /\ e_startTime e' = e_startTime e
  /\ e_endTime e' = e_endTime e
  /\ (e_isActive e = false -> e_isActive e' = false)
  /\ e_candidateCounter e <= e_candidateCounter e'
  /\ e_totalVotes e <= e_totalVotes e'
  /\ (forall a, votedIn e a = true -> votedIn e' a = true).
Proof.
  intros Hid e e'. subst e e'.
  assert (Hsame : let e := electionAt st electionId in
            e_id e = e_id e /\ e_title e = e_title e
            /\ e_description e = e_description e
            /\ e_startTime e = e_startTime e /\ e_endTime e = e_endTime e
            /\ (e_isActive e = false -> e_isActive e = false)
            /\ e_candidateCounter e <= e_candidateCounter e
            /\ e_totalVotes e <= e_totalVotes e
            /\ (forall a, votedIn e a = true -> votedIn e a = true)).
  { simpl. repeat split; done || lia. }
  destruct tx as [|title description startTime endTime
                  |eid name description|eid candidateId|eid]; simpl.
  - destruct (registerVoter ctx st) as [[[u ev] st']| |] eqn:E; [|done..].
    by apply registerVoter_Done in E as [_ [= _ _ ->]].
  - destruct (createElection _ _ _ _ ctx st) as [[[u ev] st']| |] eqn:E; [|done..].
    apply createElection_Done in E as (_ & _ & _ & _ & [= _ _ ->]).
    cbn [after]. rewrite electionAt_write.
    case_decide; [lia | done].
  - destruct (addCandidate _ _ _ ctx st) as [[[u ev] st']| |] eqn:E; [|done..].
    apply addCandidate_Done in E as (_ & _ & _ & _ & [= _ _ ->]).
    cbn [after]. rewrite electionAt_write.
    case_decide; [|done]. subst eid. simpl. repeat split; done || lia.
  - destruct (castVote _ _ ctx st) as [[[u ev] st']| |] eqn:E; [|done..].
    apply castVote_Done in E
      as (_ & _ & _ & _ & _ & _ & _ & _ & _ & [= _ _ ->]).
    cbn [after]. rewrite electionAt_write.
    case_decide; [|done]. subst eid. simpl.
    repeat (split; [done || lia |]).
    intros a. unfold votedIn. simpl.
    destruct (decide (sender ctx = a)) as [<-|Hne].
    + by rewrite lookup_insert_eq.
    + by rewrite lookup_insert_ne.
  - destruct (stopElection _ ctx st) as [[[u ev] st']| |] eqn:E; [|done..].
    apply stopElection_Done in E as (_ & _ & [= _ _ ->]).
    cbn [after]. rewrite electionAt_write.
    case_decide; [|done]. subst eid. simpl. repeat split; done || lia.
Qed.

Lemma execAll_cons ctx tx txs st :
  execAll ((ctx, tx) :: txs) st = execAll txs (exec ctx tx st).
Proof. reflexivity. Qed.

Lemma execAll_admin txs st : admin (execAll txs st) = admin st.
Proof.
  revert st. induction txs as [|[ctx tx] txs IH]; intros st; [done |].
  by rewrite execAll_cons, IH, exec_admin.
Qed.

Lemma execAll_counter txs st : electionCounter st <= electionCounter (execAll txs st).
Proof.
  revert st. induction txs as [|[ctx tx] txs IH]; intros st; [simpl; lia |].
  rewrite execAll_cons. pose proof (exec_counter ctx tx st).
  pose proof (IH (exec ctx tx st)). lia.
Qed.

Lemma execAll_registered txs st a :
  isRegistered st a = true -> isRegistered (execAll txs st) a = true.
Proof.
  revert st. induction txs as [|[ctx tx] txs IH]; intros st Ha; [done |].
  rewrite execAll_cons. by apply IH, exec_registered.
Qed.

Lemma execAll_election txs st electionId :
  1 <= electionId <= electionCounter st ->
  let e := electionAt st electionId in
  let e' := electionAt (execAll txs st) electionId in
  e_id e' = e_id e
  /\ e_title e' = e_title e
  /\ e_description e' = e_description e
  /\ e_startTime e' = e_startTime e
  /\ e_endTime e' = e_endTime e
  /\ (e_isActive e = false -> e_isActive e' = false)
  /\ e_candidateCounter e <= e_candidateCounter e'
  /\ e_totalVotes e <= e_totalVotes e'
  /\ (forall a, votedIn e a = true -> votedIn e' a = true).
Proof.
  revert st. induction txs as [|[ctx tx] txs IH]; intros st Hid.
  - simpl. repeat split; done || lia.
  - rewrite execAll_cons.
    destruct (exec_election ctx tx st electionId Hid)
      as (H1 & H2 & H3 & H4 & H5 & H6 & H7 & H8 & H9).
    assert (Hid' : 1 <= electionId <= electionCounter (exec ctx tx st)).
    { pose proof (exec_counter ctx tx st). lia. }
    destruct (IH (exec ctx tx st) Hid')
      as (G1 & G2 & G3 & G4 & G5 & G6 & G7 & G8 & G9).
    simpl. repeat split; try congruence; try lia; auto.
Qed.

Lemma reachable_execAll txs st : reachable st -> reachable (execAll txs st).
Proof.
  revert st. induction txs as [|[ctx tx] txs IH]; intros st Hst; [done |].
  rewrite execAll_cons. apply IH. by constructor.
Qed.

Lemma reachable_exampleStorage : reachable exampleStorage.
Proof. apply reachable_execAll. constructor. Defined.

Lemma reachable_votedStorage : reachable votedStorage.
Proof. constructor. apply reachable_exampleStorage. Defined.

Lemma electionActive_cases ctx st electionId :
  electionActive ctx st electionId = Done tt
  \/ electionActive ctx st electionId = Revert "Election is not active".
Proof. unfold electionActive, require. case_match; auto. Qed.

(** What [castVote] answers an address whose flag is set. *)
Lemma castVote_flagged electionId candidateId ctx st :
  isRegistered st (sender ctx) = true ->
  1 <= electionId <= electionCounter st ->
  votedIn (electionAt st electionId) (sender ctx) = true ->
  (exists reason,
      castVote electionId candidateId ctx st = Revert reason
      /\ (reason = "Election is not active" \/ reason = "Voter has already voted"))
  /\ (e_startTime (electionAt st electionId) <= timestamp ctx
                                             <= e_endTime (electionAt st electionId) ->
      e_isActive (electionAt st electionId) = true ->
      castVote electionId candidateId ctx st = Revert "Voter has already voted")
  /\ (~ (e_startTime (electionAt st electionId) <= timestamp ctx
                                                <= e_endTime (electionAt st electionId)
         /\ e_isActive (electionAt st electionId) = true) ->
      castVote electionId candidateId ctx st = Revert "Election is not active").
Proof.
  intros Hreg Hid Hv. apply electionExists_Done in Hid.
  unfold castVote, onlyRegisteredVoter. rewrite Hreg, Hid. simpl.
  split; [|split].
  - destruct (electionActive_cases ctx st electionId) as [-> | ->]; simpl.
    + rewrite Hv. simpl. eauto.
    + eauto.
  - intros Hw Hact.
    assert (Ha : electionActive ctx st electionId = Done tt)
      by by apply electionActive_Done.
    rewrite Ha. simpl. by rewrite Hv.
  - intros Hnot.
    destruct (electionActive_cases ctx st electionId) as [Ha | ->]; [|done].
    by apply electionActive_Done in Ha.
Qed.

(** X16.  The contract takes one vote per address and election, for good:
    once [castVote] has completed for an address, every later [castVote] of
    that address in that election is undone, whatever transactions came in
    between -- with "Voter has already voted" whenever the election is
    inside its window and still active, and with "Election is not active"
    otherwise. *)
Theorem contract_takes_one_vote_per_address electionId candidateId ctx st ev st1 :
  castVote electionId candidateId ctx st = Done (tt, ev, st1) ->
  forall txs ctx' candidateId',
    sender ctx' = sender ctx ->
    (exists reason,
        castVote electionId candidateId' ctx' (execAll txs st1) = Revert reason
        /\ (reason = "Election is not active"
            \/ reason = "Voter has already voted"))
    /\ (e_startTime (electionAt (execAll txs st1) electionId) <= timestamp ctx'
          <= e_endTime (electionAt (execAll txs st1) electionId) ->
        e_isActive (electionAt (execAll txs st1) electionId) = true ->
        castVote electionId candidateId' ctx' (execAll txs st1)
        = Revert "Voter has already voted")
    /\ (~ (e_startTime (electionAt (execAll txs st1) electionId) <= timestamp ctx'
            <= e_endTime (electionAt (execAll txs st1) electionId)
           /\ e_isActive (electionAt (execAll txs st1) electionId) = true) ->
        castVote electionId candidateId' ctx' (execAll txs st1)
        = Revert "Election is not active").
Proof.
  intros Hvote txs ctx' candidateId' Hsender.
  apply castVote_Done in Hvote
    as (Hreg & Hid & _ & _ & _ & _ & _ & _ & _ & [= _ ->]).
  set (st1 := mkStorage _ _ _ _).
  assert (Hreg1 : isRegistered st1 (sender ctx') = true) by by rewrite Hsender.
  assert (Hid1 : 1 <= electionId <= electionCounter st1) by done.
  assert (Hv1 : votedIn (electionAt st1 electionId) (sender ctx') = true).
  { unfold st1. rewrite electionAt_write. case_decide; [|done].
    unfold votedIn. simpl. by rewrite Hsender, lookup_insert_eq. }
  apply castVote_flagged.
  - by apply execAll_registered.
  - pose proof (execAll_counter txs st1). lia.
  - by apply (execAll_election txs st1 electionId Hid1).
Qed.

Lemma contract_takes_one_vote_per_address_witness :
  castVote 1 1 (mkContext 9 260) votedStorage = Revert "Voter has already voted"
  /\ castVote 1 1 (mkContext 9 301) votedStorage = Revert "Election is not active".
Proof.
  assert (Hfirst : exists ev,
             castVote 1 2 (mkContext 9 250) exampleStorage = Done (tt, ev, votedStorage)).
  { eexists. vm_compute. reflexivity. }
  destruct Hfirst as [ev Hfirst].
  split.
  - apply (proj1 (proj2 (contract_takes_one_vote_per_address 1 2 (mkContext 9 250)
                           exampleStorage ev votedStorage Hfirst []
                           (mkContext 9 260) 1 eq_refl))).
    + vm_compute. split; discriminate.
    + vm_compute. reflexivity.
  - apply (proj2 (proj2 (contract_takes_one_vote_per_address 1 2 (mkContext 9 250)
                           exampleStorage ev votedStorage Hfirst []
                           (mkContext 9 301) 1 eq_refl))).
    vm_compute. intros [[_ Hend] _]. by apply Hend.
Defined.

(** X17.  In every storage the deployed contract can reach, an election's
    [totalVotes] is the sum of the [voteCount]s of its candidates
    [1 .. candidateCounter] and the number of addresses flagged in its
    [hasVoted] mapping; an address counts as having voted exactly when the
    mapping holds an entry for it. *)
Theorem contract_tallies_agree st electionId :
  reachable st ->
  1 <= electionId <= electionCounter st ->
  let election := electionAt st electionId in
  e_totalVotes election = tallySum election
  /\ e_totalVotes election = N.of_nat (size (e_hasVoted election))
  /\ forall voter,
       votedIn election voter = true <-> is_Some (e_hasVoted election !! voter).
Proof.
  intros Hst Hid election.
  destruct (wfStorage_electionAt st electionId (reachable_wfStorage st Hst) Hid)
    as [_ (_ & _ & _ & _ & Hv & Hsum & Hsize)].
  split; [done |]. split; [done |]. intros voter. unfold votedIn.
  fold election in Hv.
  destruct (e_hasVoted election !! voter) as [b|] eqn:E; simpl.
  - rewrite (Hv voter b E). split; [by eexists | done].
  - split; [done | by intros [? ?]].
Qed.

Lemma contract_tallies_agree_witness :
  e_totalVotes (electionAt votedStorage 1) = tallySum (electionAt votedStorage 1).
Proof.
  apply (contract_tallies_agree votedStorage 1 reachable_votedStorage).
  vm_compute. split; discriminate.
Defined.

(** X18.  For an election that exists in a reachable storage (with fewer
    candidates than the largest [uint256]) [getElectionResults] returns the
    four arrays of the ballot in the order of the ids: the ids
    [1, 2, ..., candidateCounter] themselves and the name, description and
    tally of each; the tallies add up to [totalVotes].  For an id that was
    never issued it is undone with "Election does not exist". *)
Theorem contract_results_list_the_ballot st electionId :
  reachable st ->
  (1 <= electionId <= electionCounter st ->
   e_candidateCounter (electionAt st electionId) <> MAX_UINT256 ->
   let election := electionAt st electionId in
   let ids := candidateIds (e_candidateCounter election) in
   getElectionResults electionId st
   = Done (ids,
           map (fun i => c_name (candidateAt election i)) ids,
           map (fun i => c_description (candidateAt election i)) ids,
           map (fun i => c_voteCount (candidateAt election i)) ids)
   /\ length ids = N.to_nat (e_candidateCounter election)
   /\ foldr N.add 0 (map (fun i => c_voteCount (candidateAt election i)) ids)
      = e_totalVotes election)
  /\ (electionId = 0 \/ electionCounter st < electionId ->
      getElectionResults electionId st = Revert "Election does not exist").
Proof.
  intros Hst. split.
  - intros Hid Hmax election ids.
    destruct (wfStorage_electionAt st electionId (reachable_wfStorage st Hst) Hid)
      as [_ Hwfe].
    assert (Hentry : forall i, i ∈ ids ->
               (if c_exists (candidateAt election i) then candidateAt election i
                else zeroCandidate) = candidateAt election i
               /\ c_id (candidateAt election i) = i).
    { intros i Hi%candidateIds_elem_of.
      destruct (wfElection_candidateAt _ _ _ Hwfe Hi) as (_ & ? & Hex).
      fold election in Hex. by rewrite Hex. }
    split; [|split].
    + unfold getElectionResults. apply electionExists_Done in Hid. rewrite Hid.
      simpl. apply N.eqb_neq in Hmax. rewrite Hmax. fold election. fold ids.
      assert (Hmap : forall {A} (f : Candidate -> A),
                 map (fun i => f (if c_exists (candidateAt election i)
                                  then candidateAt election i else zeroCandidate))
                     ids
                 = map (fun i => f (candidateAt election i)) ids).
      { intros A f. apply map_ext_in. intros i Hi. apply list_elem_of_In in Hi.
        by destruct (Hentry i Hi) as [-> ?]. }
      rewrite (Hmap _ c_id), (Hmap _ c_name), (Hmap _ c_description),
        (Hmap _ c_voteCount).
      assert (Hids : map (fun i => c_id (candidateAt election i)) ids = ids).
      { rewrite <- (map_id ids) at 2. apply map_ext_in. intros i Hi.
        apply list_elem_of_In in Hi. by destruct (Hentry i Hi) as [_ ?]. }
      by rewrite Hids.
    + apply candidateIds_length.
    + destruct Hwfe as (_ & _ & _ & _ & _ & Hsum & _). symmetry. exact Hsum.
  - intros Hno. unfold getElectionResults, electionExists, require.
    replace ((electionId <=? electionCounter st) && (0 <? electionId)) with false;
      [done |].
    symmetry. apply andb_false_iff. rewrite N.leb_gt, N.ltb_ge. lia.
Qed.

Lemma contract_results_list_the_ballot_witness :
  getElectionResults 1 votedStorage
  = Done ([1; 2], ["Ann"; "Ben"], ["First"; "Second"], [0; 1]).
Proof.
  destruct (proj1 (contract_results_list_the_ballot votedStorage 1
                     reachable_votedStorage)) as (Hres & _ & _).
  - vm_compute. split; discriminate.
  - vm_compute. discriminate.
  - rewrite Hres. vm_compute. reflexivity.
Defined.

(** X19.  The contract numbers elections and candidates consecutively and
    uses no number twice.  A completed [createElection] returns the old
    [electionCounter] plus one, and every [createElection] completed later
    returns a larger id; a completed [addCandidate] returns the old
    [candidateCounter] of the election plus one, and every [addCandidate]
    completed later on the same election returns a larger id. *)
Theorem contract_ids_never_reused :
  (forall title description startTime endTime ctx st electionId ev st1,
      createElection title description startTime endTime ctx st
      = Done (electionId, ev, st1) ->
      electionId = electionCounter st + 1
      /\ getTotalElections st1 = electionId
      /\ forall txs title' description' startTime' endTime' ctx' electionId' ev' st2,
           createElection title' description' startTime' endTime' ctx'
             (execAll txs st1) = Done (electionId', ev', st2) ->
           electionId < electionId')
  /\ (forall electionId name description ctx st candidateId ev st1,
        addCandidate electionId name description ctx st
        = Done (candidateId, ev, st1) ->
        candidateId = e_candidateCounter (electionAt st electionId) + 1
        /\ e_candidateCounter (electionAt st1 electionId) = candidateId
        /\ forall txs name' description' ctx' candidateId' ev' st2,
             addCandidate electionId name' description' ctx' (execAll txs st1)
             = Done (candidateId', ev', st2) ->
             candidateId < candidateId').
Proof.
  split.
  - intros title description startTime endTime ctx st electionId ev st1 Hc.
    apply createElection_Done in Hc as (_ & _ & _ & _ & [= -> _ ->]).
    split; [done |]. split; [done |].
    intros txs title' description' startTime' endTime' ctx' electionId' ev' st2 Hc'.
    apply createElection_Done in Hc' as (_ & _ & _ & _ & [= -> _ _]).
    set (st1 := mkStorage _ _ _ _).
    pose proof (execAll_counter txs st1) as Hmono. simpl in Hmono. lia.
  - intros electionId name description ctx st candidateId ev st1 Ha.
    apply addCandidate_Done in Ha as (_ & Hid & _ & _ & [= -> _ ->]).
    split; [done |]. set (st1 := mkStorage _ _ _ _).
    assert (Hcc : e_candidateCounter (electionAt st1 electionId)
                  = e_candidateCounter (electionAt st electionId) + 1).
    { unfold st1. rewrite electionAt_write. by case_decide. }
    split; [done |].
    intros txs name' description' ctx' candidateId' ev' st2 Ha'.
    apply addCandidate_Done in Ha' as (_ & _ & _ & _ & [= -> _ _]).
    assert (Hid1 : 1 <= electionId <= electionCounter st1) by done.
    destruct (execAll_election txs st1 electionId Hid1)
      as (_ & _ & _ & _ & _ & _ & Hmono & _).
    lia.
Qed.

Lemma contract_ids_never_reused_witness :
  exists ev st1,
    createElection "Budget" "Budget vote" 400 500 (mkContext 7 300) votedStorage
    = Done (2, ev, st1)
    /\ getTotalElections st1 = 2.
Proof.
  assert (Hc : exists ev st1,
             createElection "Budget" "Budget vote" 400 500 (mkContext 7 300)
               votedStorage = Done (2, ev, st1)).
  { eexists _, _. vm_compute. reflexivity. }
  destruct Hc as (ev & st1 & Hc). exists ev, st1. split; [exact Hc |].
  by destruct (proj1 contract_ids_never_reused _ _ _ _ _ _ _ _ _ Hc) as (_ & ? & _).
Defined.

(** X20.  The ballot of the contract is closed before voting starts.  An
    election's window never changes once it exists; [addCandidate] completes
    only before [startTime] and [castVote] only from [startTime] to
    [endTime].  So whichever comes first in the sequence of transactions, a
    completed [addCandidate] and a completed [castVote] on one election
    have block times in that order: the candidate was added at a strictly
    earlier time than the vote was cast. *)
Theorem contract_ballot_closed_before_voting electionId :
  (forall name description ctxA st candidateId ev st1,
      addCandidate electionId name description ctxA st
      = Done (candidateId, ev, st1) ->
      forall txs candidateId' ctxV r,
        castVote electionId candidateId' ctxV (execAll txs st1) = Done r ->
        timestamp ctxA < timestamp ctxV)
  /\ (forall candidateId ctxV st ev st1,
        castVote electionId candidateId ctxV st = Done (tt, ev, st1) ->
        forall txs name description ctxA r,
          addCandidate electionId name description ctxA (execAll txs st1) = Done r ->
          timestamp ctxA < timestamp ctxV)
  /\ (forall st txs,
        1 <= electionId <= electionCounter st ->
        e_startTime (electionAt (execAll txs st) electionId)
        = e_startTime (electionAt st electionId)
        /\ e_endTime (electionAt (execAll txs st) electionId)
           = e_endTime (electionAt st electionId)).
Proof.
  split; [|split].
  - intros name description ctxA st candidateId ev st1 Ha txs candidateId' ctxV r Hv.
    apply addCandidate_Done in Ha as (_ & Hid & Hbefore & _ & [= _ _ ->]).
    set (st1 := mkStorage _ _ _ _) in *.
    apply castVote_Done in Hv as (_ & _ & [Hfrom _] & _).
    assert (Hid1 : 1 <= electionId <= electionCounter st1) by done.
    destruct (execAll_election txs st1 electionId Hid1)
      as (_ & _ & _ & Hstart & _).
    rewrite Hstart in Hfrom. unfold st1 in Hfrom.
    rewrite electionAt_write in Hfrom. case_decide; [|done]. simpl in Hfrom. lia.
  - intros candidateId ctxV st ev st1 Hv txs name description ctxA r Ha.
    apply castVote_Done in Hv
      as (_ & Hid & [Hfrom _] & _ & _ & _ & _ & _ & _ & [= _ ->]).
    set (st1 := mkStorage _ _ _ _) in *.
    apply addCandidate_Done in Ha as (_ & _ & Hbefore & _).
    assert (Hid1 : 1 <= electionId <= electionCounter st1) by done.
    destruct (execAll_election txs st1 electionId Hid1)
      as (_ & _ & _ & Hstart & _).
    rewrite Hstart in Hbefore. unfold st1 in Hbefore.
    rewrite electionAt_write in Hbefore. case_decide; [|done].
    simpl in Hbefore. lia.
  - intros st txs Hid.
    by destruct (execAll_election txs st electionId Hid) as (_ & _ & _ & ? & ? & _).
Qed.

Lemma contract_ballot_closed_before_voting_witness :
  e_startTime (electionAt votedStorage 1) = e_startTime (electionAt exampleStorage 1).
Proof.
  refine (proj1 (proj2 (proj2 (contract_ballot_closed_before_voting 1))
                   exampleStorage [(mkContext 9 250, TxCastVote 1 2)] _)).
  vm_compute. split; discriminate.
Defined.

(** X21.  Stopping is final.  After a completed [stopElection] the election
    is inactive and stays so whatever transactions follow: every later
    [castVote] in it is undone.  Stopping again changes nothing. *)
Theorem contract_stop_is_final electionId ctx st ev st1 :
  stopElection electionId ctx st = Done (tt, ev, st1) ->
  (forall txs,
      e_isActive (electionAt (execAll txs st1) electionId) = false
      /\ forall candidateId ctx',
           exists reason,
             castVote electionId candidateId ctx' (execAll txs st1) = Revert reason
             /\ (reason = "Voter not registered"
                 \/ reason = "Election is not active"))
  /\ stopElection electionId ctx st1 = Done (tt, [], st1).
Proof.
  intros Hstop.
  apply stopElection_Done in Hstop as (Hadm & Hid & [= _ ->]).
  set (st1 := mkStorage _ _ _ _).
  assert (Hid1 : 1 <= electionId <= electionCounter st1) by done.
  assert (Hoff : e_isActive (electionAt st1 electionId) = false).
  { unfold st1. rewrite electionAt_write. by case_decide. }
  split.
  - intros txs.
    destruct (execAll_election txs st1 electionId Hid1)
      as (_ & _ & _ & _ & _ & Hstay & _).
    specialize (Hstay Hoff). split; [done |].
    intros candidateId ctx'. unfold castVote, onlyRegisteredVoter, require.
    destruct (isRegistered (execAll txs st1) (sender ctx')); simpl; [|eauto].
    assert (He : electionExists (execAll txs st1) electionId = Done tt).
    { apply electionExists_Done. pose proof (execAll_counter txs st1). lia. }
    rewrite He. simpl. unfold electionActive, require. rewrite Hstay.
    rewrite andb_false_r. simpl. eauto.
  - apply stopElection_Done. split; [done |]. split; [done |].
    assert (Hsame : forall e, e_isActive e = false ->
               mkElection (e_id e) (e_title e) (e_description e) (e_startTime e)
                 (e_endTime e) false (e_candidateCounter e) (e_totalVotes e)
                 (e_candidates e) (e_hasVoted e) = e).
    { intros [] Hf. simpl in *. by subst. }
    rewrite (Hsame _ Hoff).
    assert (Hlook : elections st1 !! electionId = Some (electionAt st1 electionId)).
    { unfold electionAt, st1. simpl. by rewrite lookup_insert_eq. }
    by rewrite (insert_id _ _ _ Hlook).
Qed.

Lemma contract_stop_is_final_witness :
  exists st1,
    stopElection 1 (mkContext 7 260) votedStorage = Done (tt, [], st1)
    /\ e_isActive (electionAt st1 1) = false.
Proof.
  assert (Hs : exists st1,
             stopElection 1 (mkContext 7 260) votedStorage = Done (tt, [], st1)).
  { eexists. vm_compute. reflexivity. }
  destruct Hs as (st1 & Hs). exists st1. split; [exact Hs |].
  exact (proj1 (proj1 (contract_stop_is_final 1 _ _ _ _ Hs) [])).
Defined.

(** X22.  Registration is by oneself and for good.  A voter flag appears
    only through [registerVoter] sent by that very address; once set it
    stays set whatever follows, and a second [registerVoter] of the address
    is undone with "Voter already registered".  Without it [castVote] is
    undone with "Voter not registered" before anything else is looked at --
    so right after deployment nobody, the admin included, can vote. *)
Theorem contract_registration_is_permanent :
  (forall ctx st ev st1,
      registerVoter ctx st = Done (tt, ev, st1) ->
      forall txs,
        isRegistered (execAll txs st1) (sender ctx) = true
        /\ forall ctx',
             sender ctx' = sender ctx ->
             registerVoter ctx' (execAll txs st1) = Revert "Voter already registered")
  /\ (forall ctx tx st voter,
        isRegistered st voter = false ->
        isRegistered (exec ctx tx st) voter = true ->
        tx = TxRegisterVoter /\ sender ctx = voter)
  /\ (forall st electionId candidateId ctx,
        isRegistered st (sender ctx) = false ->
        castVote electionId candidateId ctx st = Revert "Voter not registered")
  /\ (forall ctx0 electionId candidateId ctx,
        castVote electionId candidateId ctx (constructor ctx0)
        = Revert "Voter not registered").
Proof.
  split; [|split; [|split]].
  - intros ctx st ev st1 Hr txs.
    apply registerVoter_Done in Hr as [_ [= _ ->]].
    set (st1 := mkStorage _ _ _ _).
    assert (Hreg : isRegistered (execAll txs st1) (sender ctx) = true).
    { apply execAll_registered. unfold isRegistered, st1. simpl.
      by rewrite lookup_insert_eq. }
    split; [done |]. intros ctx' Hs. unfold registerVoter, require.
    by rewrite Hs, Hreg.
  - intros ctx tx st voter Hno Hyes. destruct tx; simpl in Hyes.
    + destruct (registerVoter ctx st) as [[[u ev] st']| |] eqn:E;
        [|simpl in Hyes; congruence..].
      apply registerVoter_Done in E as [_ [= _ _ ->]]. split; [done |].
      simpl in Hyes. unfold isRegistered in *. simpl in Hyes.
      destruct (decide (sender ctx = voter)) as [|Hne]; [done |].
      rewrite lookup_insert_ne in Hyes by done. congruence.
    + destruct (createElection _ _ _ _ ctx st) as [[[u ev] st']| |] eqn:E;
        [|simpl in Hyes; congruence..].
      apply createElection_Done in E as (_ & _ & _ & _ & [= _ _ ->]).
      simpl in Hyes. unfold isRegistered in *. simpl in Hyes. congruence.
    + destruct (addCandidate _ _ _ ctx st) as [[[u ev] st']| |] eqn:E;
        [|simpl in Hyes; congruence..].
      apply addCandidate_Done in E as (_ & _ & _ & _ & [= _ _ ->]).
      simpl in Hyes. unfold isRegistered in *. simpl in Hyes. congruence.
    + destruct (castVote _ _ ctx st) as [[[u ev] st']| |] eqn:E;
        [|simpl in Hyes; congruence..].
      apply castVote_Done in E
        as (_ & _ & _ & _ & _ & _ & _ & _ & _ & [= _ _ ->]).
      simpl in Hyes. unfold isRegistered in *. simpl in Hyes. congruence.
    + destruct (stopElection _ ctx st) as [[[u ev] st']| |] eqn:E;
        [|simpl in Hyes; congruence..].
      apply stopElection_Done in E as (_ & _ & [= _ _ ->]).
      simpl in Hyes. unfold isRegistered in *. simpl in Hyes. congruence.
  - intros st electionId candidateId ctx Hno.
    unfold castVote, onlyRegisteredVoter, require. by rewrite Hno.
  - intros ctx0 electionId candidateId ctx. reflexivity.
Qed.

Lemma contract_registration_is_permanent_witness :
  registerVoter (mkContext 9 400) votedStorage = Revert "Voter already registered".
Proof.
  assert (Hr : exists ev st1,
             registerVoter (mkContext 9 170)
               (execAll [ (mkContext 7 100,
                           TxCreateElection "Council" "Council vote" 200 300);
                          (mkContext 7 150, TxAddCandidate 1 "Ann" "First");
                          (mkContext 7 160, TxAddCandidate 1 "Ben" "Second") ]
                        (constructor (mkContext 7 100)))
             = Done (tt, ev, st1)
             /\ execAll [(mkContext 9 250, TxCastVote 1 2)] st1 = votedStorage).
  { eexists _, _. split; vm_compute; reflexivity. }
  destruct Hr as (ev & st1 & Hr & <-).
  exact (proj2 (proj1 contract_registration_is_permanent _ _ _ _ Hr
                  [(mkContext 9 250, TxCastVote 1 2)])
           (mkContext 9 400) eq_refl).
Defined.

(** X23.  Only the deployer shapes elections.  The admin is the sender of
    the deployment and no transaction changes it.  A transaction from any
    other address leaves the number of elections as it is and, in every
    election, the title, description, window, [isActive] flag and the
    number of candidates, and the id, name and description of every
    candidate: all it can do is register its sender or cast a vote. *)
Theorem contract_only_admin_shapes_elections :
  (forall ctx0 txs, admin (execAll txs (constructor ctx0)) = sender ctx0)
  /\ (forall ctx tx st,
        sender ctx <> admin st ->
        electionCounter (exec ctx tx st) = electionCounter st
        /\ forall electionId,
             let e := electionAt st electionId in
             let e' := electionAt (exec ctx tx st) electionId in
             e_id e' = e_id e
             /\ e_title e' = e_title e
             /\ e_description e' = e_description e
             /\ e_startTime e' = e_startTime e
             /\ e_endTime e' = e_endTime e
             /\ e_isActive e' = e_isActive e
             /\ e_candidateCounter e' = e_candidateCounter e
             /\ forall candidateId,
                  c_id (candidateAt e' candidateId) = c_id (candidateAt e candidateId)
                  /\ c_name (candidateAt e' candidateId)
                     = c_name (candidateAt e candidateId)
                  /\ c_description (candidateAt e' candidateId)
                     = c_description (candidateAt e candidateId)
                  /\ c_exists (candidateAt e' candidateId)
                     = c_exists (candidateAt e candidateId)).
Proof.
  split; [intros ctx0 txs; by rewrite execAll_admin |].
  intros ctx tx st Hna.
  destruct tx as [|title description startTime endTime
                  |eid name description|eid candidateId|eid]; simpl.
  - destruct (registerVoter ctx st) as [[[u ev] st']| |] eqn:E;
      [|by repeat split..].
    apply registerVoter_Done in E as [_ [= _ _ ->]]. by repeat split.
  - destruct (createElection _ _ _ _ ctx st) as [[[u ev] st']| |] eqn:E;
      [|by repeat split..].
    by apply createElection_Done in E as (? & _).
  - destruct (addCandidate _ _ _ ctx st) as [[[u ev] st']| |] eqn:E;
      [|by repeat split..].
    by apply addCandidate_Done in E as (? & _).
  - destruct (castVote _ _ ctx st) as [[[u ev] st']| |] eqn:E;
      [|by repeat split..].
    apply castVote_Done in E
      as (_ & _ & _ & _ & _ & _ & _ & _ & _ & [= _ _ ->]).
    cbn [after]. split; [done |]. intros electionId.
    rewrite electionAt_write. case_decide as Heq; [|by repeat split].
    subst eid. simpl. repeat (split; [done |]).
    intros j. unfold candidateAt. simpl.
    destruct (decide (candidateId = j)) as [<-|Hne].
    + rewrite !lookup_insert_eq. simpl. by repeat split.
    + rewrite !lookup_insert_ne by done. by repeat split.
  - destruct (stopElection _ ctx st) as [[[u ev] st']| |] eqn:E;
      [|by repeat split..].
    by apply stopElection_Done in E as (? & _).
Qed.

Lemma contract_only_admin_shapes_elections_witness :
  electionCounter (exec (mkContext 9 260) (TxStopElection 1) votedStorage)
  = electionCounter votedStorage.
Proof.
  refine (proj1 (proj2 contract_only_admin_shapes_elections (mkContext 9 260)
                   (TxStopElection 1) votedStorage _)).
  vm_compute. discriminate.
Defined.

End VotingSystemProofs.
